(** * A shallow embedding of the video-coach browser client

    The development follows the TypeScript sources: the meeting page
    ([MeetingPage.tsx], in its plain and its hardened variant), the
    speech-to-text hook and the voice-activity-detection hook, the
    expressions of the meeting page's JSX, the [App] shell with the home
    page's [createMeeting], the dashboard component ([VideoCoachApp]),
    and the life of a mounted meeting page, in which [startStreaming]
    runs in segments between which other events arrive.

    Conventions of the embedding:
    - a JavaScript number is an exact rational ([Q]); [NaN], which only
      arises from numeric coercions, is [None] in an [option Q];
    - a value that came out of [JSON.parse] is a [jsval]; TypeScript types
      are erased at run time, so the handlers are modelled on [jsval];
    - React state, refs and the browser objects they point to are fields of
      one explicit [Page] record that every handler transforms;
    - a handler that can raise runs in a small state-and-exception monad
      in which the state written before a [throw] persists. *)

From Stdlib Require Import ZArith QArith Qround List String Bool Lia DecimalString.
From stdpp Require Import gmap.
Import ListNotations.

Set Warnings "-register-all".
Local Open Scope string_scope.

(* ================================================================== *)
(** ** JavaScript values as produced by [JSON.parse] *)
(* ================================================================== *)

Module JS.

Inductive jsval : Type :=
| JUndef
| JNull
| JBool (b : bool)
| JNum (q : Q)
| JStr (s : string)
| JArr (items : list jsval)
| JObj (props : list (string * jsval)).

(** The outcome of evaluating JavaScript code: a value, or an exception. *)
Inductive completion (A : Type) : Type :=
| Normal (a : A)
| Throw (err : string).
Arguments Normal {A} a.
Arguments Throw {A} err.

(** [a > b] on numbers. *)
Definition Qgt_bool (a b : Q) : bool := negb (Qle_bool a b).

(** ToBoolean. *)
Definition truthy (v : jsval) : bool :=
  match v with
  | JUndef | JNull => false
  | JBool b => b
  | JNum q => negb (Qeq_bool q 0)
  | JStr s => negb (String.eqb s EmptyString)
  | JArr _ | JObj _ => true
  end.

(** Own property of an object literal: the first binding of the key. *)
Fixpoint assoc (k : string) (ps : list (string * jsval)) : jsval :=
  match ps with
  | [] => JUndef
  | (k', v) :: rest => if String.eqb k k' then v else assoc k rest
  end.

Definition num_of_nat (n : nat) : jsval := JNum (inject_Z (Z.of_nat n)).

(** [v.name] for a base [v] that is neither [null] nor [undefined]; the
    only inherited data property the handlers read is [length]. *)
Definition prop (v : jsval) (name : string) : jsval :=
  match v with
  | JObj ps => assoc name ps
  | JArr l => if String.eqb name "length" then num_of_nat (List.length l) else JUndef
  | JStr s => if String.eqb name "length" then num_of_nat (String.length s) else JUndef
  | _ => JUndef
  end.

(** [v.name]: a TypeError on [null] and [undefined]. *)
Definition get (v : jsval) (name : string) : completion jsval :=
  match v with
  | JUndef | JNull => Throw "TypeError"
  | _ => Normal (prop v name)
  end.

(** [v?.name]. *)
Definition get_opt (v : jsval) (name : string) : jsval :=
  match v with
  | JUndef | JNull => JUndef
  | _ => prop v name
  end.

(** [a || b]. *)
Definition or_else (a b : jsval) : jsval := if truthy a then a else b.

(** [v === "lit"]. *)
Definition is_str (v : jsval) (lit : string) : bool :=
  match v with
  | JStr s => String.eqb s lit
  | _ => false
  end.

(** [v === 0]. *)
Definition is_zero (v : jsval) : bool :=
  match v with
  | JNum q => Qeq_bool q 0
  | _ => false
  end.

Definition decimal (n : nat) : string := NilEmpty.string_of_uint (Nat.to_uint n).

(** [v[i]] for a base [v] that is neither [null] nor [undefined]. *)
Definition index (v : jsval) (i : nat) : jsval :=
  match v with
  | JArr l => nth i l JUndef
  | JStr s =>
      match String.get i s with
      | Some c => JStr (String c EmptyString)
      | None => JUndef
      end
  | JObj ps => assoc (decimal i) ps
  | _ => JUndef
  end.

Section Coercion.

(** ToNumber on strings, arrays and objects is the host's (StringToNumber,
    ToPrimitive); it is a parameter of the development, so that every
    result holds whatever it answers. [None] is [NaN]. *)
Variable coerce : jsval -> option Q.

Definition ToNumber (v : jsval) : option Q :=
  match v with
  | JUndef => None
  | JNull => Some 0%Q
  | JBool b => Some (if b then 1%Q else 0%Q)
  | JNum q => Some q
  | _ => coerce v
  end.

(** [v > lit] for a numeric literal: false when [v] coerces to [NaN]. *)
Definition gt (v : jsval) (lit : Q) : bool :=
  match ToNumber v with
  | Some q => Qgt_bool q lit
  | None => false
  end.

(** [v * k] for a number [k]. *)
Definition times (v : jsval) (k : Q) : option Q :=
  match ToNumber v with
  | Some q => Some (q * k)%Q
  | None => None
  end.

End Coercion.



End JS.

(* ================================================================== *)
(** ** The page: React state, refs, and the browser objects behind them *)
(* ================================================================== *)

Module Page.
Import JS.

Inductive ConnectionStatus : Type :=
| disconnected
| connecting
| connected
| error.

(** [Stats]: the fields hold whatever the payload held (TypeScript's
    [number] and [string] annotations are not checked at run time). *)
Record Stats : Type := {
  frameCount : jsval;
  balance : jsval;
  energy : jsval;
  emotion : jsval;
  emotionConfidence : jsval;
  posture : jsval;
  postureAngle : jsval
}.

Record FeedbackItem : Type := {
  time : string;
  text : jsval;
  reason : jsval
}.

(** One keypoint of a line of the coordinate log. The code prints it as
    [name: (x, y) [c%]]: [point_name] is the name, [point_x] and [point_y]
    are the numbers of which the line holds [toFixed(1)], and
    [point_confidence] is the confidence as a number, of which the line
    holds [(confidence * 100).toFixed(0)]. The record keeps the numbers
    and not their digits: the product by 100 is a floating-point product,
    whose rounding the embedding does not follow. *)
Record LoggedPoint : Type := {
  point_name : string;
  point_x : Q;
  point_y : Q;
  point_confidence : option Q
}.

(** One line of the hardened page's coordinate log. The code stores the
    text [[time] Frame frame | point | point | ...]; the record keeps the
    time, the value of which the line holds the text, and the points. *)
Record CoordinateLog : Type := {
  log_time : string;
  log_frame : jsval;
  log_points : list LoggedPoint
}.

(** What a handler closes over: [connectWebSocket] is a [useCallback] whose
    body reads [isStreaming] and [stats.frameCount] of the render that
    created it, and the socket handlers are created inside that body. *)
Record Closure : Type := {
  cl_isStreaming : bool;
  cl_frameCount : jsval
}.

Inductive ReadyState : Type := CONNECTING | OPEN | CLOSING | CLOSED.

Inductive OutMsg : Type :=
| FrameMsg (frame : string) (timestamp : Q)
| EndMsg.

Record Socket : Type := {
  readyState : ReadyState;
  sent : list OutMsg;
  handlers : Closure
}.

Inductive TimerAction : Type :=
| CaptureAndSendFrame
| Reconnect (c : Closure).

Record Timer : Type := {
  delay : Z;
  repeating : bool;
  action : TimerAction
}.

Record Utterance : Type := {
  u_text : jsval;
  u_rate : Q;
  u_pitch : Q;
  u_volume : Q
}.

(** Calls received by the overlay canvas's 2D context. A coordinate is
    [None] when the arithmetic that produced it gave [NaN]. [Arc x y r] is
    the full circle [arc(x, y, r, 0, 2 * Math.PI)]. *)
Inductive cmd : Type :=
| ClearRect (x y w h : Z)
| SetStrokeStyle (c : string)
| SetFillStyle (c : string)
| SetLineWidth (w : Z)
| SetShadowBlur (b : Z)
| SetShadowColor (c : string)
| BeginPath
| MoveTo (x y : option Q)
| LineTo (x y : option Q)
| Stroke
| Arc (x y : option Q) (r : Z)
| Fill.

(** A canvas: its size, and the calls its context received since the
    canvas was last reset. *)
Record Canvas : Type := {
  width : Z;
  height : Z;
  calls : list cmd
}.

Inductive LogEntry : Type :=
| ConsoleLog (msg : string)
| ConsoleError (msg : string).

(** React state of the component. [error_banner] is the state variable
    [error] (the name is taken by the connection status of that name).
    [geminiResponse] and [coordinateLogs] exist in the hardened variant
    only; the plain variant never touches them. *)
Record UI : Type := {
  isStreaming : bool;
  connectionStatus : ConnectionStatus;
  stats : Stats;
  recentFeedback : list FeedbackItem;
  lastAnalysis : jsval;
  error_banner : jsval;
  geminiResponse : jsval;
  coordinateLogs : list CoordinateLog
}.

(** The [useRef] cells. A socket, a timer and a track are named by their
    handle; the objects live in the browser. Timer handles are positive
    (HTML: the handle returned by [setTimeout] is greater than zero), so
    the truthiness tests on them are tests for [Some]. *)
Record Refs : Type := {
  wsRef : option positive;
  streamRef : option (list positive);
  frameIntervalRef : option positive;
  reconnectTimeoutRef : option positive
}.

(** The browser: sockets, timers and media tracks by handle, the speech
    queue ([None] when [window] has no [speechSynthesis]), the console, and
    the DOM elements behind [overlayCanvasRef], [canvasRef] and [videoRef]
    ([None] when the ref is [null]). A track maps to [true] while live. *)
Record Browser : Type := {
  sockets : gmap positive Socket;
  timers : gmap positive Timer;
  tracks : gmap positive bool;
  next_handle : positive;
  speech : option (list Utterance);
  console : list LogEntry;
  overlay : option Canvas;
  capture : option Canvas;
  video : option (option (list positive))
}.

Record Page : Type := {
  ui : UI;
  refs : Refs;
  browser : Browser
}.

Definition initial_stats : Stats :=
  {| frameCount := JNum 0; balance := JNum 0; energy := JStr "Unknown";
     emotion := JStr "Unknown"; emotionConfidence := JNum 0;
     posture := JStr "Unknown"; postureAngle := JNum 0 |}.

Definition initial_ui : UI :=
  {| isStreaming := false; connectionStatus := disconnected;
     stats := initial_stats; recentFeedback := []; lastAnalysis := JNull;
     error_banner := JNull; geminiResponse := JStr EmptyString;
     coordinateLogs := [] |}.

Definition initial_refs : Refs :=
  {| wsRef := None; streamRef := None; frameIntervalRef := None;
     reconnectTimeoutRef := None |}.

(** A freshly mounted page in a browser that offers speech synthesis. *)
Definition initial_browser : Browser :=
  {| sockets := ∅; timers := ∅; tracks := ∅; next_handle := 1%positive;
     speech := Some []; console := [];
     overlay := Some {| width := 300; height := 150; calls := [] |};
     capture := Some {| width := 300; height := 150; calls := [] |};
     video := Some None |}.

Definition initial_page : Page :=
  {| ui := initial_ui; refs := initial_refs; browser := initial_browser |}.

(** *** Field updates *)

Definition with_ui (f : UI -> UI) (p : Page) : Page :=
  {| ui := f (ui p); refs := refs p; browser := browser p |}.
Definition with_refs (f : Refs -> Refs) (p : Page) : Page :=
  {| ui := ui p; refs := f (refs p); browser := browser p |}.
Definition with_browser (f : Browser -> Browser) (p : Page) : Page :=
  {| ui := ui p; refs := refs p; browser := f (browser p) |}.

Definition setIsStreaming (b : bool) : Page -> Page :=
  with_ui (fun u =>
    {| isStreaming := b; connectionStatus := connectionStatus u;
       stats := stats u; recentFeedback := recentFeedback u;
       lastAnalysis := lastAnalysis u; error_banner := error_banner u;
       geminiResponse := geminiResponse u; coordinateLogs := coordinateLogs u |}).
Definition setConnectionStatus (c : ConnectionStatus) : Page -> Page :=
  with_ui (fun u =>
    {| isStreaming := isStreaming u; connectionStatus := c;
       stats := stats u; recentFeedback := recentFeedback u;
       lastAnalysis := lastAnalysis u; error_banner := error_banner u;
       geminiResponse := geminiResponse u; coordinateLogs := coordinateLogs u |}).
Definition setStats (s : Stats) : Page -> Page :=
  with_ui (fun u =>
    {| isStreaming := isStreaming u; connectionStatus := connectionStatus u;
       stats := s; recentFeedback := recentFeedback u;
       lastAnalysis := lastAnalysis u; error_banner := error_banner u;
       geminiResponse := geminiResponse u; coordinateLogs := coordinateLogs u |}).
(** [setRecentFeedback(prev => f prev)]: a functional update. *)
Definition setRecentFeedback (f : list FeedbackItem -> list FeedbackItem) : Page -> Page :=
  with_ui (fun u =>
    {| isStreaming := isStreaming u; connectionStatus := connectionStatus u;
       stats := stats u; recentFeedback := f (recentFeedback u);
       lastAnalysis := lastAnalysis u; error_banner := error_banner u;
       geminiResponse := geminiResponse u; coordinateLogs := coordinateLogs u |}).
Definition setLastAnalysis (v : jsval) : Page -> Page :=
  with_ui (fun u =>
    {| isStreaming := isStreaming u; connectionStatus := connectionStatus u;
       stats := stats u; recentFeedback := recentFeedback u;
       lastAnalysis := v; error_banner := error_banner u;
       geminiResponse := geminiResponse u; coordinateLogs := coordinateLogs u |}).
Definition setError (v : jsval) : Page -> Page :=
  with_ui (fun u =>
    {| isStreaming := isStreaming u; connectionStatus := connectionStatus u;
       stats := stats u; recentFeedback := recentFeedback u;
       lastAnalysis := lastAnalysis u; error_banner := v;
       geminiResponse := geminiResponse u; coordinateLogs := coordinateLogs u |}).
Definition setGeminiResponse (v : jsval) : Page -> Page :=
  with_ui (fun u =>
    {| isStreaming := isStreaming u; connectionStatus := connectionStatus u;
       stats := stats u; recentFeedback := recentFeedback u;
       lastAnalysis := lastAnalysis u; error_banner := error_banner u;
       geminiResponse := v; coordinateLogs := coordinateLogs u |}).
(** [setCoordinateLogs(prev => f prev)]. *)
Definition setCoordinateLogs (f : list CoordinateLog -> list CoordinateLog) : Page -> Page :=
  with_ui (fun u =>
    {| isStreaming := isStreaming u; connectionStatus := connectionStatus u;
       stats := stats u; recentFeedback := recentFeedback u;
       lastAnalysis := lastAnalysis u; error_banner := error_banner u;
       geminiResponse := geminiResponse u; coordinateLogs := f (coordinateLogs u) |}).

Definition set_wsRef (v : option positive) : Page -> Page :=
  with_refs (fun r =>
    {| wsRef := v; streamRef := streamRef r;
       frameIntervalRef := frameIntervalRef r;
       reconnectTimeoutRef := reconnectTimeoutRef r |}).
Definition set_streamRef (v : option (list positive)) : Page -> Page :=
  with_refs (fun r =>
    {| wsRef := wsRef r; streamRef := v;
       frameIntervalRef := frameIntervalRef r;
       reconnectTimeoutRef := reconnectTimeoutRef r |}).
Definition set_frameIntervalRef (v : option positive) : Page -> Page :=
  with_refs (fun r =>
    {| wsRef := wsRef r; streamRef := streamRef r;
       frameIntervalRef := v;
       reconnectTimeoutRef := reconnectTimeoutRef r |}).
Definition set_reconnectTimeoutRef (v : option positive) : Page -> Page :=
  with_refs (fun r =>
    {| wsRef := wsRef r; streamRef := streamRef r;
       frameIntervalRef := frameIntervalRef r;
       reconnectTimeoutRef := v |}).

Definition set_sockets (f : gmap positive Socket -> gmap positive Socket) : Page -> Page :=
  with_browser (fun b =>
    {| sockets := f (sockets b); timers := timers b; tracks := tracks b;
       next_handle := next_handle b; speech := speech b; console := console b;
       overlay := overlay b; capture := capture b; video := video b |}).
Definition set_timers (f : gmap positive Timer -> gmap positive Timer) : Page -> Page :=
  with_browser (fun b =>
    {| sockets := sockets b; timers := f (timers b); tracks := tracks b;
       next_handle := next_handle b; speech := speech b; console := console b;
       overlay := overlay b; capture := capture b; video := video b |}).
Definition set_tracks (f : gmap positive bool -> gmap positive bool) : Page -> Page :=
  with_browser (fun b =>
    {| sockets := sockets b; timers := timers b; tracks := f (tracks b);
       next_handle := next_handle b; speech := speech b; console := console b;
       overlay := overlay b; capture := capture b; video := video b |}).
Definition set_next_handle (n : positive) : Page -> Page :=
  with_browser (fun b =>
    {| sockets := sockets b; timers := timers b; tracks := tracks b;
       next_handle := n; speech := speech b; console := console b;
       overlay := overlay b; capture := capture b; video := video b |}).
Definition set_speech (f : list Utterance -> list Utterance) : Page -> Page :=
  with_browser (fun b =>
    {| sockets := sockets b; timers := timers b; tracks := tracks b;
       next_handle := next_handle b; speech := option_map f (speech b);
       console := console b;
       overlay := overlay b; capture := capture b; video := video b |}).
Definition console_push (e : LogEntry) : Page -> Page :=
  with_browser (fun b =>
    {| sockets := sockets b; timers := timers b; tracks := tracks b;
       next_handle := next_handle b; speech := speech b;
       console := console b ++ [e];
       overlay := overlay b; capture := capture b; video := video b |}).
Definition set_overlay (f : Canvas -> Canvas) : Page -> Page :=
  with_browser (fun b =>
    {| sockets := sockets b; timers := timers b; tracks := tracks b;
       next_handle := next_handle b; speech := speech b; console := console b;
       overlay := option_map f (overlay b); capture := capture b;
       video := video b |}).
Definition set_capture (f : Canvas -> Canvas) : Page -> Page :=
  with_browser (fun b =>
    {| sockets := sockets b; timers := timers b; tracks := tracks b;
       next_handle := next_handle b; speech := speech b; console := console b;
       overlay := overlay b; capture := option_map f (capture b);
       video := video b |}).
(** [videoRef.current.srcObject = v], when the element is mounted. *)
Definition set_srcObject (v : option (list positive)) : Page -> Page :=
  with_browser (fun b =>
    {| sockets := sockets b; timers := timers b; tracks := tracks b;
       next_handle := next_handle b; speech := speech b; console := console b;
       overlay := overlay b; capture := capture b;
       video := option_map (fun _ => v) (video b) |}).

Definition console_log (msg : string) : Page -> Page := console_push (ConsoleLog msg).
Definition console_error (msg : string) : Page -> Page := console_push (ConsoleError msg).

(** A call on the overlay canvas's context. *)
Definition draw (c : cmd) : Page -> Page :=
  set_overlay (fun cv =>
    {| width := width cv; height := height cv; calls := calls cv ++ [c] |}).

(** *** The handler monad: state that survives an exception *)

Definition M (A : Type) : Type := Page -> completion A * Page.

Definition ret {A} (a : A) : M A := fun p => (Normal a, p).
Definition throw {A} (e : string) : M A := fun p => (Throw e, p).
Definition bind {A B} (m : M A) (k : A -> M B) : M B :=
  fun p =>
    match m p with
    | (Normal a, p') => k a p'
    | (Throw e, p') => (Throw e, p')
    end.
Definition effect (f : Page -> Page) : M unit := fun p => (Normal tt, f p).
Definition read {A} (f : Page -> A) : M A := fun p => (Normal (f p), p).
Definition lift {A} (c : completion A) : M A := fun p => (c, p).
Definition when (b : bool) (m : M unit) : M unit := if b then m else ret tt.

(** [try { body } catch (err) { handler err }]. *)
Definition try_catch (body : M unit) (handler : string -> M unit) : M unit :=
  fun p =>
    match body p with
    | (Normal u, p') => (Normal u, p')
    | (Throw e, p') => handler e p'
    end.

Fixpoint for_each {A} (l : list A) (f : A -> M unit) : M unit :=
  match l with
  | [] => ret tt
  | x :: rest => bind (f x) (fun _ => for_each rest f)
  end.

End Page.

(** Sequencing in the handler monad. *)
Declare Scope js_scope.
Delimit Scope js_scope with js.
Notation "'let*' x ':=' c 'in' k" := (Page.bind c (fun x => k))
  (at level 10, x name, c at level 100, k at level 200) : js_scope.
Notation "c ';;' k" := (Page.bind c (fun _ => k))
  (at level 100, k at level 200, right associativity) : js_scope.

(* ================================================================== *)
(** ** The skeleton renderer ([drawSkeleton], the same in both variants) *)
(* ================================================================== *)

Module Skeleton.
Import JS Page.
Local Open Scope js_scope.

(** [POSE_PAIRS] of the configuration module. *)
Definition POSE_PAIRS : list (nat * nat) :=
  [ (0, 1); (1, 2); (2, 3); (3, 4);
    (1, 5); (5, 6); (6, 7);
    (1, 8); (8, 9); (9, 10);
    (1, 11); (11, 12); (12, 13);
    (0, 14); (0, 15); (14, 16); (15, 17) ]%nat.

(** The fill colour of a keypoint. *)
Definition HIGH : string := "#ff0000".
Definition MEDIUM : string := "#ffff00".
Definition LOW : string := "#ff8800".

Section Host.
Variable coerce : jsval -> option Q.

(** The body of [POSE_PAIRS.forEach(([i, j]) => ...)]. *)
Definition draw_edge (keypoints : jsval) (scaleX scaleY : Q) (e : nat * nat) : M unit :=
  let ptA := index keypoints (fst e) in
  let ptB := index keypoints (snd e) in
  when (truthy ptA && truthy ptB
        && gt coerce (prop ptA "confidence") 0.2
        && gt coerce (prop ptB "confidence") 0.2)
    (effect (draw BeginPath) ;;
     effect (draw (MoveTo (times coerce (prop ptA "x") scaleX)
                          (times coerce (prop ptA "y") scaleY))) ;;
     effect (draw (LineTo (times coerce (prop ptB "x") scaleX)
                          (times coerce (prop ptB "y") scaleY))) ;;
     effect (draw Stroke)).

(** The colour chosen for a keypoint of confidence [c]. *)
Definition band (c : jsval) : string :=
  if gt coerce c 0.7 then HIGH
  else if gt coerce c 0.5 then MEDIUM
  else LOW.

(** The body of [keypoints.forEach((point) => ...)]. *)
Definition draw_point (scaleX scaleY : Q) (point : jsval) : M unit :=
  when (truthy point && gt coerce (prop point "confidence") 0.2)
    (let confidence := prop point "confidence" in
     effect (draw (SetFillStyle (band confidence))) ;;
     effect (draw (SetShadowColor (band confidence))) ;;
     effect (draw BeginPath) ;;
     effect (draw (Arc (times coerce (prop point "x") scaleX)
                       (times coerce (prop point "y") scaleY) 6)) ;;
     effect (draw Fill)).

(** [keypoints.forEach(f)]: only an array has the method. *)
Definition forEach (keypoints : jsval) (f : jsval -> M unit) : M unit :=
  match keypoints with
  | JArr l => for_each l f
  | _ => throw "TypeError"
  end.

(** [drawSkeleton(ctx, keypoints)], with [ctx] the 2D context of the
    overlay canvas (what its one call site passes). *)
Definition drawSkeleton (keypoints : jsval) : M unit :=
  if negb (truthy keypoints) || is_zero (prop keypoints "length") then ret tt
  else
    let* canvas := read (fun p => overlay (browser p)) in
    match canvas with
    | None => ret tt
    | Some cv =>
        effect (draw (ClearRect 0 0 (width cv) (height cv))) ;;
        let* video := read (fun p => video (browser p)) in
        match video with
        | None => ret tt
        | Some _ =>
            let scaleX := (inject_Z (width cv) / 640)%Q in
            let scaleY := (inject_Z (height cv) / 480)%Q in
            effect (draw (SetStrokeStyle "#00ff00")) ;;
            effect (draw (SetLineWidth 3)) ;;
            effect (draw (SetShadowBlur 10)) ;;
            effect (draw (SetShadowColor "#00ff00")) ;;
            for_each POSE_PAIRS (draw_edge keypoints scaleX scaleY) ;;
            effect (draw (SetShadowBlur 15)) ;;
            forEach keypoints (draw_point scaleX scaleY) ;;
            effect (draw (SetShadowBlur 0))
        end
    end.

End Host.

(** *** Reading a canvas call log back *)

(** The line segments stroked by a call log: every [Stroke] strokes the
    segments of the current path, which [BeginPath] empties. *)
Fixpoint strokes_from (cs : list cmd) (pen : option (option Q * option Q))
    (path : list ((option Q * option Q) * (option Q * option Q)))
    : list ((option Q * option Q) * (option Q * option Q)) :=
  match cs with
  | [] => []
  | BeginPath :: rest => strokes_from rest None []
  | MoveTo x y :: rest => strokes_from rest (Some (x, y)) path
  | LineTo x y :: rest =>
      match pen with
      | Some from => strokes_from rest (Some (x, y)) (path ++ [(from, (x, y))])
      | None => strokes_from rest (Some (x, y)) path
      end
  | Stroke :: rest => path ++ strokes_from rest pen path
  | _ :: rest => strokes_from rest pen path
  end.

Definition stroked_segments (cs : list cmd) : list ((option Q * option Q) * (option Q * option Q)) :=
  strokes_from cs None [].

(** The discs filled by a call log, each with the fill style in force. *)
Fixpoint fills_from (cs : list cmd) (style : string)
    (path : list (option Q * option Q * Z))
    : list (string * (option Q * option Q * Z)) :=
  match cs with
  | [] => []
  | SetFillStyle c :: rest => fills_from rest c path
  | BeginPath :: rest => fills_from rest style []
  | Arc x y r :: rest => fills_from rest style (path ++ [(x, y, r)])
  | Fill :: rest => map (fun d => (style, d)) path ++ fills_from rest style path
  | _ :: rest => fills_from rest style path
  end.

(** The context's initial fill style is black. *)
Definition filled_discs (cs : list cmd) : list (string * (option Q * option Q * Z)) :=
  fills_from cs "#000000" [].

(** A call that puts ink on the canvas or builds a path. *)
Definition is_draw_call (c : cmd) : bool :=
  match c with
  | BeginPath | MoveTo _ _ | LineTo _ _ | Stroke | Arc _ _ _ | Fill => true
  | _ => false
  end.

(** *** Keypoint lists as the type [(KeyPoint | null)[]] describes them *)

(** [KeyPoint] of the type definitions. *)
Record KeyPoint : Type := {
  kp_x : Q;
  kp_y : Q;
  kp_confidence : Q
}.

(** The value [JSON.parse] builds for a keypoint, for [null], and for a
    list of them. *)
Definition keypoint_js (k : KeyPoint) : jsval :=
  JObj [("x", JNum (kp_x k)); ("y", JNum (kp_y k)); ("confidence", JNum (kp_confidence k))].

Definition slot_js (o : option KeyPoint) : jsval :=
  match o with
  | Some k => keypoint_js k
  | None => JNull
  end.

Definition keypoints_js (kps : list (option KeyPoint)) : jsval := JArr (map slot_js kps).

(** The keypoint at an index, if the list has one there. *)
Definition slot (kps : list (option KeyPoint)) (i : nat) : option KeyPoint := nth i kps None.

(** A keypoint that exists with confidence strictly above 0.2. *)
Definition visible (o : option KeyPoint) : bool :=
  match o with
  | Some k => if Qlt_le_dec 0.2 (kp_confidence k) then true else false
  | None => false
  end.

Definition edge_visible (kps : list (option KeyPoint)) (e : nat * nat) : bool :=
  visible (slot kps (fst e)) && visible (slot kps (snd e)).

(** A keypoint in canvas coordinates, and the segment of an edge. *)
Definition scaled (sx sy : Q) (o : option KeyPoint) : option Q * option Q :=
  match o with
  | Some k => (Some (kp_x k * sx)%Q, Some (kp_y k * sy)%Q)
  | None => (None, None)
  end.

Definition segment (kps : list (option KeyPoint)) (sx sy : Q) (e : nat * nat)
    : (option Q * option Q) * (option Q * option Q) :=
  (scaled sx sy (slot kps (fst e)), scaled sx sy (slot kps (snd e))).

(** The three confidence bands. *)
Definition colour (c : Q) : string :=
  if Qlt_le_dec 0.7 c then "#ff0000"
  else if Qlt_le_dec 0.5 c then "#ffff00"
  else "#ff8800".

Definition disc (sx sy : Q) (k : KeyPoint) : string * (option Q * option Q * Z) :=
  (colour (kp_confidence k), (Some (kp_x k * sx)%Q, Some (kp_y k * sy)%Q, 6%Z)).

Definition visible_points (kps : list (option KeyPoint)) : list KeyPoint :=
  flat_map (fun o => match o with
                     | Some k => if visible (Some k) then [k] else []
                     | None => []
                     end) kps.

(** The calls the overlay canvas has received. *)
Definition overlay_calls (p : Page) : list cmd :=
  match overlay (browser p) with
  | Some cv => calls cv
  | None => []
  end.

(** The calls that reached a canvas since it was last cleared as a whole,
    and the ink among them: what the canvas shows. *)
Fixpoint since_clear (cs shown : list cmd) : list cmd :=
  match cs with
  | [] => shown
  | ClearRect _ _ _ _ :: rest => since_clear rest []
  | c :: rest => since_clear rest (shown ++ [c])%list
  end.

Definition on_canvas (cs : list cmd) : list cmd :=
  List.filter is_draw_call (since_clear cs []).

End Skeleton.

(* ================================================================== *)
(** ** The meeting page, plain variant *)
(* ================================================================== *)

Module Plain.
Import JS Page.
Local Open Scope js_scope.

(** The render that a click or a timer runs in fixes what its callbacks
    read: [isStreaming] and [stats.frameCount] of the state at that time
    (the dependency list of [connectWebSocket] names both). *)
Definition closure_of_render (p : Page) : Closure :=
  {| cl_isStreaming := isStreaming (ui p);
     cl_frameCount := frameCount (stats (ui p)) |}.

(** [wsRef.current?.readyState === WebSocket.OPEN]. *)
Definition socket_is_open (p : Page) : bool :=
  match wsRef (refs p) with
  | Some h =>
      match sockets (browser p) !! h with
      | Some s => match readyState s with OPEN => true | _ => false end
      | None => false
      end
  | None => false
  end.

(** [new WebSocket(url)]: a fresh socket in state CONNECTING whose four
    handlers close over [c]. *)
Definition new_WebSocket (c : Closure) : M positive :=
  fun p =>
    let h := next_handle (browser p) in
    (Normal h,
     set_next_handle (Pos.succ h)
       (set_sockets (insert h {| readyState := CONNECTING; sent := []; handlers := c |}) p)).

(** [window.setTimeout(action, ms)] and [window.setInterval(action, ms)]. *)
Definition setTimeout (a : TimerAction) (ms : Z) : M positive :=
  fun p =>
    let h := next_handle (browser p) in
    (Normal h,
     set_next_handle (Pos.succ h)
       (set_timers (insert h {| delay := ms; repeating := false; action := a |}) p)).

Definition setInterval (a : TimerAction) (ms : Z) : M positive :=
  fun p =>
    let h := next_handle (browser p) in
    (Normal h,
     set_next_handle (Pos.succ h)
       (set_timers (insert h {| delay := ms; repeating := true; action := a |}) p)).

(** [clearTimeout(h)] and [clearInterval(h)]. *)
Definition clearTimer (h : positive) : Page -> Page := set_timers (delete h).

Definition connectWebSocket (c : Closure) : M unit :=
  let* already := read socket_is_open in
  if already then effect (console_log "WebSocket already connected")
  else
    effect (setConnectionStatus connecting) ;;
    effect (console_log "Connecting to:") ;;
    let* ws := new_WebSocket c in
    effect (set_wsRef (Some ws)).

Definition ws_onopen : M unit :=
  effect (setConnectionStatus connected) ;;
  effect (setError JNull) ;;
  effect (console_log "WebSocket connected to OpenPose backend").

(** [speechSynthesis.speak(u)], guarded by ['speechSynthesis' in window]. *)
Definition enqueue_utterance (u : Utterance) : Page -> Page :=
  set_speech (fun q => (q ++ [u])%list).

(** [prev => [item, ...prev].slice(0, 5)]. *)
Definition push_feedback (item : FeedbackItem) (prev : list FeedbackItem) : list FeedbackItem :=
  firstn 5 (item :: prev).

Section Host.
Variable coerce : jsval -> option Q.

(** The object literal handed to [setStats]. *)
Definition stats_of_analysis (c : Closure) (data : jsval) : Stats :=
  {| frameCount := or_else (prop data "frame_num") (cl_frameCount c);
     balance := or_else (get_opt (prop data "balance") "balance_score") (JNum 0);
     energy := or_else (get_opt (prop data "movement") "energy") (JStr "Unknown");
     emotion := or_else (get_opt (prop data "emotion") "emotion") (JStr "Unknown");
     emotionConfidence := or_else (get_opt (prop data "emotion") "confidence") (JNum 0);
     posture := or_else (get_opt (prop data "posture") "status") (JStr "Unknown");
     postureAngle := or_else (get_opt (prop data "posture") "angle") (JNum 0) |}.

(** [if (overlayCanvas && data.keypoints) { ... drawSkeleton(ctx, data.keypoints) }]. *)
Definition draw_overlay (data : jsval) : M unit :=
  let* overlayCanvas := read (fun p => overlay (browser p)) in
  when (match overlayCanvas with Some _ => true | None => false end
        && truthy (prop data "keypoints"))
    (Skeleton.drawSkeleton coerce (prop data "keypoints")).

(** [if (response.coaching?.triggered && response.coaching.feedback) { ... }]. *)
Definition handle_coaching (response : jsval) (now : string) : M unit :=
  let coaching := prop response "coaching" in
  when (truthy (get_opt coaching "triggered") && truthy (prop coaching "feedback"))
    (effect (setRecentFeedback (push_feedback
       {| time := now; text := prop coaching "feedback";
          reason := prop coaching "reason" |})) ;;
     effect (enqueue_utterance
       {| u_text := prop coaching "feedback"; u_rate := 1.0;
          u_pitch := 1.0; u_volume := 0.8 |}) ;;
     effect (console_log "Coach:")).

(** [if (response.type === 'analysis' && response.data) { ... }]. *)
Definition handle_analysis (c : Closure) (response type : jsval) (now : string) : M unit :=
  let data := prop response "data" in
  when (is_str type "analysis" && truthy data)
    (effect (setLastAnalysis data) ;;
     effect (setStats (stats_of_analysis c data)) ;;
     draw_overlay data ;;
     handle_coaching response now).

(** [if (response.type === 'error') { ... }]. *)
Definition handle_error (response type : jsval) : M unit :=
  when (is_str type "error")
    (effect (console_error "Backend error:") ;;
     effect (setError (prop response "message"))).

(** The statements inside [try] of [ws.onmessage]. [parsed] is what
    [JSON.parse(event.data)] gave (a value, or the SyntaxError it threw),
    [now] is [new Date().toLocaleTimeString()]. *)
Definition onmessage_body (c : Closure) (parsed : completion jsval) (now : string) : M unit :=
  let* response := lift parsed in
  let* type := lift (get response "type") in
  if is_str type "welcome" then effect (console_log "Welcome:")
  else if is_str type "pong" then ret tt
  else
    handle_analysis c response type now ;;
    handle_error response type.

Definition ws_onmessage (c : Closure) (parsed : completion jsval) (now : string) : M unit :=
  try_catch (onmessage_body c parsed now)
    (fun _ => effect (console_error "Failed to parse WebSocket message:")).

End Host.

Definition ws_onerror : M unit :=
  effect (console_error "WebSocket error:") ;;
  effect (setConnectionStatus error) ;;
  effect (setError (JStr "Connection error - check if backend is running on port 8000")).

Definition ws_onclose (c : Closure) (wasClean : bool) : M unit :=
  effect (console_log "WebSocket closed:") ;;
  effect (setConnectionStatus disconnected) ;;
  when (cl_isStreaming c && negb wasClean)
    (effect (console_log "Attempting to reconnect in 3s...") ;;
     let* h := setTimeout (Reconnect c) 3000 in
     effect (set_reconnectTimeoutRef (Some h))).

(** The callback handed to [setTimeout] in [ws.onclose]. *)
Definition reconnect_callback (c : Closure) : M unit :=
  when (cl_isStreaming c) (connectWebSocket c).

(** [track.stop()] on every track of a stream. *)
Definition stop_tracks (stream : list positive) : Page -> Page :=
  set_tracks (fun t => fold_right (fun h acc => <[h := false]> acc) t stream).

(** [ws.send(JSON.stringify(m))] on an open socket. *)
Definition ws_send (h : positive) (m : OutMsg) : Page -> Page :=
  set_sockets (alter (fun s =>
    {| readyState := readyState s; sent := (sent s ++ [m])%list; handlers := handlers s |}) h).

(** [ws.close()]: starts the closing handshake of a socket that is
    connecting or open, and does nothing otherwise. *)
Definition ws_close (h : positive) : Page -> Page :=
  set_sockets (alter (fun s =>
    {| readyState :=
         match readyState s with
         | CONNECTING | OPEN => CLOSING
         | st => st
         end;
       sent := sent s; handlers := handlers s |}) h).

(** [speechSynthesis.cancel()], guarded by ['speechSynthesis' in window]. *)
Definition cancel_speech : Page -> Page := set_speech (fun _ => []).

(** [canvas.width = 640; canvas.height = 480] on both canvases. Assigning
    the width or the height of a canvas resets it, even to the size it
    has: the bitmap is cleared and the context is back in its initial
    state, so the calls it received before count no more. *)
Definition resize (cv : Canvas) : Canvas :=
  {| width := 640; height := 480; calls := [] |}.

(** [startStreaming], called from the render [c] was taken in. [media] is
    the outcome of [getUserMedia] (the handles of the new stream's tracks)
    and [played] tells whether [video.play()] resolved. *)
Definition startStreaming (c : Closure) (media : completion (list positive)) (played : bool) : M unit :=
  try_catch
    (effect (setError JNull) ;;
     let* stream := lift media in
     effect (set_tracks (fun t => fold_right (fun h acc => <[h := true]> acc) t stream)) ;;
     effect (set_streamRef (Some stream)) ;;
     let* vid := read (fun p => video (browser p)) in
     match vid with
     | Some _ =>
         effect (set_srcObject (Some stream)) ;;
         (if played then ret tt else throw "NotAllowedError")
     | None => ret tt
     end ;;
     let* both := read (fun p =>
       match capture (browser p), overlay (browser p) with
       | Some _, Some _ => true
       | _, _ => false
       end) in
     when both (effect (set_capture resize) ;; effect (set_overlay resize)) ;;
     connectWebSocket c ;;
     let* h := setInterval CaptureAndSendFrame 100 in
     effect (set_frameIntervalRef (Some h)) ;;
     effect (setIsStreaming true) ;;
     effect (console_log "Streaming started - sending frames to OpenPose backend"))
    (fun _ =>
       effect (console_error "Camera access error:") ;;
       effect (setError (JStr "Could not access camera. Please allow camera permissions."))).

Definition stopStreaming : M unit :=
  effect (console_log "Stopping stream...") ;;
  let* interval := read (fun p => frameIntervalRef (refs p)) in
  match interval with
  | Some h => effect (clearTimer h) ;; effect (set_frameIntervalRef None)
  | None => ret tt
  end ;;
  let* timeout := read (fun p => reconnectTimeoutRef (refs p)) in
  match timeout with
  | Some h => effect (clearTimer h) ;; effect (set_reconnectTimeoutRef None)
  | None => ret tt
  end ;;
  let* stream := read (fun p => streamRef (refs p)) in
  match stream with
  | Some s => effect (stop_tracks s) ;; effect (set_streamRef None)
  | None => ret tt
  end ;;
  let* ws := read (fun p => wsRef (refs p)) in
  match ws with
  | Some h =>
      let* is_open := read socket_is_open in
      when is_open (effect (ws_send h EndMsg)) ;;
      effect (ws_close h) ;;
      effect (set_wsRef None)
  | None => ret tt
  end ;;
  effect (set_srcObject None) ;;
  effect cancel_speech ;;
  effect (setIsStreaming false) ;;
  effect (setConnectionStatus disconnected) ;;
  effect (console_log "Stream stopped").

(** [captureAndSendFrame]: [frame] is the data URL of the canvas and
    [timestamp] is [Date.now() / 1000]. *)
Definition captureAndSendFrame (frame : string) (timestamp : Q) : M unit :=
  let* canvas := read (fun p => capture (browser p)) in
  let* vid := read (fun p => video (browser p)) in
  let* ws := read (fun p => wsRef (refs p)) in
  let* is_open := read socket_is_open in
  match canvas, vid, ws with
  | Some _, Some _, Some h =>
      when is_open (effect (ws_send h (FrameMsg frame timestamp)))
  | _, _, _ => ret tt
  end.

(** *** The events the browser delivers to the page *)

Inductive Event : Type :=
| ClickStart (media : completion (list positive)) (played : bool)
| ClickStop
| SocketOpen (h : positive)
| SocketMessage (h : positive) (parsed : completion jsval) (now : string)
| SocketError (h : positive)
| SocketClose (h : positive) (wasClean : bool)
| TimerFires (h : positive) (frame : string) (timestamp : Q).

(** The browser's own part of an event on a socket. *)
Definition set_readyState (h : positive) (st : ReadyState) : Page -> Page :=
  set_sockets (alter (fun s =>
    {| readyState := st; sent := sent s; handlers := handlers s |}) h).

(** A handler that raises leaves the state it wrote; the browser reports
    the exception and goes on. *)
Definition run_handler (m : M unit) (p : Page) : Page := snd (m p).

Section Events.
Variable coerce : jsval -> option Q.

(** One event. The Start button exists only while [isStreaming] is false,
    and [startStreaming] runs in the render the button belongs to; a socket
    handler runs with the closure it was created with. *)
Definition step (p : Page) (e : Event) : Page :=
  match e with
  | ClickStart media played =>
      if isStreaming (ui p) then p
      else run_handler (startStreaming (closure_of_render p) media played) p
  | ClickStop => run_handler stopStreaming p
  | SocketOpen h =>
      match sockets (browser p) !! h with
      | Some s => run_handler ws_onopen (set_readyState h OPEN p)
      | None => p
      end
  | SocketMessage h parsed now =>
      match sockets (browser p) !! h with
      | Some s => run_handler (ws_onmessage coerce (handlers s) parsed now) p
      | None => p
      end
  | SocketError h =>
      match sockets (browser p) !! h with
      | Some s => run_handler ws_onerror p
      | None => p
      end
  | SocketClose h wasClean =>
      match sockets (browser p) !! h with
      | Some s => run_handler (ws_onclose (handlers s) wasClean) (set_readyState h CLOSED p)
      | None => p
      end
  | TimerFires h frame timestamp =>
      match timers (browser p) !! h with
      | Some t =>
          let p' := if repeating t then p else clearTimer h p in
          match action t with
          | CaptureAndSendFrame => run_handler (captureAndSendFrame frame timestamp) p'
          | Reconnect c => run_handler (reconnect_callback c) p'
          end
      | None => p
      end
  end.

Definition run (p : Page) (es : list Event) : Page := fold_left step es p.

End Events.

(** *** What the page shows *)


(** [{stats.frameCount}], [{stats.emotion}] and [{stats.posture}]. *)
Definition render_frame (s : Stats) : jsval := frameCount s.
Definition render_emotion (s : Stats) : jsval := emotion s.
Definition render_posture (s : Stats) : jsval := posture s.

End Plain.

(* ================================================================== *)
(** ** The meeting page, hardened variant (speech through [speak],
       coordinate log, AI feedback) *)
(* ================================================================== *)

Module Hardened.
Import JS Page.
Local Open Scope js_scope.

(** [speak(text, rate = 1.0)]. *)
Definition speak (text : jsval) (rate : Q) : M unit :=
  let* synth := read (fun p => speech (browser p)) in
  match synth with
  | Some _ =>
      effect Plain.cancel_speech ;;
      effect (Plain.enqueue_utterance
        {| u_text := text; u_rate := rate; u_pitch := 1.0; u_volume := 0.9 |})
  | None => ret tt
  end.

(** The socket is created as in the plain variant; the handlers differ. *)
Definition connectWebSocket (c : Closure) : M unit := Plain.connectWebSocket c.

Definition ws_onopen : M unit :=
  effect (setConnectionStatus connected) ;;
  effect (setError JNull) ;;
  effect (console_log "WebSocket connected to OpenPose backend") ;;
  speak (JStr "Welcome to your AI coaching session. I am ready to help you!") 1.0.

(** [prev => [entry, ...prev].slice(0, 30)]. *)
Definition push_log (entry : CoordinateLog) (prev : list CoordinateLog) : list CoordinateLog :=
  firstn 30 (entry :: prev).

(** [pointNames], and [`${pointNames[idx]}`]: past the end of the table
    the text is that of [undefined]. *)
Definition pointNames : list string :=
  ["Nose"; "Neck"; "RShoulder"; "RElbow"; "RWrist"; "LShoulder"; "LElbow"; "LWrist";
   "RHip"; "RKnee"; "RAnkle"; "LHip"; "LKnee"; "LAnkle"; "REye"; "LEye"; "REar"; "LEar"].

Definition pointName (idx : nat) : string := nth idx pointNames "undefined".

Section Host.
Variable coerce : jsval -> option Q.

(** The callback of [data.keypoints.map((kp, idx) => ...)]: [toFixed] is a
    method of numbers only. *)
Definition log_point (idx : nat) (kp : jsval) : completion (option LoggedPoint) :=
  if truthy kp && gt coerce (prop kp "confidence") 0.2 then
    match prop kp "x" with
    | JNum x =>
        match prop kp "y" with
        | JNum y =>
            Normal (Some {| point_name := pointName idx; point_x := x; point_y := y;
                            point_confidence := ToNumber coerce (prop kp "confidence") |})
        | _ => Throw "TypeError"
        end
    | _ => Throw "TypeError"
    end
  else Normal None.

(** [.map(...)] followed by [.filter(Boolean)] over the items of an array. *)
Fixpoint valid_points (idx : nat) (l : list jsval) : completion (list LoggedPoint) :=
  match l with
  | [] => Normal []
  | kp :: rest =>
      match log_point idx kp with
      | Throw e => Throw e
      | Normal o =>
          match valid_points (S idx) rest with
          | Throw e => Throw e
          | Normal tl => Normal (match o with Some pt => pt :: tl | None => tl end)
          end
      end
  end.

(** [data.keypoints.map(...)]: only an array has the method. *)
Definition validKeypoints (keypoints : jsval) : completion (list LoggedPoint) :=
  match keypoints with
  | JArr l => valid_points 0 l
  | _ => Throw "TypeError"
  end.

(** [if (data.keypoints && data.keypoints.length > 0) { ... }]: the
    coordinate log entry of the frame. *)
Definition log_coordinates (data : jsval) (now : string) : M unit :=
  when (truthy (prop data "keypoints")
        && gt coerce (prop (prop data "keypoints") "length") 0)
    (let* points := lift (validKeypoints (prop data "keypoints")) in
     when (match points with [] => false | _ :: _ => true end)
       (effect (setCoordinateLogs (push_log
          {| log_time := now; log_frame := prop data "frame_num";
             log_points := points |})))).

Definition draw_overlay (data : jsval) : M unit :=
  let* overlayCanvas := read (fun p => overlay (browser p)) in
  when (match overlayCanvas with Some _ => true | None => false end
        && truthy (prop data "keypoints"))
    (Skeleton.drawSkeleton coerce (prop data "keypoints")).

(** [if (response.gemini?.triggered && response.gemini.feedback) { ... }]. *)
Definition handle_gemini (response : jsval) (now : string) : M unit :=
  let gemini := prop response "gemini" in
  when (truthy (get_opt gemini "triggered") && truthy (prop gemini "feedback"))
    (let geminiText := prop gemini "feedback" in
     effect (setGeminiResponse geminiText) ;;
     effect (console_log "Gemini AI:") ;;
     speak geminiText 1.0 ;;
     effect (setRecentFeedback (Plain.push_feedback
       {| time := now; text := geminiText; reason := JStr "ai_analysis" |}))).

(** [if (response.coaching?.triggered && response.coaching.feedback) { ... }]. *)
Definition handle_coaching (response : jsval) (now : string) : M unit :=
  let coaching := prop response "coaching" in
  when (truthy (get_opt coaching "triggered") && truthy (prop coaching "feedback"))
    (effect (setRecentFeedback (Plain.push_feedback
       {| time := now; text := prop coaching "feedback";
          reason := prop coaching "reason" |})) ;;
     speak (prop coaching "feedback") 1.0 ;;
     effect (console_log "Coach:")).

Definition handle_analysis (c : Closure) (response type : jsval) (now : string) : M unit :=
  let data := prop response "data" in
  when (is_str type "analysis" && truthy data)
    (effect (setLastAnalysis data) ;;
     effect (setStats (Plain.stats_of_analysis c data)) ;;
     log_coordinates data now ;;
     draw_overlay data ;;
     handle_gemini response now ;;
     handle_coaching response now).

Definition onmessage_body (c : Closure) (parsed : completion jsval) (now : string) : M unit :=
  let* response := lift parsed in
  let* type := lift (get response "type") in
  if is_str type "welcome" then
    effect (console_log "Welcome:") ;;
    speak (or_else (prop response "message")
                   (JStr "Connected to AI Video Coach with OpenPose")) 1.0
  else if is_str type "pong" then ret tt
  else
    handle_analysis c response type now ;;
    Plain.handle_error response type.

Definition ws_onmessage (c : Closure) (parsed : completion jsval) (now : string) : M unit :=
  try_catch (onmessage_body c parsed now)
    (fun _ => effect (console_error "Failed to parse WebSocket message:")).

End Host.

Definition ws_onerror : M unit :=
  effect (console_error "WebSocket error:") ;;
  effect (setConnectionStatus error) ;;
  effect (setError (JStr "Connection error - check if backend is running")).

(** [ws.onclose] and the reconnect callback read as in the plain variant. *)
Definition ws_onclose (c : Closure) (wasClean : bool) : M unit := Plain.ws_onclose c wasClean.
Definition reconnect_callback (c : Closure) : M unit :=
  when (cl_isStreaming c) (connectWebSocket c).

Definition startStreaming (c : Closure) (media : completion (list positive)) (played : bool) : M unit :=
  try_catch
    (effect (setError JNull) ;;
     let* stream := lift media in
     effect (set_tracks (fun t => fold_right (fun h acc => <[h := true]> acc) t stream)) ;;
     effect (set_streamRef (Some stream)) ;;
     let* vid := read (fun p => video (browser p)) in
     match vid with
     | Some _ =>
         effect (set_srcObject (Some stream)) ;;
         (if played then ret tt else throw "NotAllowedError")
     | None => ret tt
     end ;;
     let* both := read (fun p =>
       match capture (browser p), overlay (browser p) with
       | Some _, Some _ => true
       | _, _ => false
       end) in
     when both (effect (set_capture Plain.resize) ;; effect (set_overlay Plain.resize)) ;;
     connectWebSocket c ;;
     let* h := Plain.setInterval CaptureAndSendFrame 100 in
     effect (set_frameIntervalRef (Some h)) ;;
     effect (setIsStreaming true) ;;
     effect (console_log "Streaming started - sending frames to OpenPose backend") ;;
     speak (JStr "Session started. Show me your best form!") 1.1)
    (fun _ =>
       effect (console_error "Camera access error:") ;;
       effect (setError (JStr "Could not access camera. Please allow camera permissions."))).

Definition stopStreaming : M unit :=
  effect (console_log "Stopping stream...") ;;
  let* interval := read (fun p => frameIntervalRef (refs p)) in
  match interval with
  | Some h => effect (Plain.clearTimer h) ;; effect (set_frameIntervalRef None)
  | None => ret tt
  end ;;
  let* timeout := read (fun p => reconnectTimeoutRef (refs p)) in
  match timeout with
  | Some h => effect (Plain.clearTimer h) ;; effect (set_reconnectTimeoutRef None)
  | None => ret tt
  end ;;
  let* stream := read (fun p => streamRef (refs p)) in
  match stream with
  | Some s => effect (Plain.stop_tracks s) ;; effect (set_streamRef None)
  | None => ret tt
  end ;;
  let* ws := read (fun p => wsRef (refs p)) in
  match ws with
  | Some h =>
      let* is_open := read Plain.socket_is_open in
      when is_open (effect (Plain.ws_send h EndMsg)) ;;
      effect (Plain.ws_close h) ;;
      effect (set_wsRef None)
  | None => ret tt
  end ;;
  effect (set_srcObject None) ;;
  effect Plain.cancel_speech ;;
  effect (setIsStreaming false) ;;
  effect (setConnectionStatus disconnected) ;;
  effect (console_log "Stream stopped") ;;
  speak (JStr "Session ended. Great work today!") 1.0.

(** The cleanup of the unmount effect: silent, and it leaves the refs. *)
Definition unmount_cleanup : M unit :=
  let* interval := read (fun p => frameIntervalRef (refs p)) in
  match interval with
  | Some h => effect (Plain.clearTimer h)
  | None => ret tt
  end ;;
  let* timeout := read (fun p => reconnectTimeoutRef (refs p)) in
  match timeout with
  | Some h => effect (Plain.clearTimer h)
  | None => ret tt
  end ;;
  let* stream := read (fun p => streamRef (refs p)) in
  match stream with
  | Some s => effect (Plain.stop_tracks s)
  | None => ret tt
  end ;;
  let* ws := read (fun p => wsRef (refs p)) in
  match ws with
  | Some h => effect (Plain.ws_close h)
  | None => ret tt
  end ;;
  effect Plain.cancel_speech.

(** The events of the hardened page: those of the plain page, the unmount,
    and the speech engine finishing the utterance at the head of its
    queue. *)
Inductive Event : Type :=
| PageEvent (e : Plain.Event)
| Unmount
| UtteranceEnds.

Definition utterance_ends : Page -> Page := set_speech (fun q => tl q).

Section Events.
Variable coerce : jsval -> option Q.

Definition step (p : Page) (ev : Event) : Page :=
  match ev with
  | PageEvent (Plain.ClickStart media played) =>
      if isStreaming (ui p) then p
      else Plain.run_handler (startStreaming (Plain.closure_of_render p) media played) p
  | PageEvent Plain.ClickStop => Plain.run_handler stopStreaming p
  | PageEvent (Plain.SocketOpen h) =>
      match sockets (browser p) !! h with
      | Some s => Plain.run_handler ws_onopen (Plain.set_readyState h OPEN p)
      | None => p
      end
  | PageEvent (Plain.SocketMessage h parsed now) =>
      match sockets (browser p) !! h with
      | Some s => Plain.run_handler (ws_onmessage coerce (handlers s) parsed now) p
      | None => p
      end
  | PageEvent (Plain.SocketError h) =>
      match sockets (browser p) !! h with
      | Some s => Plain.run_handler ws_onerror p
      | None => p
      end
  | PageEvent (Plain.SocketClose h wasClean) =>
      match sockets (browser p) !! h with
      | Some s =>
          Plain.run_handler (ws_onclose (handlers s) wasClean)
            (Plain.set_readyState h CLOSED p)
      | None => p
      end
  | PageEvent (Plain.TimerFires h frame timestamp) =>
      match timers (browser p) !! h with
      | Some t =>
          let p' := if repeating t then p else Plain.clearTimer h p in
          match action t with
          | CaptureAndSendFrame =>
              Plain.run_handler (Plain.captureAndSendFrame frame timestamp) p'
          | Reconnect c => Plain.run_handler (reconnect_callback c) p'
          end
      | None => p
      end
  | Unmount => Plain.run_handler unmount_cleanup p
  | UtteranceEnds => utterance_ends p
  end.

Definition run (p : Page) (es : list Event) : Page := fold_left step es p.

End Events.

End Hardened.

(* ================================================================== *)
(** ** Sample inputs and runs *)
(* ================================================================== *)

Module Scenario.
Import JS Page.

(** The host coercion used to run examples: every string, array and
    object coerces to [NaN]. *)
Definition no_coercion : jsval -> option Q := fun _ => None.

(** A session as the browser delivers it: the user clicks Start, the
    camera is granted with one track, and the socket opens. *)
Definition started_session : list Plain.Event :=
  [Plain.ClickStart (Normal [7%positive]) true; Plain.SocketOpen 1].

(** An [analysis] message whose payload carries [frame_num] and nothing
    that draws. *)
Definition analysis_frame (frame_num : jsval) : jsval :=
  JObj [("type", JStr "analysis");
        ("data", JObj [("frame_num", frame_num); ("timestamp", JNum 1)])].

(** An [analysis] message whose payload has no [frame_num]. *)
Definition analysis_no_frame : jsval :=
  JObj [("type", JStr "analysis"); ("data", JObj [("timestamp", JNum 1)])].


(** Two keypoints of the neck line, both confidently detected, and an
    [analysis] message that carries them. *)
Definition two_keypoints : jsval :=
  JArr [JObj [("x", JNum 320); ("y", JNum 100); ("confidence", JNum 0.9)];
        JObj [("x", JNum 320); ("y", JNum 200); ("confidence", JNum 0.9)]].

Definition analysis_with_keypoints : jsval :=
  JObj [("type", JStr "analysis");
        ("data", JObj [("frame_num", JNum 1); ("keypoints", two_keypoints)])].

(** The parts of a payload that the analysis panel reads. *)
Definition movement_sample : jsval :=
  JObj [("energy", JStr "High"); ("movement_score", JNum 0.5); ("velocity", JNum 1.5)].

Definition symmetry_sample : jsval := JObj [("arm_symmetry", JNum 90)].

Definition activities_sample : jsval := JArr [JStr "standing"; JStr "arm_raise"].


(** An [analysis] message as [AnalysisData] describes it, with the two
    keypoints of the neck line. *)
Definition analysis_complete : jsval :=
  JObj [("type", JStr "analysis");
        ("data", JObj [("frame_num", JNum 1);
                       ("timestamp", JNum 1);
                       ("keypoints", two_keypoints);
                       ("joints", JObj []);
                       ("symmetry", symmetry_sample);
                       ("balance", JObj [("cog", JArr [JNum 320; JNum 240]);
                                         ("balance_score", JNum 80)]);
                       ("movement", movement_sample);
                       ("emotion", JObj [("emotion", JStr "happy"); ("confidence", JNum 90);
                                         ("sentiment", JStr "positive")]);
                       ("posture", JObj [("status", JStr "Good"); ("angle", JNum 4)]);
                       ("activities", activities_sample)])].

(** Eighteen keypoints, all detected with full confidence. *)
Definition confident_pose : list (option Skeleton.KeyPoint) :=
  repeat (Some {| Skeleton.kp_x := 320; Skeleton.kp_y := 240;
                  Skeleton.kp_confidence := 1 |}) 18.

(** The clock reading an event carries, if it runs a message handler. *)
Definition stamp (e : Plain.Event) : string :=
  match e with
  | Plain.SocketMessage _ _ now => now
  | _ => EmptyString
  end.

Definition stamp_h (e : Hardened.Event) : string :=
  match e with
  | Hardened.PageEvent e' => stamp e'
  | _ => EmptyString
  end.

End Scenario.

(* ================================================================== *)
(** ** The speech-to-text hook ([useSpeechToText]) *)
(* ================================================================== *)

Module SpeechToText.
Import JS.

(** The configuration; a callback is present or left out. *)
Record Config : Type := {
  language : string;
  continuous : bool;
  interimResults : bool;
  has_onTranscript : bool;
  has_onError : bool
}.

(** [useSpeechToText()] with no argument: the defaults of the
    destructuring. *)
Definition default_config : Config :=
  {| language := "en-US"; continuous := false; interimResults := true;
     has_onTranscript := false; has_onError := false |}.

(** What [window.SpeechRecognition || window.webkitSpeechRecognition]
    evaluates to, and how the engine behaves when used. *)
Inductive Engine : Type :=
| Works
| ConstructorThrows (err : string)
| StartThrows (err : string).

Record Recognition : Type := {
  lang : string;
  r_continuous : bool;
  r_interimResults : bool;
  started : bool
}.

(** Calls made on the callbacks of the configuration. *)
Inductive Callback : Type :=
| OnTranscript (transcript : string) (isFinal : bool)
| OnError (err : string).

Record Hook : Type := {
  recognitionRef : option Recognition;
  isListeningRef : bool;
  callbacks : list Callback;
  errors_logged : list string
}.

Definition initial_hook : Hook :=
  {| recognitionRef := None; isListeningRef := false; callbacks := [];
     errors_logged := [] |}.

Definition NOT_SUPPORTED : string := "Speech recognition not supported in this browser".

(** [onError?.(err)]. *)
Definition call_onError (cfg : Config) (err : string) (h : Hook) : Hook :=
  if has_onError cfg then
    {| recognitionRef := recognitionRef h; isListeningRef := isListeningRef h;
       callbacks := (callbacks h ++ [OnError err])%list;
       errors_logged := errors_logged h |}
  else h.

(** [onTranscript?.(transcript, isFinal)]. *)
Definition call_onTranscript (cfg : Config) (transcript : string) (isFinal : bool) (h : Hook) : Hook :=
  if has_onTranscript cfg then
    {| recognitionRef := recognitionRef h; isListeningRef := isListeningRef h;
       callbacks := (callbacks h ++ [OnTranscript transcript isFinal])%list;
       errors_logged := errors_logged h |}
  else h.

Definition log_error (msg : string) (h : Hook) : Hook :=
  {| recognitionRef := recognitionRef h; isListeningRef := isListeningRef h;
     callbacks := callbacks h;
     errors_logged := (errors_logged h ++ [msg])%list |}.

Definition set_listening (b : bool) (h : Hook) : Hook :=
  {| recognitionRef := recognitionRef h; isListeningRef := b;
     callbacks := callbacks h; errors_logged := errors_logged h |}.

Definition set_recognition (r : option Recognition) (h : Hook) : Hook :=
  {| recognitionRef := r; isListeningRef := isListeningRef h;
     callbacks := callbacks h; errors_logged := errors_logged h |}.

(** The statements inside [try]: construct, configure, start, store. *)
Definition try_start (cfg : Config) (e : Engine) (h : Hook) : completion bool * Hook :=
  match e with
  | ConstructorThrows err => (Throw err, h)
  | StartThrows err => (Throw err, h)
  | Works =>
      (Normal true,
       set_recognition
         (Some {| lang := language cfg; r_continuous := continuous cfg;
                  r_interimResults := interimResults cfg;
                  started := true |}) h)
  end.

(** [startRecognition()], in an environment where the engine lookup gave
    [engine]. *)
Definition startRecognition (cfg : Config) (engine : option Engine) (h : Hook) : completion bool * Hook :=
  match engine with
  | None =>
      (Normal false, call_onError cfg NOT_SUPPORTED (log_error NOT_SUPPORTED h))
  | Some e =>
      match try_start cfg e h with
      | (Normal b, h') => (Normal b, h')
      | (Throw err, h') =>
          (Normal false,
           call_onError cfg err (log_error "Failed to start speech recognition:" h'))
      end
  end.

(** The handlers installed on the recognition object. *)
Definition onstart (h : Hook) : Hook := set_listening true h.
Definition onresult (cfg : Config) (transcript : string) (isFinal : bool) (h : Hook) : Hook :=
  call_onTranscript cfg transcript isFinal h.
Definition onerror (cfg : Config) (err : string) (h : Hook) : Hook :=
  set_listening false (call_onError cfg err (log_error "Speech recognition error:" h)).
Definition onend (h : Hook) : Hook := set_listening false h.

Definition stopRecognition (h : Hook) : Hook :=
  match recognitionRef h with
  | Some r => if isListeningRef h then set_listening false (set_recognition None h) else h
  | None => h
  end.

Definition isListening (h : Hook) : bool := isListeningRef h.

End SpeechToText.

(* ================================================================== *)
(** ** The voice-activity-detection hook ([useVoiceDetection]) *)
(* ================================================================== *)

Module VoiceDetection.
Import JS.
Local Open Scope Z_scope.

Record Config : Type := {
  speechThreshold : Q;
  silenceDuration : Z;
  has_onSpeechStart : bool;
  has_onSpeechEnd : bool
}.

(** [useVoiceDetection({ onSpeechStart, onSpeechEnd })]: the defaults. *)
Definition default_config : Config :=
  {| speechThreshold := 0.02; silenceDuration := 2500;
     has_onSpeechStart := true; has_onSpeechEnd := true |}.

Inductive Callback : Type :=
| SpeechStart
| SpeechEnd (duration : Z).

(** The hook: its React state ([isSpeaking], [energy], [isListening]), its
    refs, and the calls made on the callbacks. The silence timer is armed
    and cleared through [silenceTimerRef] alone, so the ref stands for the
    pending timer: it holds the time the timer was armed at. [energy] is
    [None] for [NaN]. *)
Record Hook : Type := {
  isSpeaking : bool;
  energy : option Q;
  isListening : bool;
  analyserRef : bool;
  silenceTimerRef : option Z;
  speechStartTimeRef : option Z;
  callbacks : list Callback
}.

Definition initial_hook : Hook :=
  {| isSpeaking := false; energy := Some 0%Q; isListening := false;
     analyserRef := false; silenceTimerRef := None;
     speechStartTimeRef := None; callbacks := [] |}.

Definition sum_bins (bins : list Z) : Z := fold_left Z.add bins 0.

(** [dataArray.reduce(...) / dataArray.length / 255]; [0 / 0] is [NaN]. *)
Definition normalizedEnergy (bins : list Z) : option Q :=
  match bins with
  | [] => None
  | _ :: _ =>
      Some ((inject_Z (sum_bins bins) / inject_Z (Z.of_nat (List.length bins))) / 255)%Q
  end.

(** [normalizedEnergy > speechThreshold]. *)
Definition hasSpeech (cfg : Config) (bins : list Z) : bool :=
  match normalizedEnergy bins with
  | Some e => Qgt_bool e (speechThreshold cfg)
  | None => false
  end.

Definition call (present : bool) (c : Callback) (cs : list Callback) : list Callback :=
  if present then (cs ++ [c])%list else cs.

(** One run of [analyzeAudio] at clock reading [now] over the frequency
    data [bins]. *)
Definition analyzeAudio (cfg : Config) (now : Z) (bins : list Z) (h : Hook) : Hook :=
  if negb (analyserRef h) then h
  else
    if hasSpeech cfg bins then
      {| isSpeaking := true;
         energy := normalizedEnergy bins;
         isListening := isListening h;
         analyserRef := analyserRef h;
         silenceTimerRef := None;
         speechStartTimeRef :=
           if isSpeaking h then speechStartTimeRef h else Some now;
         callbacks :=
           if isSpeaking h then callbacks h
           else call (has_onSpeechStart cfg) SpeechStart (callbacks h) |}
    else
      {| isSpeaking := isSpeaking h;
         energy := normalizedEnergy bins;
         isListening := isListening h;
         analyserRef := analyserRef h;
         silenceTimerRef :=
           match silenceTimerRef h with
           | Some armed => Some armed
           | None => if isSpeaking h then Some now else None
           end;
         speechStartTimeRef := speechStartTimeRef h;
         callbacks := callbacks h |}.

(** [speechStartTimeRef.current ? Date.now() - speechStartTimeRef.current : 0]. *)
Definition elapsed (now : Z) (start : option Z) : Z :=
  match start with
  | Some s => if s =? 0 then 0 else now - s
  | None => 0
  end.

(** The callback of the silence timer, run at clock reading [now]. *)
Definition silence_timeout (cfg : Config) (now : Z) (h : Hook) : Hook :=
  {| isSpeaking := false;
     energy := energy h;
     isListening := isListening h;
     analyserRef := analyserRef h;
     silenceTimerRef := None;
     speechStartTimeRef := None;
     callbacks :=
       call (has_onSpeechEnd cfg) (SpeechEnd (elapsed now (speechStartTimeRef h)))
         (callbacks h) |}.

(** [startListening()] once the microphone was granted, up to the first
    run of the loop. *)
Definition startListening (h : Hook) : Hook :=
  {| isSpeaking := isSpeaking h; energy := energy h; isListening := true;
     analyserRef := true; silenceTimerRef := silenceTimerRef h;
     speechStartTimeRef := speechStartTimeRef h; callbacks := callbacks h |}.

Definition stopListening (h : Hook) : Hook :=
  {| isSpeaking := false; energy := Some 0%Q; isListening := false;
     analyserRef := false; silenceTimerRef := None;
     speechStartTimeRef := speechStartTimeRef h; callbacks := callbacks h |}.

(** What the event loop delivers: an animation frame at clock reading
    [now] with the analyser's data, or the silence timer coming due. *)
Inductive Event : Type :=
| Frame (now : Z) (bins : list Z)
| SilenceTimer (now : Z).


(** A timer armed at [armed] for [silenceDuration] runs no earlier than
    [armed + silenceDuration], and only while it is pending. *)
Definition step (cfg : Config) (h : Hook) (e : Event) : Hook :=
  match e with
  | Frame now bins => analyzeAudio cfg now bins h
  | SilenceTimer now =>
      match silenceTimerRef h with
      | Some armed =>
          if armed + silenceDuration cfg <=? now then silence_timeout cfg now h else h
      | None => h
      end
  end.

Definition run (cfg : Config) (h : Hook) (es : list Event) : Hook :=
  fold_left (step cfg) es h.

(** A frame on which no speech is heard; the timer's own events are not
    frames. *)
Definition quiet (cfg : Config) (e : Event) : Prop :=
  match e with
  | Frame _ bins => hasSpeech cfg bins = false
  | SilenceTimer _ => True
  end.

(** The detector once the microphone was granted. *)
Definition listening : Hook := startListening initial_hook.


(** What the refs of the hook reached by [es] say about [es]: a pending
    silence timer was armed by a silent frame that only silent frames
    followed, and the recorded start is the clock reading of the loud frame
    that began the speech. *)
Record explained (cfg : Config) (es : list Event) : Prop := {
  ex_analyser : analyserRef (run cfg listening es) = true;
  ex_timer : forall armed,
    silenceTimerRef (run cfg listening es) = Some armed ->
    isSpeaking (run cfg listening es) = true /\
    exists before bins window,
      es = (before ++ Frame armed bins :: window)%list /\
      hasSpeech cfg bins = false /\
      Forall (quiet cfg) window /\
      isSpeaking (run cfg listening before) = true;
  ex_start : isSpeaking (run cfg listening es) = true ->
    exists start earlier loud later,
      speechStartTimeRef (run cfg listening es) = Some start /\
      es = (earlier ++ Frame start loud :: later)%list /\
      hasSpeech cfg loud = true /\
      isSpeaking (run cfg listening earlier) = false
}.

End VoiceDetection.

(* ================================================================== *)
(** ** Sessions: what the browser delivers and what a session holds *)
(* ================================================================== *)

Module Session.
Import JS Page.

(** A socket that is connecting or open. *)
Definition live (s : Socket) : bool :=
  match readyState s with
  | CONNECTING | OPEN => true
  | _ => false
  end.

(** The browser fires [open] on a socket that is connecting, and on no
    other; every other event may arrive at any time. *)
Definition deliverable (p : Page) (e : Plain.Event) : bool :=
  match e with
  | Plain.SocketOpen h =>
      match sockets (browser p) !! h with
      | Some s => match readyState s with CONNECTING => true | _ => false end
      | None => false
      end
  | _ => true
  end.

(** The timer [startStreaming] registers: [setInterval(captureAndSendFrame, 100)]. *)
Definition frame_interval : Timer :=
  {| delay := 100; repeating := true; action := CaptureAndSendFrame |}.

Definition is_frame (m : OutMsg) : bool :=
  match m with
  | FrameMsg _ _ => true
  | EndMsg => false
  end.

(** A log of sent messages that is frames only, or frames and then one
    [end] notice. *)
Fixpoint frames_then_end (l : list OutMsg) : bool :=
  match l with
  | [] => true
  | FrameMsg _ _ :: rest => frames_then_end rest
  | EndMsg :: rest => match rest with [] => true | _ :: _ => false end
  end.

(** The tracks of the table that are running. *)
Definition is_running (t : gmap positive bool) (h : positive) : bool :=
  match t !! h with
  | Some true => true
  | _ => false
  end.

(** The page [startStreaming] leaves when the camera is refused or
    [video.play()] rejects: what the [catch] block does to [p]. *)
Definition camera_error (p : Page) : Page :=
  setError (JStr "Could not access camera. Please allow camera permissions.")
    (console_error "Camera access error:" p).

(** [streamRef.current = stream] with its tracks running. *)
Definition acquire (stream : list positive) (p : Page) : Page :=
  set_streamRef (Some stream)
    (set_tracks (fun t => fold_right (fun h acc => <[h := true]> acc) t stream) p).

End Session.

(* ================================================================== *)
(** ** More sample inputs *)
(* ================================================================== *)

Module Samples.
Import JS Page.



(** An [analysis] message whose second keypoint is confident but has no
    [y], followed by coaching feedback. *)
Definition analysis_unreadable_keypoint : jsval :=
  JObj [("type", JStr "analysis");
        ("data", JObj [("frame_num", JNum 4);
                       ("keypoints",
                        JArr [JNull;
                              JObj [("x", JNum 10); ("confidence", JNum 0.8)]])]);
        ("coaching", JObj [("triggered", JBool true);
                           ("feedback", JStr "Nice balance")])].

End Samples.

(* ================================================================== *)
(** ** The events of a recognition *)
(* ================================================================== *)

Module Recognition.
Import SpeechToText.

(** What the engine fires on a recognition object: [start], [result]
    (with the transcript and the finality of the last result), [error]
    and [end]. *)
Inductive Event : Type :=
| Started
| Result (transcript : string) (isFinal : bool)
| Errored (err : string)
| Ended.

Definition step (cfg : Config) (h : Hook) (e : Event) : Hook :=
  match e with
  | Started => onstart h
  | Result transcript isFinal => onresult cfg transcript isFinal h
  | Errored err => onerror cfg err h
  | Ended => onend h
  end.

Definition run (cfg : Config) (h : Hook) (es : list Event) : Hook :=
  fold_left (step cfg) es h.

(** The callback an event is reported through, if it is reported. *)
Definition reported (cfg : Config) (e : Event) : list Callback :=
  match e with
  | Result transcript isFinal =>
      if has_onTranscript cfg then [OnTranscript transcript isFinal] else []
  | Errored err => if has_onError cfg then [OnError err] else []
  | Started | Ended => []
  end.

(** Whether the engine is running after an event, given whether it was. *)
Definition running_after (was : bool) (e : Event) : bool :=
  match e with
  | Started => true
  | Result _ _ => was
  | Errored _ | Ended => false
  end.

(** A configuration with both callbacks. *)
Definition with_callbacks : Config :=
  {| language := "en-US"; continuous := true; interimResults := true;
     has_onTranscript := true; has_onError := true |}.

End Recognition.

(* ================================================================== *)
(** ** Clocks and callbacks of the voice detector *)
(* ================================================================== *)

Module VoiceTrace.
Import VoiceDetection.
Local Open Scope Z_scope.


(** Reads a list of callbacks from the oldest on: a start is accepted
    when no speech is open, an end when one is. The result is whether a
    speech is open at the end, or [None] when the list is out of step. *)
Fixpoint paired (speaking : bool) (cs : list Callback) : option bool :=
  match cs with
  | [] => Some speaking
  | SpeechStart :: rest => if speaking then None else paired true rest
  | SpeechEnd _ :: rest => if speaking then paired false rest else None
  end.

(** Frequency data as [getByteFrequencyData] fills it: bytes. *)
Definition is_byte (b : Z) : bool := (0 <=? b) && (b <=? 255).

(** A loud frame, silence, a timer that is not due yet, and the timer
    when it is due. *)
Definition one_utterance : list Event :=
  [Frame 1000 [255]; Frame 1100 [0]; SilenceTimer 2000; SilenceTimer 3600].

End VoiceTrace.

(* ================================================================== *)
(** ** Rendering: the expressions of the meeting page's JSX *)
(* ================================================================== *)

Module Jsx.
Import Ascii.
Import JS Page.

(** What an expression in braces hands to React: the text of
    [x.toFixed(digits)], a value put in the tree as a child, a literal or
    computed text, the text of [items.join(', ')], or the text of a
    template literal [`${v}`]. *)
Inductive shown : Type :=
| Fixed (digits : nat) (x : Q)
| Shown (v : jsval)
| Text (s : string)
| Joined (items : list jsval)
| Templated (v : jsval).

(** Sequencing of evaluations that can raise. *)
Definition and_then {A B} (c : completion A) (k : A -> completion B) : completion B :=
  match c with
  | Normal a => k a
  | Throw e => Throw e
  end.

(** [v.toFixed(digits)]: a method of numbers only. *)
Definition toFixed (digits : nat) (v : jsval) : completion shown :=
  match v with
  | JNum q => Normal (Fixed digits q)
  | _ => Throw "TypeError"
  end.

(** [v?.toFixed(1) || 'N/A']: the text of a number is never empty. *)
Definition toFixed_or_NA (v : jsval) : completion shown :=
  match v with
  | JUndef | JNull => Normal (Text "N/A")
  | JNum q => Normal (Fixed 1 q)
  | _ => Throw "TypeError"
  end.

(** An own property of an object, whatever its value. *)
Definition has_own (name : string) (ps : list (string * jsval)) : bool :=
  existsb (fun kv => String.eqb name (fst kv)) ps.

(** Whether ToString succeeds on a parsed value. An object is converted
    by its [toString], then by its [valueOf]; an own property of either
    name that [JSON.parse] built is not callable and is skipped, and the
    inherited [valueOf] gives the object back, so the conversion raises a
    TypeError exactly when the object has an own [toString]. An array is
    converted by [join], which converts every item other than [null] and
    [undefined]. *)
Fixpoint stringifies (v : jsval) : bool :=
  match v with
  | JArr items => forallb stringifies items
  | JObj ps => negb (has_own "toString" ps)
  | _ => true
  end.

(** [v.join(', ')]: a method of arrays only, which converts the items. *)
Definition join (v : jsval) : completion shown :=
  match v with
  | JArr items =>
      if forallb stringifies items then Normal (Joined items) else Throw "TypeError"
  | _ => Throw "TypeError"
  end.

(** [`${v}`]. *)
Definition template (v : jsval) : completion shown :=
  if stringifies v then Normal (Templated v) else Throw "TypeError".

Definition underscore : ascii := "_"%char.
Definition blank : ascii := " "%char.

(** [s.replace(/_/g, ' ')] on a string. *)
Fixpoint spaced (s : string) : string :=
  match s with
  | EmptyString => EmptyString
  | String c rest =>
      String (if Ascii.eqb c underscore then blank else c) (spaced rest)
  end.

(** [v.replace(/_/g, ' ')]: a method of strings only. *)
Definition replace_underscores (v : jsval) : completion shown :=
  match v with
  | JStr s => Normal (Text (spaced s))
  | _ => Throw "TypeError"
  end.

(** [getPostureColor(posture)]: a [switch] on strict equality. *)
Definition getPostureColor (posture : jsval) : string :=
  if is_str posture "Excellent" then "text-green-400"
  else if is_str posture "Good" then "text-blue-400"
  else if is_str posture "Fair" then "text-yellow-400"
  else "text-red-400".

(** The live stats overlay, put on the video while streaming. *)
Definition live_overlay (s : Stats) : completion (list shown) :=
  and_then (toFixed 0 (balance s)) (fun b =>
  and_then (toFixed 0 (emotionConfidence s)) (fun ec =>
  and_then (toFixed 1 (postureAngle s)) (fun pa =>
  Normal [b; Shown (emotion s); ec; Text (getPostureColor (posture s));
          Shown (posture s); pa; Shown (frameCount s)]))).

(** The analysis panel, rendered when [lastAnalysis] is truthy. [a] is
    that value, so [a.movement] and the like are read from a base that is
    neither [null] nor [undefined]. *)
Definition details (s : Stats) (a : jsval) : completion (list shown) :=
  and_then (toFixed 1 (postureAngle s)) (fun pa =>
  and_then (get (prop a "movement") "movement_score") (fun score =>
  and_then (toFixed 2 score) (fun ms =>
  and_then (toFixed 2 (prop (prop a "movement") "velocity")) (fun vel =>
  and_then (get (prop a "symmetry") "arm_symmetry") (fun arm =>
  and_then (toFixed_or_NA arm) (fun arm_text =>
  and_then (toFixed_or_NA (prop (prop a "symmetry") "leg_symmetry")) (fun leg_text =>
  and_then (join (prop a "activities")) (fun acts =>
  Normal [pa; ms; vel; arm_text; leg_text; acts])))))))).

(** The Live Metrics card. The bar's width is the template text
    [`${stats.balance}%`]. *)
Definition live_metrics (s : Stats) : completion (list shown) :=
  and_then (toFixed 0 (balance s)) (fun b =>
  and_then (template (balance s)) (fun width =>
  and_then (toFixed 0 (emotionConfidence s)) (fun ec =>
  Normal [b; width; Shown (energy s); Text (getPostureColor (posture s));
          Shown (posture s); Shown (emotion s); ec]))).

(** One card of the feedback list. [{feedback.reason && (...)}] is the
    label when [reason] is truthy and [reason] itself when it is not. *)
Definition feedback_card (f : FeedbackItem) : completion (list shown) :=
  if truthy (reason f) then
    and_then (replace_underscores (reason f)) (fun label =>
    Normal [Text (time f); label; Shown (text f)])
  else Normal [Text (time f); Shown (reason f); Shown (text f)].

Fixpoint feedback_cards (l : list FeedbackItem) : completion (list shown) :=
  match l with
  | [] => Normal []
  | f :: rest =>
      and_then (feedback_card f) (fun card =>
      and_then (feedback_cards rest) (fun cards => Normal (card ++ cards)%list))
  end.

(** The parts of the page that show a value received from the backend:
    the error banner, the live stats overlay, the analysis panel, the
    Live Metrics card and the feedback cards. *)
Record View : Type := {
  banner : list shown;
  live : list shown;
  panel : list shown;
  metrics : list shown;
  cards : list shown
}.

(** Evaluating the JSX of the plain page, in the order of the source.
    [{error && (...)}] puts [error] in the tree whether it is truthy (in
    the banner's [span]) or not; [{isStreaming && (...)}] is [false] when
    the page is not streaming, which shows nothing;
    [{lastAnalysis && (...)}] is [lastAnalysis] itself when that is
    falsy. *)
Definition render (u : UI) : completion View :=
  and_then (if isStreaming u then live_overlay (stats u) else Normal []) (fun live_part =>
  and_then (if truthy (lastAnalysis u) then details (stats u) (lastAnalysis u)
            else Normal [Shown (lastAnalysis u)]) (fun panel_part =>
  and_then (live_metrics (stats u)) (fun metrics_part =>
  and_then (feedback_cards (recentFeedback u)) (fun cards_part =>
  Normal {| banner := [Shown (error_banner u)]; live := live_part;
            panel := panel_part; metrics := metrics_part;
            cards := cards_part |})))).

(** *** What React makes of the tree *)

(** A value as a child: React accepts [null], [undefined], booleans,
    strings, numbers and arrays of such, and refuses a plain object
    ("Objects are not valid as a React child"). *)
Fixpoint valid_child (v : jsval) : bool :=
  match v with
  | JObj _ => false
  | JArr items => forallb valid_child items
  | _ => true
  end.

(** The text a child leaves on the page: a number or a non-empty string
    shows as its text (so [0] shows), an array shows its items, and
    [null], [undefined], booleans and the empty string show nothing. *)
Fixpoint child (v : jsval) : list shown :=
  match v with
  | JNum _ => [Shown v]
  | JStr s => if String.eqb s EmptyString then [] else [Shown v]
  | JArr items => flat_map child items
  | _ => []
  end.

Definition accepted (s : shown) : bool :=
  match s with
  | Shown v => valid_child v
  | _ => true
  end.

Definition texts (s : shown) : list shown :=
  match s with
  | Shown v => child v
  | _ => [s]
  end.

(** React commits the tree when every child in it is valid, and raises
    otherwise. *)
Definition commit (w : View) : completion View :=
  if forallb accepted (banner w ++ live w ++ panel w ++ metrics w ++ cards w)%list
  then Normal {| banner := flat_map texts (banner w); live := flat_map texts (live w);
                 panel := flat_map texts (panel w); metrics := flat_map texts (metrics w);
                 cards := flat_map texts (cards w) |}
  else Throw "Error".

(** What the page shows for a state: the committed tree, or the
    exception that takes the page down. *)
Definition page (u : UI) : completion View := and_then (render u) commit.

End Jsx.

(* ================================================================== *)
(** ** The application shell: routes, the home page, the meeting check *)
(* ================================================================== *)

Module Shell.
Import JS.

(** [s.replace(pattern, replacement)] with a string pattern: the first
    occurrence, if there is one. *)
Definition replace_first (pattern replacement s : string) : string :=
  match String.index 0 pattern s with
  | Some i =>
      String.substring 0 i s ++ replacement ++
      String.substring (i + String.length pattern)
                       (String.length s - (i + String.length pattern)) s
  | None => s
  end.

(** What [App] renders. *)
Inductive Screen : Type :=
| HomePage
| MeetingPage (sessionId : string).

(** [renderPage()] for the current route. *)
Definition renderPage (currentRoute : string) : Screen :=
  if String.eqb currentRoute "home" || String.eqb currentRoute "/" then HomePage
  else if String.prefix "/meet/" currentRoute
  then MeetingPage (replace_first "/meet/" EmptyString currentRoute)
  else HomePage.

(** The state of the shell: the route of [App], the home page's
    [isCreating], the meeting page's [meetingLink] and [error], the alerts
    shown, the navigations scheduled with [setTimeout], and the first
    argument of every [console.error] and [console.log]. *)
Record Shell : Type := {
  currentRoute : string;
  isCreating : bool;
  meetingLink : string;
  error : option string;
  alerts : list string;
  scheduled : list (string * Z);
  console : list string
}.

Definition initial_shell : Shell :=
  {| currentRoute := "home"; isCreating := false; meetingLink := EmptyString;
     error := None; alerts := []; scheduled := []; console := [] |}.

(** [navigate(path)] of [App], which the pages receive as [onNavigate]. *)
Definition navigate (path : string) (s : Shell) : Shell :=
  {| currentRoute := path; isCreating := isCreating s; meetingLink := meetingLink s;
     error := error s; alerts := alerts s; scheduled := scheduled s;
     console := console s |}.

Definition setIsCreating (b : bool) (s : Shell) : Shell :=
  {| currentRoute := currentRoute s; isCreating := b; meetingLink := meetingLink s;
     error := error s; alerts := alerts s; scheduled := scheduled s;
     console := console s |}.

Definition alert (msg : string) (s : Shell) : Shell :=
  {| currentRoute := currentRoute s; isCreating := isCreating s; meetingLink := meetingLink s;
     error := error s; alerts := (alerts s ++ [msg])%list; scheduled := scheduled s;
     console := console s |}.

Definition setError (msg : string) (s : Shell) : Shell :=
  {| currentRoute := currentRoute s; isCreating := isCreating s; meetingLink := meetingLink s;
     error := Some msg; alerts := alerts s; scheduled := scheduled s;
     console := console s |}.

Definition setMeetingLink (link : string) (s : Shell) : Shell :=
  {| currentRoute := currentRoute s; isCreating := isCreating s; meetingLink := link;
     error := error s; alerts := alerts s; scheduled := scheduled s;
     console := console s |}.

(** [setTimeout(() => onNavigate(path), ms)]. *)
Definition navigate_later (path : string) (ms : Z) (s : Shell) : Shell :=
  {| currentRoute := currentRoute s; isCreating := isCreating s; meetingLink := meetingLink s;
     error := error s; alerts := alerts s;
     scheduled := (scheduled s ++ [(path, ms)])%list; console := console s |}.

(** [console.error(msg, ...)] and [console.log(msg, ...)]. *)
Definition console_push (msg : string) (s : Shell) : Shell :=
  {| currentRoute := currentRoute s; isCreating := isCreating s; meetingLink := meetingLink s;
     error := error s; alerts := alerts s; scheduled := scheduled s;
     console := (console s ++ [msg])%list |}.

(** What [fetch] gave: it rejected, or it resolved with a response whose
    [ok] flag and whose [json()] outcome are given. *)
Definition Fetched : Type := completion (bool * completion jsval).

Section Host.

(** The text of a number, an array or an object in a template literal is
    the host's ToString. *)
Variable show : jsval -> string.

(** [`${v}`]. *)
Definition template (v : jsval) : string :=
  match v with
  | JUndef => "undefined"
  | JNull => "null"
  | JBool true => "true"
  | JBool false => "false"
  | JStr s => s
  | _ => show v
  end.

(** The statements inside [try] of [createMeeting]: the route to go to,
    or the exception. *)
Definition created_route (fetched : Fetched) : completion string :=
  match fetched with
  | Throw e => Throw e
  | Normal (false, _) => Throw "Failed to create meeting"
  | Normal (true, Throw e) => Throw e
  | Normal (true, Normal data) =>
      match get data "session_id" with
      | Throw e => Throw e
      | Normal id => Normal ("/meet/" ++ template id)
      end
  end.

(** [createMeeting()] of the home page. *)
Definition createMeeting (fetched : Fetched) (s : Shell) : Shell :=
  let s1 := setIsCreating true s in
  let s2 :=
    match created_route fetched with
    | Normal path => navigate path s1
    | Throw _ =>
        alert "Failed to create meeting. Please check if backend is running."
          (console_push "Error creating meeting:" s1)
    end in
  setIsCreating false s2.

End Host.

(** [verifyMeeting()] of the meeting page for [sessionId], on a page
    served from [origin]. *)
Definition verifyMeeting (origin sessionId : string) (fetched : Fetched) (s : Shell) : Shell :=
  match fetched with
  | Normal (false, _) =>
      navigate_later "/" 2000 (setError "Meeting not found or expired" s)
  | Normal (true, Normal _) =>
      console_push "Meeting verified:" (setMeetingLink (origin ++ "/meet/" ++ sessionId) s)
  | Normal (true, Throw _) | Throw _ =>
      navigate_later "/" 2000
        (setError "Failed to verify meeting" (console_push "Error verifying meeting:" s))
  end.

(** A scheduled navigation comes due. *)
Definition timer_fires (s : Shell) : Shell :=
  match scheduled s with
  | [] => s
  | (path, _) :: rest =>
      navigate path
        {| currentRoute := currentRoute s; isCreating := isCreating s;
           meetingLink := meetingLink s; error := error s; alerts := alerts s;
           scheduled := rest; console := console s |}
  end.

End Shell.

(* ================================================================== *)
(** ** The dashboard component ([VideoCoachApp]) *)
(* ================================================================== *)

Module Dashboard.
Import JS Page.
Local Open Scope js_scope.

(** The dashboard has the meeting page's video socket ([wsVideoRef],
    held here by [wsRef]), stream, interval, canvases and React state,
    and besides them an audio socket and an audio context. *)
Record App : Type := {
  page : Page;
  wsAudioRef : option positive;
  audioContextRef : option positive;
  contexts : gmap positive bool;
  isAudioEnabled : bool
}.

Section Host.
Variable coerce : jsval -> option Q.

(** The body of [POSE_PAIRS.forEach(([i, j]) => ...)]: a bone is drawn
    between two keypoints that exist. *)
Definition draw_edge (keypoints : jsval) (e : nat * nat) : M unit :=
  let ptA := index keypoints (fst e) in
  let ptB := index keypoints (snd e) in
  when (truthy ptA && truthy ptB)
    (effect (draw BeginPath) ;;
     effect (draw (MoveTo (ToNumber coerce (prop ptA "x")) (ToNumber coerce (prop ptA "y")))) ;;
     effect (draw (LineTo (ToNumber coerce (prop ptB "x")) (ToNumber coerce (prop ptB "y")))) ;;
     effect (draw Stroke)).

(** The body of [keypoints.forEach((point) => ...)]. *)
Definition draw_point (point : jsval) : M unit :=
  when (truthy point && gt coerce (prop point "confidence") 0.3)
    (effect (draw (SetFillStyle "#ff0000")) ;;
     effect (draw BeginPath) ;;
     effect (draw (Arc (ToNumber coerce (prop point "x"))
                       (ToNumber coerce (prop point "y")) 5)) ;;
     effect (draw Fill)).

(** [drawSkeleton(ctx, keypoints)] of the dashboard, with [ctx] the 2D
    context of the overlay canvas. *)
Definition drawSkeleton (keypoints : jsval) : M unit :=
  if negb (truthy keypoints) || is_zero (prop keypoints "length") then ret tt
  else
    effect (draw (SetStrokeStyle "#00ff00")) ;;
    effect (draw (SetLineWidth 3)) ;;
    for_each Skeleton.POSE_PAIRS (draw_edge keypoints) ;;
    Skeleton.forEach keypoints draw_point.

(** The statements inside [try] of the video socket's [onmessage]. *)
Definition onmessage_body (c : Closure) (parsed : completion jsval) : M unit :=
  let* response := lift parsed in
  let* status := lift (get response "status") in
  if is_str status "received" then ret tt
  else
    when (truthy (prop response "keypoints"))
      (effect (setLastAnalysis response) ;;
       effect (setStats (Plain.stats_of_analysis c response)) ;;
       let* overlayCanvas := read (fun p => overlay (browser p)) in
       match overlayCanvas with
       | Some cv =>
           effect (draw (ClearRect 0 0 (width cv) (height cv))) ;;
           drawSkeleton (prop response "keypoints")
       | None => ret tt
       end).

Definition ws_onmessage (c : Closure) (parsed : completion jsval) : M unit :=
  try_catch (onmessage_body c parsed)
    (fun _ => effect (console_error "Failed to parse backend response:")).

End Host.

(** [audioContextRef.current.close()]. *)
Definition close_context (h : positive) (t : gmap positive bool) : gmap positive bool :=
  <[h := false]> t.

(** [stopStreaming()] of the dashboard. *)
Definition stopStreaming (a : App) : App :=
  let p0 := page a in
  let p1 := match frameIntervalRef (refs p0) with
            | Some h => set_frameIntervalRef None (Plain.clearTimer h p0)
            | None => p0
            end in
  let p2 := match streamRef (refs p1) with
            | Some s => set_streamRef None (Plain.stop_tracks s p1)
            | None => p1
            end in
  let p3 := match wsRef (refs p2) with
            | Some h => set_wsRef None (Plain.ws_close h p2)
            | None => p2
            end in
  let p4 := match wsAudioRef a with
            | Some h => Plain.ws_close h p3
            | None => p3
            end in
  let p5 := set_srcObject None p4 in
  let p6 := setLastAnalysis JNull (setConnectionStatus disconnected (setIsStreaming false p5)) in
  let p7 := match overlay (browser p6) with
            | Some cv => draw (ClearRect 0 0 (width cv) (height cv)) p6
            | None => p6
            end in
  {| page := p7;
     wsAudioRef := None;
     audioContextRef := None;
     contexts := match audioContextRef a with
                 | Some h => close_context h (contexts a)
                 | None => contexts a
                 end;
     isAudioEnabled := isAudioEnabled a |}.

(** A dashboard that wraps a page of the meeting model, without audio. *)
Definition of_page (p : Page) : App :=
  {| page := p; wsAudioRef := None; audioContextRef := None; contexts := ∅;
     isAudioEnabled := false |}.

End Dashboard.

(* ================================================================== *)
(** ** The life of a mounted meeting page: clicks, awaits, leaving *)
(* ================================================================== *)

Module Flow.
Import JS Page.
Local Open Scope js_scope.

(** [startStreaming] is an [async] function. A call runs up to
    [await getUserMedia(...)], hands control back to the browser, goes on
    when the promise settles up to [await videoRef.current.play()], and
    goes on again when that settles. Between two of its segments the
    browser delivers whatever else is due: a click, a socket event, a
    timer, the unmounting of the page. *)
Inductive Stage : Type := AwaitsCamera | AwaitsPlay.

(** A call of [startStreaming] that is waiting, and the render it was
    made in. *)
Record Call : Type := {
  stage : Stage;
  closure : Closure
}.

(** The timeouts of the page that are no part of streaming:
    [setTimeout(() => setCopied(false), 2000)] of [copyMeetingLink] and
    [setTimeout(() => onNavigate('/'), 2000)] of [verifyMeeting]. Their
    handles are kept nowhere, so nothing ever clears them. *)
Inductive PageAction : Type := ResetCopied | LeaveForHome.

Record PageTimer : Type := {
  due : Z;
  what : PageAction
}.

(** One mounted [MeetingPage]: the page, whether it is still mounted, the
    calls of [startStreaming] that wait, the page's own timeouts, and the
    state variables [copied] and [meetingLink]. *)
Record Component : Type := {
  page : Page;
  mounted : bool;
  pending : gmap positive Call;
  next_call : positive;
  timeouts : gmap positive PageTimer;
  copied : bool;
  meetingLink : string
}.

Definition initial : Component :=
  {| page := initial_page; mounted := true; pending := ∅; next_call := 1%positive;
     timeouts := ∅; copied := false; meetingLink := EmptyString |}.

Definition set_page (q : Page) (t : Component) : Component :=
  {| page := q; mounted := mounted t; pending := pending t; next_call := next_call t;
     timeouts := timeouts t; copied := copied t; meetingLink := meetingLink t |}.

Definition set_pending (f : gmap positive Call -> gmap positive Call) (t : Component) : Component :=
  {| page := page t; mounted := mounted t; pending := f (pending t); next_call := next_call t;
     timeouts := timeouts t; copied := copied t; meetingLink := meetingLink t |}.

Definition set_timeouts (f : gmap positive PageTimer -> gmap positive PageTimer)
    (t : Component) : Component :=
  {| page := page t; mounted := mounted t; pending := pending t; next_call := next_call t;
     timeouts := f (timeouts t); copied := copied t; meetingLink := meetingLink t |}.

(** [setCopied(b)] and [setMeetingLink(link)]: React drops the update of
    a component that is no longer mounted. *)
Definition setCopied (b : bool) (t : Component) : Component :=
  {| page := page t; mounted := mounted t; pending := pending t; next_call := next_call t;
     timeouts := timeouts t; copied := if mounted t then b else copied t;
     meetingLink := meetingLink t |}.

Definition setMeetingLink (link : string) (t : Component) : Component :=
  {| page := page t; mounted := mounted t; pending := pending t; next_call := next_call t;
     timeouts := timeouts t; copied := copied t;
     meetingLink := if mounted t then link else meetingLink t |}.

(** What a handler leaves of the page [q] it computed from the page of
    [t]: the refs and the browser as written, and the React state as
    written only while the component is mounted. *)
Definition commit (t : Component) (q : Page) : Page :=
  if mounted t then q
  else {| ui := ui (page t); refs := refs q; browser := browser q |}.

Definition handle (m : M unit) (t : Component) : Component :=
  set_page (commit t (Plain.run_handler m (page t))) t.

(** *** The segments of [startStreaming] *)

(** From the click to [await getUserMedia(...)]. *)
Definition start_begin : M unit := effect (setError JNull).

(** The [catch] block. *)
Definition start_failed : M unit :=
  effect (console_error "Camera access error:") ;;
  effect (setError (JStr "Could not access camera. Please allow camera permissions.")).

(** The statements after the [if (videoRef.current) { ... }]. *)
Definition start_finish (c : Closure) : M unit :=
  let* both := read (fun p =>
    match capture (browser p), overlay (browser p) with
    | Some _, Some _ => true
    | _, _ => false
    end) in
  when both (effect (set_capture Plain.resize) ;; effect (set_overlay Plain.resize)) ;;
  Plain.connectWebSocket c ;;
  let* h := Plain.setInterval CaptureAndSendFrame 100 in
  effect (set_frameIntervalRef (Some h)) ;;
  effect (setIsStreaming true) ;;
  effect (console_log "Streaming started - sending frames to OpenPose backend").

(** What runs when [getUserMedia] settles: the [catch] block when it was
    refused; otherwise the stream, whose tracks are running, goes into
    [streamRef] and, when the video element is there, into its
    [srcObject], and the call waits for [video.play()] (the result is
    [true]); without a video element the call runs to its end. *)
Definition camera_settled (c : Closure) (media : completion (list positive)) : M bool :=
  match media with
  | Throw _ => start_failed ;; ret false
  | Normal stream =>
      effect (set_tracks (fun t => fold_right (fun h acc => <[h := true]> acc) t stream)) ;;
      effect (set_streamRef (Some stream)) ;;
      let* vid := read (fun p => video (browser p)) in
      match vid with
      | Some _ => effect (set_srcObject (Some stream)) ;; ret true
      | None => start_finish c ;; ret false
      end
  end.

(** What runs when [video.play()] settles. *)
Definition play_settled (c : Closure) (played : bool) : M unit :=
  if played then start_finish c else start_failed.

(** The three segments run back to back, nothing in between. *)
Definition start_at_once (c : Closure) (media : completion (list positive)) (played : bool)
    : M unit :=
  start_begin ;;
  let* waits := camera_settled c media in
  if waits then play_settled c played else ret tt.

(** *** Leaving *)

(** The elements behind [videoRef], [canvasRef] and [overlayCanvasRef]
    leave the document, and the refs are [null] from then on. *)
Definition detach : Page -> Page :=
  with_browser (fun b =>
    {| sockets := sockets b; timers := timers b; tracks := tracks b;
       next_handle := next_handle b; speech := speech b; console := console b;
       overlay := None; capture := None; video := None |}).

(** The page is unmounted: the cleanup of its last effect runs
    [stopStreaming()], whose state updates React drops. Whether the DOM
    refs are cleared before the cleanup runs or after it makes no
    difference to what is left: [stopStreaming] reads [videoRef] only to
    clear the element's [srcObject]. *)
Definition unmount (t : Component) : Component :=
  if mounted t then
    {| page := {| ui := ui (page t);
                  refs := refs (Plain.run_handler Plain.stopStreaming (detach (page t)));
                  browser := browser (Plain.run_handler Plain.stopStreaming (detach (page t))) |};
       mounted := false; pending := pending t; next_call := next_call t;
       timeouts := timeouts t; copied := copied t; meetingLink := meetingLink t |}
  else t.

(** [window.setTimeout(action, ms)] for the page's own timeouts: the
    browser numbers them with the streaming timers. *)
Definition set_page_timeout (a : PageAction) (ms : Z) (t : Component) : Component :=
  let h := next_handle (browser (page t)) in
  set_timeouts (insert h {| due := ms; what := a |})
    (set_page (set_next_handle (Pos.succ h) (page t)) t).

(** [copyMeetingLink]: [clipboard] tells whether [navigator.clipboard]
    exists (it does not on a page that was not served securely, and the
    call on it then raises before anything else happens). *)
Definition copyMeetingLink (clipboard : bool) (t : Component) : Component :=
  if clipboard then set_page_timeout ResetCopied 2000 (setCopied true t) else t.

(** *** The events of a mounted page *)

Inductive Event : Type :=
| StartClicked
| CameraSettled (id : positive) (media : completion (list positive))
| PlaySettled (id : positive) (played : bool)
| StopClicked
| HomeClicked
| Unmounted
| CopyClicked (clipboard : bool)
| VerifySettled (fetched : Shell.Fetched)
| TimeoutFires (h : positive)
| SocketOpen (h : positive)
| SocketMessage (h : positive) (parsed : completion jsval) (now : string)
| SocketError (h : positive)
| SocketClose (h : positive) (wasClean : bool)
| TimerFires (h : positive) (frame : string) (timestamp : Q).

(** The events on sockets and streaming timers, which the page handles as
    [Plain.step] says. *)
Definition delivered (e : Event) : option Plain.Event :=
  match e with
  | SocketOpen h => Some (Plain.SocketOpen h)
  | SocketMessage h parsed now => Some (Plain.SocketMessage h parsed now)
  | SocketError h => Some (Plain.SocketError h)
  | SocketClose h wasClean => Some (Plain.SocketClose h wasClean)
  | TimerFires h frame timestamp => Some (Plain.TimerFires h frame timestamp)
  | _ => None
  end.

Section Events.
Variable coerce : jsval -> option Q.
Variables origin sessionId : string.

(** [verifyMeeting()], from the settling of its [fetch] on. *)
Definition verifyMeeting (fetched : Shell.Fetched) (t : Component) : Component :=
  match fetched with
  | Normal (false, _) =>
      set_page_timeout LeaveForHome 2000
        (handle (effect (setError (JStr "Meeting not found or expired"))) t)
  | Normal (true, Normal _) =>
      handle (effect (console_log "Meeting verified:"))
        (setMeetingLink (origin ++ "/meet/" ++ sessionId) t)
  | Normal (true, Throw _) | Throw _ =>
      set_page_timeout LeaveForHome 2000
        (handle (effect (console_error "Error verifying meeting:") ;;
                 effect (setError (JStr "Failed to verify meeting"))) t)
  end.

(** One event. The buttons exist while the page is mounted, Start while
    [isStreaming] is false and Stop while it is true; a settling promise
    resumes the call that waits for it; Home runs [stopStreaming()] and
    navigates, which unmounts the page. *)
Definition step (t : Component) (e : Event) : Component :=
  match e with
  | StartClicked =>
      if mounted t && negb (isStreaming (ui (page t))) then
        let id := next_call t in
        {| page := Plain.run_handler start_begin (page t); mounted := mounted t;
           pending := <[id := {| stage := AwaitsCamera;
                                 closure := Plain.closure_of_render (page t) |}]> (pending t);
           next_call := Pos.succ id; timeouts := timeouts t; copied := copied t;
           meetingLink := meetingLink t |}
      else t
  | CameraSettled id media =>
      match pending t !! id with
      | Some {| stage := AwaitsCamera; closure := c |} =>
          match camera_settled c media (page t) with
          | (Normal true, q) =>
              set_pending (insert id {| stage := AwaitsPlay; closure := c |})
                (set_page (commit t q) t)
          | (_, q) => set_pending (delete id) (set_page (commit t q) t)
          end
      | _ => t
      end
  | PlaySettled id played =>
      match pending t !! id with
      | Some {| stage := AwaitsPlay; closure := c |} =>
          set_pending (delete id) (handle (play_settled c played) t)
      | _ => t
      end
  | StopClicked =>
      if mounted t && isStreaming (ui (page t)) then handle Plain.stopStreaming t else t
  | HomeClicked =>
      if mounted t then unmount (handle Plain.stopStreaming t) else t
  | Unmounted => unmount t
  | CopyClicked clipboard => if mounted t then copyMeetingLink clipboard t else t
  | VerifySettled fetched => verifyMeeting fetched t
  | TimeoutFires h =>
      match timeouts t !! h with
      | Some tm =>
          let t' := set_timeouts (delete h) t in
          match what tm with
          | ResetCopied => setCopied false t'
          | LeaveForHome => unmount t'
          end
      | None => t
      end
  | SocketOpen _ | SocketMessage _ _ _ | SocketError _ | SocketClose _ _ | TimerFires _ _ _ =>
      match delivered e with
      | Some pe => set_page (commit t (Plain.step coerce (page t) pe)) t
      | None => t
      end
  end.

Definition run (t : Component) (es : list Event) : Component := fold_left step es t.

(** [always ok t es]: every event of [es] satisfies [ok] in the state it
    arrives in. *)
Fixpoint always (ok : Component -> Event -> bool) (t : Component) (es : list Event) : bool :=
  match es with
  | [] => true
  | e :: rest => ok t e && always ok (step t e) rest
  end.

End Events.

(** While a call of [startStreaming] waits, the user neither clicks
    Start again nor leaves the page. *)
Definition orderly (t : Component) (e : Event) : bool :=
  match e with
  | StartClicked | HomeClicked | Unmounted =>
      bool_decide (pending t = ∅)
  | TimeoutFires h =>
      match timeouts t !! h with
      | Some {| what := LeaveForHome |} => bool_decide (pending t = ∅)
      | _ => true
      end
  | _ => true
  end.

(** The browser fires [open] only on a socket that is connecting. *)
Definition deliverable (t : Component) (e : Event) : bool :=
  match delivered e with
  | Some pe => Session.deliverable (page t) pe
  | None => true
  end.


(** *** Sample lives *)

(** A page served from [https://coach.example] for meeting [abc123], in
    a host whose coercions all give [NaN]. *)
Definition life : list Event -> Component :=
  run Scenario.no_coercion "https://coach.example" "abc123" initial.

Definition in_order (ok : Component -> Event -> bool) (es : list Event) : bool :=
  always Scenario.no_coercion "https://coach.example" "abc123" ok initial es.

(** A session in good order: Start, the camera is granted with one
    track, the video plays, the socket opens, the user copies the link
    and stops. *)
Definition one_session : list Event :=
  [StartClicked; CameraSettled 1 (Normal [7%positive]); PlaySettled 1 true;
   SocketOpen 1; CopyClicked true; StopClicked].

(** The user clicks Start twice before the camera prompt is answered;
    both calls then run to their end, and the user clicks Stop. *)
Definition started_twice : list Event :=
  [StartClicked; StartClicked;
   CameraSettled 1 (Normal [7%positive]); PlaySettled 1 true;
   CameraSettled 2 (Normal [8%positive]); PlaySettled 2 true;
   StopClicked].

(** The user clicks Start and goes home before the camera prompt is
    answered; the camera is granted afterwards. *)
Definition left_while_waiting : list Event :=
  [StartClicked; HomeClicked; CameraSettled 1 (Normal [7%positive])].

End Flow.

(* ================================================================== *)
(** * Properties of the embedding *)
(* ================================================================== *)

Import JS Page Skeleton Scenario.

(** ** Vocabulary of the proofs *)

(** The page after a list of calls on the overlay canvas's context. *)
Definition draws (cs : list cmd) (p : Page) : Page := fold_left (fun q c => draw c q) cs p.

(** The calls an edge and a keypoint add. *)
Definition edge_calls (kps : list (option KeyPoint)) (sx sy : Q) (e : nat * nat) : list cmd :=
  if edge_visible kps e then
    [BeginPath;
     MoveTo (fst (fst (segment kps sx sy e))) (snd (fst (segment kps sx sy e)));
     LineTo (fst (snd (segment kps sx sy e))) (snd (snd (segment kps sx sy e)));
     Stroke]
  else [].

Definition point_calls (sx sy : Q) (o : option KeyPoint) : list cmd :=
  match o with
  | Some k =>
      if visible (Some k) then
        [SetFillStyle (colour (kp_confidence k));
         SetShadowColor (colour (kp_confidence k));
         BeginPath;
         Arc (Some (kp_x k * sx)%Q) (Some (kp_y k * sy)%Q) 6;
         Fill]
      else []
  | None => []
  end.

(** Everything one call of the renderer sends to the context. *)
Definition skeleton_calls (kps : list (option KeyPoint)) (cv : Canvas) : list cmd :=
  match kps with
  | [] => []
  | _ :: _ =>
      let sx := (inject_Z (width cv) / 640)%Q in
      let sy := (inject_Z (height cv) / 480)%Q in
      [ClearRect 0 0 (width cv) (height cv);
       SetStrokeStyle "#00ff00"; SetLineWidth 3; SetShadowBlur 10;
       SetShadowColor "#00ff00"]
      ++ flat_map (edge_calls kps sx sy) Skeleton.POSE_PAIRS
      ++ [SetShadowBlur 15]
      ++ flat_map (point_calls sx sy) kps
      ++ [SetShadowBlur 0]
  end.

(** A handler keeps a relation when every run of it relates the page it
    starts from to the page it leaves, whether or not it raises. *)
Definition keeps {A} (R : Page -> Page -> Prop) (m : M A) : Prop :=
  forall p, R p (snd (m p)).

(** Two pages agree on a projection. *)
Definition same {X} (f : Page -> X) (p q : Page) : Prop := f q = f p.

(** [pushed n P l l']: [l'] comes from [l] by pushing items that satisfy
    [P] in front, cutting back to [n] items after each push. *)
Inductive pushed {A} (n : nat) (P : A -> Prop) (l : list A) : list A -> Prop :=
| pushed_none : pushed n P l l
| pushed_more l' x : pushed n P l l' -> P x -> pushed n P l (firstn n (x :: l')).

Definition feedback_of (p : Page) : list FeedbackItem := recentFeedback (ui p).
Definition logs_of (p : Page) : list CoordinateLog := coordinateLogs (ui p).

(** The relation a handler run at clock reading [now] keeps between the
    rolling lists before and after. *)
Definition rolls (now : string) (p q : Page) : Prop :=
  pushed 5 (fun f => time f = now) (feedback_of p) (feedback_of q) /\
  pushed 30 (fun l => log_time l = now) (logs_of p) (logs_of q).

(** Both rolling lists are within their caps. *)
Definition bounded (p : Page) : Prop :=
  (List.length (feedback_of p) <= 5)%nat /\ (List.length (logs_of p) <= 30)%nat.

(** The page [stopStreaming] leaves, written out update by update. *)
Definition stopped (p : Page) : Page :=
  let p1 := console_log "Stopping stream..." p in
  let p2 := match frameIntervalRef (refs p1) with
            | Some h => set_frameIntervalRef None (Plain.clearTimer h p1)
            | None => p1
            end in
  let p3 := match reconnectTimeoutRef (refs p2) with
            | Some h => set_reconnectTimeoutRef None (Plain.clearTimer h p2)
            | None => p2
            end in
  let p4 := match streamRef (refs p3) with
            | Some s => set_streamRef None (Plain.stop_tracks s p3)
            | None => p3
            end in
  let p5 := match wsRef (refs p4) with
            | Some h =>
                set_wsRef None
                  (Plain.ws_close h
                     (if Plain.socket_is_open p4 then Plain.ws_send h EndMsg p4 else p4))
            | None => p4
            end in
  console_log "Stream stopped"
    (setConnectionStatus disconnected
       (setIsStreaming false (Plain.cancel_speech (set_srcObject None p5)))).

(** Every socket handler was created in a render with [isStreaming]
    false, and no reconnect timer exists. *)
Definition stale (p : Page) : Prop :=
  (forall h s, sockets (browser p) !! h = Some s -> cl_isStreaming (handlers s) = false) /\
  (forall h t, timers (browser p) !! h = Some t -> action t = CaptureAndSendFrame) /\
  reconnectTimeoutRef (refs p) = None.

Definition stays_stale (p q : Page) : Prop := stale p -> stale q.



(** The part of the page in which a session's resources live. *)
Definition core (p : Page) :
    gmap positive Socket * gmap positive Timer * gmap positive bool * Refs * bool :=
  (sockets (browser p), timers (browser p), tracks (browser p), refs p, isStreaming (ui p)).

(** What every reachable page of the plain variant satisfies: the only
    timer is the frame interval, it is held by [frameIntervalRef] and
    exists exactly while [isStreaming]; a page that is not streaming holds
    no socket; and a socket's log of sent messages is frames, closed by at
    most one [end] notice, which the current socket has not sent. *)
Record tidy (p : Page) : Prop := {
  tidy_stale : stale p;
  tidy_timers : forall h t,
    timers (browser p) !! h = Some t ->
    frameIntervalRef (refs p) = Some h /\ t = Session.frame_interval;
  tidy_streaming :
    isStreaming (ui p) = true ->
    exists h, frameIntervalRef (refs p) = Some h /\
              timers (browser p) !! h = Some Session.frame_interval;
  tidy_idle :
    isStreaming (ui p) = false ->
    frameIntervalRef (refs p) = None /\ wsRef (refs p) = None;
  tidy_sent : forall h s,
    sockets (browser p) !! h = Some s ->
    Session.frames_then_end (sent s) = true /\
    (wsRef (refs p) = Some h -> forallb Session.is_frame (sent s) = true)
}.

(** Every socket that is connecting or open is the one [wsRef] holds. *)
Definition one_socket (p : Page) : Prop :=
  forall h s, sockets (browser p) !! h = Some s -> Session.live s = true ->
              wsRef (refs p) = Some h.

(** The utterance [speak(text, rate)] queues. *)
Definition spoken (text : jsval) (rate : Q) : Utterance :=
  {| u_text := text; u_rate := rate; u_pitch := 1.0; u_volume := 0.9 |}.

(** The point the coordinate log holds for keypoint [k] at index [i]. *)
Definition logged_point (i : nat) (k : KeyPoint) : LoggedPoint :=
  {| point_name := Hardened.pointName i; point_x := kp_x k; point_y := kp_y k;
     point_confidence := Some (kp_confidence k) |}.

(** The coordinate-log points of a typed keypoint list: the keypoints of
    confidence above 0.2, in the order of the list, the first one at
    index [idx]. *)
Fixpoint logged (idx : nat) (kps : list (option KeyPoint)) : list LoggedPoint :=
  match kps with
  | [] => []
  | o :: rest =>
      match o with
      | Some k =>
          if visible (Some k)
          then logged_point idx k :: logged (S idx) rest
          else logged (S idx) rest
      | None => logged (S idx) rest
      end
  end.


(** Tests on parsed values used to say when the page renders. *)
Definition is_num (v : jsval) : bool :=
  match v with JNum _ => true | _ => false end.

Definition is_nullish (v : jsval) : bool :=
  match v with JUndef | JNull => true | _ => false end.

Definition is_array (v : jsval) : bool :=
  match v with JArr _ => true | _ => false end.

(** A rendering that raises nothing but a TypeError. *)
Definition raises_only_TypeError {A} (c : completion A) : Prop :=
  forall e, c = Throw e -> e = "TypeError".

(** The dashboard's skeleton of a typed keypoint list: a bone for every
    pair whose two keypoints exist, between their coordinates as they
    are, and a disc for every keypoint of confidence above 0.3. *)
Definition present (o : option KeyPoint) : bool :=
  match o with Some _ => true | None => false end.

Definition bone_present (kps : list (option KeyPoint)) (e : nat * nat) : bool :=
  present (slot kps (fst e)) && present (slot kps (snd e)).

Definition unscaled (o : option KeyPoint) : option Q * option Q :=
  match o with
  | Some k => (Some (kp_x k), Some (kp_y k))
  | None => (None, None)
  end.

Definition bone (kps : list (option KeyPoint)) (e : nat * nat)
    : (option Q * option Q) * (option Q * option Q) :=
  (unscaled (slot kps (fst e)), unscaled (slot kps (snd e))).

Definition sure (k : KeyPoint) : bool :=
  if Qlt_le_dec 0.3 (kp_confidence k) then true else false.

Definition sure_points (kps : list (option KeyPoint)) : list KeyPoint :=
  flat_map (fun o => match o with
                     | Some k => if sure k then [k] else []
                     | None => []
                     end) kps.

Definition red_disc (k : KeyPoint) : string * (option Q * option Q * Z) :=
  ("#ff0000", (Some (kp_x k), Some (kp_y k), 5%Z)).

Definition bone_calls (kps : list (option KeyPoint)) (e : nat * nat) : list cmd :=
  if bone_present kps e then
    [BeginPath;
     MoveTo (fst (fst (bone kps e))) (snd (fst (bone kps e)));
     LineTo (fst (snd (bone kps e))) (snd (snd (bone kps e)));
     Stroke]
  else [].

Definition dot_calls (o : option KeyPoint) : list cmd :=
  match o with
  | Some k =>
      if sure k then
        [SetFillStyle "#ff0000"; BeginPath; Arc (Some (kp_x k)) (Some (kp_y k)) 5; Fill]
      else []
  | None => []
  end.

Definition dashboard_calls (kps : list (option KeyPoint)) : list cmd :=
  match kps with
  | [] => []
  | _ :: _ =>
      [SetStrokeStyle "#00ff00"; SetLineWidth 3]
      ++ flat_map (bone_calls kps) Skeleton.POSE_PAIRS
      ++ flat_map dot_calls kps
  end.

(** Nothing of a session is left on the page: no handler that would
    reconnect, no streaming timer, and every ref cleared. *)
Definition released (p : Page) : Prop :=
  stale p /\ timers (browser p) = ∅ /\ refs p = initial_refs.

(** What holds of a meeting page along an orderly life: while it is
    mounted the page is tidy; once it has left, the session is released
    and no call waits; and a call that waits is the only one, was made in
    a render with [isStreaming] false, and waits on a page that is not
    streaming. *)
Record settled (t : Flow.Component) : Prop := {
  settled_mounted : Flow.mounted t = true -> tidy (Flow.page t);
  settled_left : Flow.mounted t = false -> released (Flow.page t) /\ Flow.pending t = ∅;
  settled_calls : forall id call,
    Flow.pending t !! id = Some call ->
    cl_isStreaming (Flow.closure call) = false /\
    isStreaming (ui (Flow.page t)) = false /\
    Flow.pending t = {[ id := call ]}
}.

(** Where the sockets and the tracks of a session live. *)
Definition resources (p : Page) : gmap positive Socket * gmap positive bool * Refs :=
  (sockets (browser p), tracks (browser p), refs p).



(** What a step does to the sockets, the tracks and the refs: nothing;
    or what the settling of the camera does, with or without a video
    element; or what the end of [startStreaming] does; or what
    [stopStreaming] does, once or twice, before or after the DOM refs
    are cleared; or what an event on a socket or a timer does. *)
Inductive moved (coerce : jsval -> option Q) (t : Flow.Component) (e : Flow.Event) (q : Page)
    : Prop :=
| moved_nothing : resources q = resources (Flow.page t) -> moved coerce t e q
| moved_acquired id c s :
    Flow.pending t !! id = Some {| Flow.stage := Flow.AwaitsCamera; Flow.closure := c |} ->
    resources q = resources (Session.acquire s (Flow.page t)) -> moved coerce t e q
| moved_started id st c p :
    Flow.pending t !! id = Some {| Flow.stage := st; Flow.closure := c |} ->
    resources p = resources (Flow.page t) \/
      (st = Flow.AwaitsCamera /\ exists s, p = Session.acquire s (Flow.page t)) ->
    q = snd (Flow.start_finish c p) -> moved coerce t e q
| moved_stopped p :
    p = Flow.page t \/ p = Flow.detach (Flow.page t) \/
      p = Flow.detach (stopped (Flow.page t)) ->
    resources q = resources (stopped p) -> moved coerce t e q
| moved_delivered pe :
    Flow.delivered e = Some pe ->
    resources q = resources (Plain.step coerce (Flow.page t) pe) -> moved coerce t e q.

(** The page's own timeouts are all due after two seconds. *)
Definition two_seconds (t : Flow.Component) : Prop :=
  forall h tm, Flow.timeouts t !! h = Some tm -> Flow.due tm = 2000%Z.

(** Every call of [startStreaming] that waits was made in a render with
    [isStreaming] false. *)
Definition fresh_calls (t : Flow.Component) : Prop :=
  forall id call, Flow.pending t !! id = Some call -> cl_isStreaming (Flow.closure call) = false.

(** ** The handler monad *)

Lemma bind_read {A B} (f : Page -> A) (k : A -> M B) p :
  bind (read f) k p = k (f p) p.
Proof. reflexivity. Qed.

Lemma bind_effect {B} (f : Page -> Page) (k : unit -> M B) p :
  bind (effect f) k p = k tt (f p).
Proof. reflexivity. Qed.

Lemma bind_lift_normal {A B} (a : A) (k : A -> M B) p :
  bind (lift (Normal a)) k p = k a p.
Proof. reflexivity. Qed.

Lemma snd_bind_same {X A B} (f : Page -> X) (m : M A) (k : A -> M B) p :
  (forall a, keeps (same f) (k a)) -> f (snd (bind m k p)) = f (snd (m p)).
Proof.
  intros Hk. unfold bind. destruct (m p) as [[a|e] p']; [apply Hk|reflexivity].
Qed.

Lemma snd_try_catch_same {X} (f : Page -> X) body handler p :
  (forall e, keeps (same f) (handler e)) ->
  f (snd (try_catch body handler p)) = f (snd (body p)).
Proof.
  intros Hh. unfold try_catch. destruct (body p) as [[u|e] p']; [reflexivity|apply Hh].
Qed.

Section Keeps.
Variable R : Page -> Page -> Prop.
Hypothesis R_refl : forall p, R p p.
Hypothesis R_trans : forall p q r, R p q -> R q r -> R p r.

Lemma keeps_ret {A} (a : A) : keeps R (ret a).
Proof. intros p. apply R_refl. Qed.

Lemma keeps_throw {A} e : keeps R (@throw A e).
Proof. intros p. apply R_refl. Qed.

Lemma keeps_lift {A} (c : completion A) : keeps R (lift c).
Proof. intros p. apply R_refl. Qed.

Lemma keeps_read {A} (f : Page -> A) : keeps R (read f).
Proof. intros p. apply R_refl. Qed.

Lemma keeps_effect f : (forall p, R p (f p)) -> keeps R (effect f).
Proof. intros H p. apply H. Qed.

Lemma keeps_bind {A B} (m : M A) (k : A -> M B) :
  keeps R m -> (forall a, keeps R (k a)) -> keeps R (bind m k).
Proof.
  intros Hm Hk p. unfold bind. specialize (Hm p).
  destruct (m p) as [[a|e] p']; cbn in *; [|assumption].
  eapply R_trans; [eassumption|apply Hk].
Qed.

Lemma keeps_when b m : keeps R m -> keeps R (when b m).
Proof. intros H. destruct b; [assumption|apply keeps_ret]. Qed.

Lemma keeps_try_catch body handler :
  keeps R body -> (forall e, keeps R (handler e)) -> keeps R (try_catch body handler).
Proof.
  intros Hb Hh p. unfold try_catch. specialize (Hb p).
  destruct (body p) as [[u|e] p']; cbn in *; [assumption|].
  eapply R_trans; [eassumption|apply Hh].
Qed.

Lemma keeps_for_each {A} (l : list A) (f : A -> M unit) :
  (forall a, keeps R (f a)) -> keeps R (for_each l f).
Proof.
  intros Hf. induction l as [|a l IH]; [apply keeps_ret|].
  cbn [for_each]. apply keeps_bind; [apply Hf | intros _; exact IH].
Qed.

End Keeps.

(** One step through a handler built from the monad's combinators; the
    goals left are the state updates. *)
Ltac keeps_step :=
  lazymatch goal with
  | |- keeps _ (ret _) => apply keeps_ret; assumption
  | |- keeps _ (throw _) => apply keeps_throw; assumption
  | |- keeps _ (lift _) => apply keeps_lift; assumption
  | |- keeps _ (read _) => apply keeps_read; assumption
  | |- keeps _ (when _ _) => apply keeps_when; [assumption|]
  | |- keeps _ (for_each _ _) => apply keeps_for_each; [assumption|assumption|intros ?]
  | |- keeps _ (try_catch _ _) => apply keeps_try_catch; [assumption| |intros ?]
  | |- keeps _ (bind _ _) => apply keeps_bind; [assumption| |intros ?]
  | |- keeps _ (effect _) => apply keeps_effect; intros ?
  | |- keeps _ (match ?x with _ => _ end) => destruct x
  | |- keeps _ (let _ := _ in _) => cbv zeta
  | |- keeps _ ((fun _ => _) _) => cbv beta
  end.

Ltac keeps_go := repeat keeps_step.

(** A handler's outcome is normal when it never raises. *)
Lemma try_catch_normal body handler p :
  (forall e q, fst (handler e q) = Normal tt) ->
  fst (try_catch body handler p) = Normal tt.
Proof.
  intros H. unfold try_catch. destruct (body p) as [[[]|e] p']; [reflexivity|apply H].
Qed.

Lemma same_refl {X} (f : Page -> X) p : same f p p.
Proof. reflexivity. Qed.

Lemma same_trans {X} (f : Page -> X) p q r : same f p q -> same f q r -> same f p r.
Proof. unfold same. congruence. Qed.

Lemma run_handler_keeps (R : Page -> Page -> Prop) (m : M unit) p :
  keeps R m -> R p (Plain.run_handler m p).
Proof. intros H. apply H. Qed.

(** ** The skeleton renderer *)

Lemma draws_app cs1 cs2 p : draws (cs1 ++ cs2) p = draws cs2 (draws cs1 p).
Proof. unfold draws. apply fold_left_app. Qed.

Lemma draw_video c p : video (browser (draw c p)) = video (browser p).
Proof. reflexivity. Qed.

Lemma draws_video cs p : video (browser (draws cs p)) = video (browser p).
Proof.
  revert p. induction cs as [|c cs IH]; intros p; [reflexivity|].
  cbn [draws fold_left]. fold (draws cs (draw c p)). now rewrite IH.
Qed.

Lemma draws_overlay cs p cv :
  overlay (browser p) = Some cv ->
  overlay (browser (draws cs p)) =
    Some {| width := width cv; height := height cv; calls := (calls cv ++ cs)%list |}.
Proof.
  revert p cv. induction cs as [|c cs IH]; intros p cv H.
  - cbn. rewrite H, app_nil_r. now destruct cv.
  - cbn [draws fold_left]. fold (draws cs (draw c p)).
    erewrite IH.
    2:{ unfold draw, set_overlay, with_browser. cbn. rewrite H. reflexivity. }
    cbn. now rewrite <- app_assoc.
Qed.

Section Render.
Variable coerce : jsval -> option Q.

Lemma gt_num (c lit : Q) :
  gt coerce (JNum c) lit = if Qlt_le_dec lit c then true else false.
Proof.
  unfold gt, ToNumber, Qgt_bool.
  destruct (Qlt_le_dec lit c) as [Hlt|Hle].
  - destruct (Qle_bool c lit) eqn:E; [|reflexivity].
    apply Qle_bool_iff in E. exfalso. exact (Qlt_not_le _ _ Hlt E).
  - apply Qle_bool_iff in Hle. now rewrite Hle.
Qed.

Lemma index_keypoints kps i :
  index (keypoints_js kps) i = slot_js (slot kps i) \/
  (index (keypoints_js kps) i = JUndef /\ slot kps i = None).
Proof.
  unfold keypoints_js, index, slot.
  destruct (Nat.lt_ge_cases i (List.length kps)) as [Hlt|Hge].
  - left. rewrite (nth_indep _ JUndef (slot_js None)) by now rewrite length_map.
    apply map_nth.
  - right. split; apply nth_overflow; [rewrite length_map|]; assumption.
Qed.

Lemma confident_slot kps i :
  truthy (index (keypoints_js kps) i)
  && gt coerce (prop (index (keypoints_js kps) i) "confidence") 0.2 = visible (slot kps i).
Proof.
  destruct (index_keypoints kps i) as [-> | [-> ->]]; [|reflexivity].
  destruct (slot kps i) as [k|]; [|reflexivity].
  cbn [slot_js keypoint_js truthy prop assoc andb visible].
  cbn. apply gt_num.
Qed.

Lemma draw_edge_calls kps sx sy e p :
  Skeleton.draw_edge coerce (keypoints_js kps) sx sy e p =
  (Normal tt, draws (edge_calls kps sx sy e) p).
Proof.
  unfold Skeleton.draw_edge, edge_calls, edge_visible.
  pose proof (confident_slot kps (fst e)) as HA.
  pose proof (confident_slot kps (snd e)) as HB.
  set (ptA := index (keypoints_js kps) (fst e)) in *.
  set (ptB := index (keypoints_js kps) (snd e)) in *.
  replace (truthy ptA && truthy ptB && gt coerce (prop ptA "confidence") 0.2
           && gt coerce (prop ptB "confidence") 0.2)
    with (visible (slot kps (fst e)) && visible (slot kps (snd e))).
  2:{ rewrite <- HA, <- HB.
      destruct (truthy ptA), (truthy ptB), (gt coerce (prop ptA "confidence") 0.2),
        (gt coerce (prop ptB "confidence") 0.2); reflexivity. }
  destruct (visible (slot kps (fst e))) eqn:VA; [|reflexivity].
  destruct (visible (slot kps (snd e))) eqn:VB; [|reflexivity].
  cbn [andb when].
  subst ptA ptB.
  destruct (index_keypoints kps (fst e)) as [-> | [_ EA]]; [|rewrite EA in VA; discriminate].
  destruct (index_keypoints kps (snd e)) as [-> | [_ EB]]; [|rewrite EB in VB; discriminate].
  unfold segment.
  destruct (slot kps (fst e)) as [ka|]; [|discriminate].
  destruct (slot kps (snd e)) as [kb|]; [|discriminate].
  reflexivity.
Qed.

Lemma band_colour c : Skeleton.band coerce (JNum c) = colour c.
Proof.
  unfold Skeleton.band, colour. rewrite !gt_num.
  destruct (Qlt_le_dec 0.7 c); [reflexivity|].
  destruct (Qlt_le_dec 0.5 c); reflexivity.
Qed.

Lemma draw_point_calls sx sy o p :
  Skeleton.draw_point coerce sx sy (slot_js o) p = (Normal tt, draws (point_calls sx sy o) p).
Proof.
  destruct o as [k|]; [|reflexivity].
  unfold Skeleton.draw_point, point_calls.
  change (prop (slot_js (Some k)) "confidence") with (JNum (kp_confidence k)).
  change (prop (slot_js (Some k)) "x") with (JNum (kp_x k)).
  change (prop (slot_js (Some k)) "y") with (JNum (kp_y k)).
  change (truthy (slot_js (Some k))) with true.
  rewrite gt_num, band_colour. unfold visible.
  destruct (Qlt_le_dec 0.2 (kp_confidence k)); reflexivity.
Qed.

Lemma for_each_draws {A} (f : A -> M unit) (g : A -> list cmd) (l : list A) p :
  (forall a q, f a q = (Normal tt, draws (g a) q)) ->
  for_each l f p = (Normal tt, draws (flat_map g l) p).
Proof.
  intros Hf. revert p. induction l as [|a l IH]; intros p; [reflexivity|].
  cbn [for_each flat_map]. unfold bind. rewrite Hf, IH, draws_app. reflexivity.
Qed.

Lemma for_each_map_draws {A B} (h : A -> B) (f : B -> M unit) (g : A -> list cmd) (l : list A) p :
  (forall a q, f (h a) q = (Normal tt, draws (g a) q)) ->
  for_each (map h l) f p = (Normal tt, draws (flat_map g l) p).
Proof.
  intros Hf. revert p. induction l as [|a l IH]; intros p; [reflexivity|].
  cbn [for_each flat_map map]. unfold bind. rewrite Hf, IH, draws_app. reflexivity.
Qed.

Lemma drawSkeleton_calls kps p cv v :
  overlay (browser p) = Some cv ->
  video (browser p) = Some v ->
  Skeleton.drawSkeleton coerce (keypoints_js kps) p =
  (Normal tt, draws (skeleton_calls kps cv) p).
Proof.
  intros Hcv Hv. unfold Skeleton.drawSkeleton, skeleton_calls.
  destruct kps as [|o kps]; [reflexivity|].
  set (ks := o :: kps).
  replace (negb (truthy (keypoints_js ks)) || is_zero (prop (keypoints_js ks) "length"))
    with false by reflexivity.
  rewrite bind_read, Hcv, bind_effect, bind_read, draw_video, Hv.
  rewrite !bind_effect.
  unfold bind at 1.
  rewrite (for_each_draws _ (edge_calls ks _ _)) by (intros; apply draw_edge_calls).
  rewrite bind_effect.
  unfold bind at 1.
  unfold Skeleton.forEach, keypoints_js.
  rewrite (for_each_map_draws slot_js _ (point_calls _ _)) by (intros; apply draw_point_calls).
  unfold effect.
  f_equal. rewrite !draws_app. reflexivity.
Qed.

End Render.

Lemma strokes_points sx sy kps pen path :
  Skeleton.strokes_from (flat_map (point_calls sx sy) kps ++ [SetShadowBlur 0]) pen path = [].
Proof.
  revert pen path. induction kps as [|o kps IH]; intros pen path; [reflexivity|].
  cbn [flat_map]. rewrite <- app_assoc.
  destruct o as [k|]; [|apply IH].
  unfold point_calls at 1. destruct (visible (Some k)); [|apply IH].
  cbn. apply IH.
Qed.

Lemma strokes_edges kps sx sy l rest pen path :
  (forall pen' path', Skeleton.strokes_from rest pen' path' = []) ->
  Skeleton.strokes_from (flat_map (edge_calls kps sx sy) l ++ rest) pen path =
  map (segment kps sx sy) (List.filter (edge_visible kps) l).
Proof.
  intros Hrest. revert pen path.
  induction l as [|e l IH]; intros pen path; [apply Hrest|].
  cbn [flat_map List.filter]. rewrite <- app_assoc.
  unfold edge_calls at 1. destruct (edge_visible kps e); [|apply IH].
  cbn [app Skeleton.strokes_from map]. rewrite IH.
  destruct (segment kps sx sy e) as [[ax ay] [bx b_y]]. reflexivity.
Qed.

Lemma fills_edges kps sx sy l rest style :
  Skeleton.fills_from (flat_map (edge_calls kps sx sy) l ++ rest) style [] =
  Skeleton.fills_from rest style [].
Proof.
  induction l as [|e l IH]; [reflexivity|].
  cbn [flat_map]. rewrite <- app_assoc.
  unfold edge_calls at 1. destruct (edge_visible kps e); [|apply IH].
  cbn. apply IH.
Qed.

Lemma fills_points sx sy kps style path :
  Skeleton.fills_from (flat_map (point_calls sx sy) kps ++ [SetShadowBlur 0]) style path =
  map (disc sx sy) (visible_points kps).
Proof.
  revert style path. induction kps as [|o kps IH]; intros style path; [reflexivity|].
  unfold visible_points. cbn [flat_map]. rewrite <- app_assoc.
  destruct o as [k|]; [|apply IH].
  unfold point_calls at 1. destruct (visible (Some k)); [|apply IH].
  cbn [app Skeleton.fills_from map]. rewrite IH. reflexivity.
Qed.

Lemma visible_iff (o : option KeyPoint) :
  visible o = true <-> exists k, o = Some k /\ (0.2 < kp_confidence k)%Q.
Proof.
  destruct o as [k|]; cbn.
  - destruct (Qlt_le_dec 0.2 (kp_confidence k)) as [Hlt|Hle]; split.
    + intros _. now exists k.
    + reflexivity.
    + discriminate.
    + intros [k' [[= <-] Hlt]]. exfalso. exact (Qlt_not_le _ _ Hlt Hle).
  - split; [discriminate | intros [k [[=] _]]].
Qed.

Lemma faint_invisible kps i :
  (forall k, In (Some k) kps -> (kp_confidence k < 0.2)%Q) ->
  visible (slot kps i) = false.
Proof.
  intros Hall. destruct (visible (slot kps i)) eqn:E; [|reflexivity].
  apply visible_iff in E. destruct E as [k [Hk Hlt]].
  assert (Hin : In (Some k) kps).
  { unfold slot in Hk. destruct (Nat.lt_ge_cases i (List.length kps)) as [Hi|Hi].
    - rewrite <- Hk. now apply nth_In.
    - rewrite nth_overflow in Hk by assumption. discriminate. }
  specialize (Hall k Hin). exfalso.
  apply (Qlt_irrefl 0.2). now apply Qlt_trans with (kp_confidence k).
Qed.

Lemma faint_no_points sx sy kps :
  (forall k, In (Some k) kps -> (kp_confidence k < 0.2)%Q) ->
  flat_map (point_calls sx sy) kps = [].
Proof.
  induction kps as [|o kps IH]; intros Hall; [reflexivity|].
  cbn [flat_map]. rewrite IH by (intros k Hk; apply Hall; now right).
  rewrite app_nil_r. destruct o as [k|]; [|reflexivity].
  unfold point_calls.
  replace (visible (Some k)) with false; [reflexivity|].
  symmetry. apply (faint_invisible (Some k :: kps) 0 Hall).
Qed.

Lemma faint_no_edges sx sy kps l :
  (forall k, In (Some k) kps -> (kp_confidence k < 0.2)%Q) ->
  flat_map (edge_calls kps sx sy) l = [].
Proof.
  intros Hall. induction l as [|e l IH]; [reflexivity|].
  cbn [flat_map]. rewrite IH, app_nil_r.
  unfold edge_calls, edge_visible. now rewrite (faint_invisible kps (fst e) Hall).
Qed.

Lemma pose_pairs_in_range :
  Forall (fun e : nat * nat => (fst e < 18)%nat /\ (snd e < 18)%nat) Skeleton.POSE_PAIRS.
Proof. unfold Skeleton.POSE_PAIRS. repeat constructor. Qed.

Lemma filter_all {A} (f : A -> bool) (l : list A) :
  Forall (fun x => f x = true) l -> List.filter f l = l.
Proof.
  induction 1 as [|x l Hx _ IH]; [reflexivity|].
  cbn [List.filter]. now rewrite Hx, IH.
Qed.

Lemma confident_all_edges kps :
  (18 <= List.length kps)%nat ->
  (forall o, In o kps -> exists k, o = Some k /\ (0.2 < kp_confidence k)%Q) ->
  List.filter (edge_visible kps) Skeleton.POSE_PAIRS = Skeleton.POSE_PAIRS.
Proof.
  intros Hlen Hall.
  assert (Hvis : forall i, (i < 18)%nat -> visible (slot kps i) = true).
  { intros i Hi. apply visible_iff. apply Hall. apply nth_In. lia. }
  apply filter_all.
  eapply List.Forall_impl; [|exact pose_pairs_in_range].
  intros e [Hi Hj]. unfold edge_visible. now rewrite !Hvis.
Qed.

(** C4. With the overlay canvas and the video element mounted,
    [drawSkeleton] on a keypoint list returns normally, and of the calls
    it adds to the canvas: if every keypoint's confidence is below 0.2,
    none builds a path, strokes or fills (the canvas is cleared and styles
    are set, nothing is drawn); if all eighteen keypoints are present with
    confidence above 0.2 (full confidence in particular), the stroked
    segments are exactly one per pair of [POSE_PAIRS], in its order; in
    general an edge is stroked iff both its endpoints exist and both have
    confidence strictly above 0.2; and every keypoint drawn is a disc
    filled in the colour of its band: above 0.7 high, above 0.5 medium,
    else low. *)
Theorem drawSkeleton_draws_confident_keypoints
    (coerce : jsval -> option Q) (kps : list (option KeyPoint)) (p : Page)
    (cv : Canvas) (v : option (list positive)) :
  overlay (browser p) = Some cv ->
  video (browser p) = Some v ->
  let sx := (inject_Z (width cv) / 640)%Q in
  let sy := (inject_Z (height cv) / 480)%Q in
  let out := Skeleton.drawSkeleton coerce (keypoints_js kps) p in
  exists new : list cmd,
    fst out = Normal tt /\
    overlay_calls (snd out) = (overlay_calls p ++ new)%list /\
    ((forall k, In (Some k) kps -> (kp_confidence k < 0.2)%Q) ->
       Forall (fun c => Skeleton.is_draw_call c = false) new) /\
    ((18 <= List.length kps)%nat ->
     (forall o, In o kps -> exists k, o = Some k /\ (0.2 < kp_confidence k)%Q) ->
       Skeleton.stroked_segments new = map (segment kps sx sy) Skeleton.POSE_PAIRS) /\
    Skeleton.stroked_segments new =
      map (segment kps sx sy) (List.filter (edge_visible kps) Skeleton.POSE_PAIRS) /\
    (forall e, edge_visible kps e = true <->
       exists ka kb, slot kps (fst e) = Some ka /\ slot kps (snd e) = Some kb /\
                     (0.2 < kp_confidence ka)%Q /\ (0.2 < kp_confidence kb)%Q) /\
    Skeleton.filled_discs new = map (disc sx sy) (visible_points kps).
Proof.
  intros Hcv Hv sx sy out.
  exists (skeleton_calls kps cv).
  assert (Hout : out = (Normal tt, draws (skeleton_calls kps cv) p))
    by (apply drawSkeleton_calls with (v := v); assumption).
  assert (Hseg : Skeleton.stroked_segments (skeleton_calls kps cv) =
                 map (segment kps sx sy) (List.filter (edge_visible kps) Skeleton.POSE_PAIRS)).
  { unfold skeleton_calls. destruct kps as [|o kps'].
    - reflexivity.
    - unfold Skeleton.stroked_segments. cbn [app Skeleton.strokes_from].
      apply strokes_edges. intros pen' path'.
      cbn [app Skeleton.strokes_from]. apply strokes_points. }
  rewrite Hout. cbn [fst snd].
  split; [reflexivity|].
  split.
  { unfold overlay_calls. rewrite (draws_overlay _ _ cv Hcv), Hcv. reflexivity. }
  split.
  { intros Hfaint. unfold skeleton_calls. destruct kps as [|o kps']; [constructor|].
    rewrite faint_no_edges, faint_no_points by assumption.
    cbn. repeat constructor. }
  split.
  { intros Hlen Hall. rewrite Hseg, confident_all_edges by assumption. reflexivity. }
  split; [exact Hseg|].
  split.
  { intros e. unfold edge_visible. rewrite andb_true_iff, !visible_iff. split.
    - intros [[ka [Ha Hca]] [kb [Hb Hcb]]]. exists ka, kb. repeat split; assumption.
    - intros [ka [kb [Ha [Hb [Hca Hcb]]]]].
      split; [exists ka | exists kb]; split; assumption. }
  unfold skeleton_calls. destruct kps as [|o kps']; [reflexivity|].
  unfold Skeleton.filled_discs. cbn [app Skeleton.fills_from].
  rewrite fills_edges. cbn [app Skeleton.fills_from]. apply fills_points.
Qed.

Lemma drawSkeleton_draws_confident_keypoints_witness :
  overlay (browser initial_page) = Some {| width := 300; height := 150; calls := [] |} /\
  video (browser initial_page) = Some None /\
  exists new : list cmd,
    overlay_calls (snd (Skeleton.drawSkeleton no_coercion (keypoints_js confident_pose) initial_page)) =
      (overlay_calls initial_page ++ new)%list /\
    List.length (Skeleton.stroked_segments new) = 17%nat /\
    List.length (Skeleton.filled_discs new) = 18%nat.
Proof.
  split; [reflexivity|]. split; [reflexivity|].
  destruct (drawSkeleton_draws_confident_keypoints no_coercion confident_pose initial_page
              {| width := 300; height := 150; calls := [] |} None eq_refl eq_refl)
    as [new [_ [Hcalls [_ [Hall [_ [_ Hdiscs]]]]]]].
  exists new. split; [exact Hcalls|]. split.
  - rewrite Hall.
    + reflexivity.
    + cbn. lia.
    + intros o Ho. apply repeat_spec in Ho. subst o. eexists. split; [reflexivity|]. reflexivity.
  - rewrite Hdiscs. reflexivity.
Defined.

(** ** The message dispatcher *)

Section Frames.
Variable coerce : jsval -> option Q.
Variable R : Page -> Page -> Prop.
Hypothesis R_refl : forall p, R p p.
Hypothesis R_trans : forall p q r, R p q -> R q r -> R p r.

Lemma drawSkeleton_keeps keypoints :
  (forall c p, R p (draw c p)) ->
  keeps R (Skeleton.drawSkeleton coerce keypoints).
Proof.
  intros Hdraw.
  unfold Skeleton.drawSkeleton, Skeleton.forEach, Skeleton.draw_edge, Skeleton.draw_point.
  keeps_go; apply Hdraw.
Qed.

Lemma draw_overlay_keeps data :
  (forall c p, R p (draw c p)) ->
  keeps R (Plain.draw_overlay coerce data).
Proof.
  intros Hdraw. unfold Plain.draw_overlay.
  keeps_step; [keeps_step|]. keeps_step. now apply drawSkeleton_keeps.
Qed.

Lemma handle_coaching_keeps response now :
  (forall f p, R p (setRecentFeedback f p)) ->
  (forall u p, R p (Plain.enqueue_utterance u p)) ->
  (forall e p, R p (console_push e p)) ->
  keeps R (Plain.handle_coaching response now).
Proof.
  intros H1 H2 H3. unfold Plain.handle_coaching. keeps_step.
  keeps_step; [keeps_step; apply H1|].
  keeps_step; [keeps_step; apply H2|].
  keeps_step. apply H3.
Qed.

End Frames.

Lemma is_str_eq v lit : is_str v lit = true -> v = JStr lit.
Proof.
  destruct v; cbn; try discriminate. intros H. apply String.eqb_eq in H. now subst.
Qed.

Lemma get_typed response lit :
  is_str (prop response "type") lit = true ->
  get response "type" = Normal (JStr lit).
Proof.
  intros H. apply is_str_eq in H. unfold get. rewrite H.
  destruct response; try reflexivity; discriminate.
Qed.

(** The stats an analysis message leaves behind. *)
Lemma analysis_stats coerce c response now p :
  is_str (prop response "type") "analysis" = true ->
  truthy (prop response "data") = true ->
  stats (ui (snd (Plain.ws_onmessage coerce c (Normal response) now p))) =
  Plain.stats_of_analysis c (prop response "data").
Proof.
  intros Hty Hdata. unfold Plain.ws_onmessage.
  rewrite (snd_try_catch_same (fun q => stats (ui q))).
  2:{ intros e. apply keeps_effect. reflexivity. }
  unfold Plain.onmessage_body.
  rewrite bind_lift_normal, (get_typed _ _ Hty), bind_lift_normal.
  cbn [is_str String.eqb Ascii.eqb Bool.eqb].
  rewrite (snd_bind_same (fun q => stats (ui q))).
  2:{ intros _. unfold Plain.handle_error. cbn [is_str String.eqb Ascii.eqb Bool.eqb when].
      apply keeps_ret, same_refl. }
  unfold Plain.handle_analysis. rewrite Hdata.
  cbn [is_str String.eqb Ascii.eqb Bool.eqb when andb].
  rewrite !bind_effect.
  assert (K : keeps (same (fun q => stats (ui q)))
                (bind (Plain.draw_overlay coerce (prop response "data"))
                      (fun _ => Plain.handle_coaching response now))).
  { apply keeps_bind; [apply same_trans| |intros _].
    - apply draw_overlay_keeps; [apply same_refl|apply same_trans|reflexivity].
    - apply handle_coaching_keeps; [apply same_refl|apply same_trans|..]; reflexivity. }
  rewrite K. reflexivity.
Qed.


(** C8, amended. [ws.onmessage] never raises. A message that is not valid
    JSON, or that parses to [null], is caught and logged, and React state
    and refs stay as they were. A message whose [type] is none of
    [welcome], [pong], [analysis] and [error] leaves the whole page as it
    was, console included: it is dropped without a log entry. *)
Theorem onmessage_never_throws
    (coerce : jsval -> option Q) (c : Closure) (now : string) (p : Page) :
  (forall parsed, fst (Plain.ws_onmessage coerce c parsed now p) = Normal tt) /\
  (forall e,
     snd (Plain.ws_onmessage coerce c (Throw e) now p) =
       console_error "Failed to parse WebSocket message:" p) /\
  snd (Plain.ws_onmessage coerce c (Normal JNull) now p) =
    console_error "Failed to parse WebSocket message:" p /\
  (forall msg,
     ui (console_error msg p) = ui p /\ refs (console_error msg p) = refs p /\
     console (browser (console_error msg p)) = (console (browser p) ++ [ConsoleError msg])%list) /\
  (forall response type,
     get response "type" = Normal type ->
     is_str type "welcome" = false -> is_str type "pong" = false ->
     is_str type "analysis" = false -> is_str type "error" = false ->
     snd (Plain.ws_onmessage coerce c (Normal response) now p) = p).
Proof.
  split; [|split; [|split; [|split]]].
  - intros parsed. apply try_catch_normal. reflexivity.
  - reflexivity.
  - reflexivity.
  - intros msg. repeat split.
  - intros response type Hget Hw Hp Ha He.
    unfold Plain.ws_onmessage, try_catch, Plain.onmessage_body.
    rewrite bind_lift_normal, Hget, bind_lift_normal, Hw, Hp.
    unfold Plain.handle_analysis, Plain.handle_error. rewrite Ha, He. reflexivity.
Qed.

(** C8 as stated does not hold. A message of unknown type is dropped
    without being logged; and an [analysis] message whose [keypoints] is a
    number is caught and logged only after [lastAnalysis] and the stats
    were replaced. *)
Lemma onmessage_unknown_shape_outcomes :
  let unknown := JObj [("type", JStr "ping")] in
  let garbled :=
    JObj [("type", JStr "analysis");
          ("data", JObj [("balance", JObj [("balance_score", JNum 10)]);
                         ("keypoints", JNum 5)])] in
  let c := Plain.closure_of_render initial_page in
  let ignored := snd (Plain.ws_onmessage (fun _ => None) c (Normal unknown) "12:00:00" initial_page) in
  let caught := snd (Plain.ws_onmessage (fun _ => None) c (Normal garbled) "12:00:00" initial_page) in
  console (browser ignored) = [] /\
  console (browser caught) = [ConsoleError "Failed to parse WebSocket message:"] /\
  balance (stats (ui caught)) = JNum 10 /\
  lastAnalysis (ui caught) <> lastAnalysis (ui initial_page) /\
  stats (ui caught) <> stats (ui initial_page).
Proof.
  cbv zeta. repeat split; try reflexivity; discriminate.
Qed.

(** ** The rolling lists *)

(** *** Rolling lists *)

Lemma pushed_trans {A} n (P : A -> Prop) l1 l2 l3 :
  pushed n P l1 l2 -> pushed n P l2 l3 -> pushed n P l1 l3.
Proof.
  intros H12 H23. induction H23 as [|l' x _ IH Hx]; [assumption|].
  now apply pushed_more.
Qed.

Lemma firstn_cons_firstn {A} n (x : A) l :
  firstn n (x :: firstn n l) = firstn n (x :: l).
Proof.
  destruct n as [|k]; [reflexivity|]. cbn [firstn]. f_equal.
  rewrite firstn_firstn. f_equal. lia.
Qed.

Lemma pushed_front {A} n (P : A -> Prop) l l' :
  pushed n P l l' -> (List.length l <= n)%nat ->
  exists added, l' = firstn n (added ++ l)%list /\ Forall P added /\ (List.length l' <= n)%nat.
Proof.
  intros H Hlen. induction H as [|l' x _ IH Hx].
  - exists []. split; [|split; [constructor|assumption]].
    symmetry. now apply firstn_all2.
  - destruct IH as [added [-> [Hall _]]].
    exists (x :: added). split; [|split].
    + cbn [app]. apply firstn_cons_firstn.
    + now constructor.
    + apply firstn_le_length.
Qed.

Lemma rolls_refl now p : rolls now p p.
Proof. split; constructor. Qed.

Lemma rolls_trans now p q r : rolls now p q -> rolls now q r -> rolls now p r.
Proof. intros [A B] [C D]. split; eapply pushed_trans; eassumption. Qed.

Lemma rolls_same now p q :
  feedback_of q = feedback_of p -> logs_of q = logs_of p -> rolls now p q.
Proof. intros E1 E2. unfold rolls. rewrite E1, E2. split; constructor. Qed.

Lemma rolls_feedback now item p :
  time item = now -> rolls now p (setRecentFeedback (Plain.push_feedback item) p).
Proof.
  intros H. split.
  - change (pushed 5 (fun f => time f = now) (recentFeedback (ui p))
              (firstn 5 (item :: recentFeedback (ui p)))).
    apply pushed_more; [constructor|assumption].
  - constructor.
Qed.

Lemma rolls_log now entry p :
  log_time entry = now -> rolls now p (setCoordinateLogs (Hardened.push_log entry) p).
Proof.
  intros H. split.
  - constructor.
  - change (pushed 30 (fun l => log_time l = now) (coordinateLogs (ui p))
              (firstn 30 (entry :: coordinateLogs (ui p)))).
    apply pushed_more; [constructor|assumption].
Qed.

Ltac rolls_frame now :=
  let Hr := fresh "Hrefl" in
  let Ht := fresh "Htrans" in
  pose proof (rolls_refl now) as Hr;
  pose proof (rolls_trans now) as Ht;
  keeps_go;
  try (apply rolls_same; reflexivity);
  try (intros ?; apply rolls_same; reflexivity);
  try (apply rolls_feedback; reflexivity);
  try (apply rolls_log; reflexivity).

Section Rolling.
Variable coerce : jsval -> option Q.

Lemma speak_rolls now text rate : keeps (rolls now) (Hardened.speak text rate).
Proof. unfold Hardened.speak. rolls_frame now. Qed.

Lemma drawSkeleton_rolls now keypoints :
  keeps (rolls now) (Skeleton.drawSkeleton coerce keypoints).
Proof.
  apply drawSkeleton_keeps; [apply rolls_refl|apply rolls_trans|].
  intros c p. apply rolls_same; reflexivity.
Qed.

Lemma plain_onmessage_rolls c parsed now :
  keeps (rolls now) (Plain.ws_onmessage coerce c parsed now).
Proof.
  unfold Plain.ws_onmessage, Plain.onmessage_body, Plain.handle_analysis,
    Plain.handle_error, Plain.handle_coaching, Plain.draw_overlay.
  rolls_frame now. apply drawSkeleton_rolls.
Qed.

Lemma hardened_onmessage_rolls c parsed now :
  keeps (rolls now) (Hardened.ws_onmessage coerce c parsed now).
Proof.
  unfold Hardened.ws_onmessage, Hardened.onmessage_body, Hardened.handle_analysis,
    Plain.handle_error, Hardened.handle_coaching, Hardened.handle_gemini,
    Hardened.draw_overlay, Hardened.log_coordinates.
  rolls_frame now; try apply speak_rolls; try apply drawSkeleton_rolls.
Qed.

Ltac rolls_handler now :=
  apply run_handler_keeps; rolls_frame now.

Lemma plain_step_rolls e p : rolls (stamp e) p (Plain.step coerce p e).
Proof.
  destruct e as [media played| |h|h parsed now|h|h wasClean|h frame timestamp]; cbn [Plain.step stamp].
  - destruct (isStreaming (ui p)); [apply rolls_refl|].
    unfold Plain.startStreaming, Plain.connectWebSocket. rolls_handler EmptyString.
  - unfold Plain.stopStreaming. rolls_handler EmptyString.
  - destruct (sockets (browser p) !! h); [|apply rolls_refl].
    apply rolls_trans with (Plain.set_readyState h OPEN p); [apply rolls_same; reflexivity|].
    unfold Plain.ws_onopen. rolls_handler EmptyString.
  - destruct (sockets (browser p) !! h); [|apply rolls_refl].
    apply run_handler_keeps, plain_onmessage_rolls.
  - destruct (sockets (browser p) !! h); [|apply rolls_refl].
    unfold Plain.ws_onerror. rolls_handler EmptyString.
  - destruct (sockets (browser p) !! h); [|apply rolls_refl].
    apply rolls_trans with (Plain.set_readyState h CLOSED p); [apply rolls_same; reflexivity|].
    unfold Plain.ws_onclose. rolls_handler EmptyString.
  - destruct (timers (browser p) !! h) as [t|]; [|apply rolls_refl].
    apply rolls_trans with (if repeating t then p else Plain.clearTimer h p).
    { destruct (repeating t); apply rolls_same; reflexivity. }
    destruct (action t).
    + unfold Plain.captureAndSendFrame. rolls_handler EmptyString.
    + unfold Plain.reconnect_callback, Plain.connectWebSocket. rolls_handler EmptyString.
Qed.

Lemma hardened_step_rolls e p : rolls (stamp_h e) p (Hardened.step coerce p e).
Proof.
  destruct e as [e| |]; cbn [Hardened.step stamp_h].
  - destruct e as [media played| |h|h parsed now|h|h wasClean|h frame timestamp]; cbn [stamp].
    + destruct (isStreaming (ui p)); [apply rolls_refl|].
      unfold Hardened.startStreaming, Hardened.connectWebSocket, Plain.connectWebSocket.
      rolls_handler EmptyString. apply speak_rolls.
    + unfold Hardened.stopStreaming. rolls_handler EmptyString. apply speak_rolls.
    + destruct (sockets (browser p) !! h); [|apply rolls_refl].
      apply rolls_trans with (Plain.set_readyState h OPEN p); [apply rolls_same; reflexivity|].
      unfold Hardened.ws_onopen. rolls_handler EmptyString. apply speak_rolls.
    + destruct (sockets (browser p) !! h); [|apply rolls_refl].
      apply run_handler_keeps, hardened_onmessage_rolls.
    + destruct (sockets (browser p) !! h); [|apply rolls_refl].
      unfold Hardened.ws_onerror. rolls_handler EmptyString.
    + destruct (sockets (browser p) !! h); [|apply rolls_refl].
      apply rolls_trans with (Plain.set_readyState h CLOSED p); [apply rolls_same; reflexivity|].
      unfold Hardened.ws_onclose, Plain.ws_onclose. rolls_handler EmptyString.
    + destruct (timers (browser p) !! h) as [t|]; [|apply rolls_refl].
      apply rolls_trans with (if repeating t then p else Plain.clearTimer h p).
      { destruct (repeating t); apply rolls_same; reflexivity. }
      destruct (action t).
      * unfold Plain.captureAndSendFrame. rolls_handler EmptyString.
      * unfold Hardened.reconnect_callback, Hardened.connectWebSocket, Plain.connectWebSocket.
        rolls_handler EmptyString.
  - unfold Hardened.unmount_cleanup. rolls_handler EmptyString.
  - apply rolls_same; reflexivity.
Qed.

Lemma rolls_bounded now p q : rolls now p q -> bounded p -> bounded q.
Proof.
  intros [Hf Hl] [Bf Bl]. split.
  - destruct (pushed_front _ _ _ _ Hf Bf) as [_ [_ [_ H]]]. exact H.
  - destruct (pushed_front _ _ _ _ Hl Bl) as [_ [_ [_ H]]]. exact H.
Qed.

Lemma plain_run_bounded es p : bounded p -> bounded (Plain.run coerce p es).
Proof.
  revert p. induction es as [|e es IH]; intros p Hp; [exact Hp|].
  cbn [Plain.run fold_left]. apply IH.
  eapply rolls_bounded; [apply plain_step_rolls|exact Hp].
Qed.

Lemma hardened_run_bounded es p : bounded p -> bounded (Hardened.run coerce p es).
Proof.
  revert p. induction es as [|e es IH]; intros p Hp; [exact Hp|].
  cbn [Hardened.run fold_left]. apply IH.
  eapply rolls_bounded; [apply hardened_step_rolls|exact Hp].
Qed.

End Rolling.

(** C7. After any sequence of events, on either variant of the page, the
    feedback list holds at most 5 items and the coordinate log at most 30
    entries; and an event changes a list only by putting items stamped
    with the event's own clock reading in front of the items already
    there and cutting the result back to the cap, so each list runs from
    the most recent item to the oldest one kept. *)
Theorem rolling_lists_are_bounded_newest_first
    (coerce : jsval -> option Q) (es : list Plain.Event) (hs : list Hardened.Event) :
  let p := Plain.run coerce initial_page es in
  let q := Hardened.run coerce initial_page hs in
  (List.length (recentFeedback (ui p)) <= 5)%nat /\
  (List.length (recentFeedback (ui q)) <= 5)%nat /\
  (List.length (coordinateLogs (ui q)) <= 30)%nat /\
  (forall e, exists added,
     recentFeedback (ui (Plain.step coerce p e)) =
       firstn 5 (added ++ recentFeedback (ui p))%list /\
     Forall (fun f => time f = stamp e) added) /\
  (forall e, exists added logged,
     recentFeedback (ui (Hardened.step coerce q e)) =
       firstn 5 (added ++ recentFeedback (ui q))%list /\
     coordinateLogs (ui (Hardened.step coerce q e)) =
       firstn 30 (logged ++ coordinateLogs (ui q))%list /\
     Forall (fun f => time f = stamp_h e) added /\
     Forall (fun l => log_time l = stamp_h e) logged).
Proof.
  intros p q.
  assert (Hinit : bounded initial_page) by (split; cbn; lia).
  assert (Hp : bounded p) by (apply plain_run_bounded, Hinit).
  assert (Hq : bounded q) by (apply hardened_run_bounded, Hinit).
  destruct Hp as [Hp1 Hp2]. destruct Hq as [Hq1 Hq2].
  split; [exact Hp1|]. split; [exact Hq1|]. split; [exact Hq2|]. split.
  - intros e. destruct (plain_step_rolls coerce e p) as [Hf _].
    destruct (pushed_front _ _ _ _ Hf Hp1) as [added [E [Hall _]]].
    exists added. split; assumption.
  - intros e. destruct (hardened_step_rolls coerce e q) as [Hf Hl].
    destruct (pushed_front _ _ _ _ Hf Hq1) as [added [E [Hall _]]].
    destruct (pushed_front _ _ _ _ Hl Hq2) as [logged [E' [Hall' _]]].
    exists added, logged. repeat split; assumption.
Qed.

(** ** Stopping a session *)

Lemma stopStreaming_stopped p : Plain.stopStreaming p = (Normal tt, stopped p).
Proof.
  destruct p as [u [[ws|] [st|] [fi|] [rt|]] b];
    unfold Plain.stopStreaming, stopped, Page.bind, effect, read, when, ret;
    cbn [refs frameIntervalRef reconnectTimeoutRef streamRef wsRef
         set_frameIntervalRef set_reconnectTimeoutRef set_streamRef set_wsRef
         Plain.clearTimer Plain.stop_tracks set_timers set_tracks
         with_refs with_browser console_log console_push];
    try reflexivity;
    match goal with
    | |- context [Plain.socket_is_open ?q] => destruct (Plain.socket_is_open q); reflexivity
    end.
Qed.

Ltac stopped_cases p :=
  let u := fresh "u" in
  let ws := fresh "ws" in
  let b := fresh "b" in
  destruct p as [u [[ws|] [?|] [?|] [?|]] b];
    unfold stopped;
    try match goal with
        | |- context [Plain.socket_is_open ?q] => destruct (Plain.socket_is_open q)
        end;
    reflexivity.

Ltac stopped_socket_cases p :=
  let u := fresh "u" in
  let ws := fresh "ws" in
  let b := fresh "b" in
  let s := fresh "s" in
  destruct p as [u [[ws|] [?|] [?|] [?|]] b]; try reflexivity;
    unfold stopped, Plain.socket_is_open;
    cbn [refs frameIntervalRef reconnectTimeoutRef streamRef wsRef
         set_frameIntervalRef set_reconnectTimeoutRef set_streamRef set_wsRef
         Plain.clearTimer Plain.stop_tracks set_timers set_tracks sockets browser
         with_refs with_browser console_log console_push];
    (destruct (sockets b !! ws) as [s|]; [destruct (readyState s)|]; reflexivity).

Lemma stop_tracks_lookup (s : list positive) (h : positive) (t : gmap positive bool) :
  In h s -> fold_right (fun h acc => <[h := false]> acc) t s !! h = Some false.
Proof.
  induction s as [|a s IH]; intros Hin; [destruct Hin|].
  cbn [fold_right]. destruct (decide (a = h)) as [->|Hne].
  - apply lookup_insert_eq.
  - rewrite lookup_insert_ne by assumption. apply IH.
    destruct Hin; [contradiction|assumption].
Qed.

Lemma timers_stopped p :
  timers (browser (stopped p)) =
  match reconnectTimeoutRef (refs p), frameIntervalRef (refs p) with
  | Some r, Some f => delete r (delete f (timers (browser p)))
  | Some r, None => delete r (timers (browser p))
  | None, Some f => delete f (timers (browser p))
  | None, None => timers (browser p)
  end.
Proof. stopped_cases p. Qed.

Lemma tracks_stopped p :
  tracks (browser (stopped p)) =
  match streamRef (refs p) with
  | Some s => fold_right (fun h acc => <[h := false]> acc) (tracks (browser p)) s
  | None => tracks (browser p)
  end.
Proof. stopped_cases p. Qed.

Lemma sockets_stopped p :
  sockets (browser (stopped p)) =
  match wsRef (refs p) with
  | Some h =>
      alter (fun s =>
        {| readyState := match readyState s with CONNECTING | OPEN => CLOSING | st => st end;
           sent := sent s; handlers := handlers s |}) h
        (if Plain.socket_is_open p
         then alter (fun s => {| readyState := readyState s;
                                 sent := (sent s ++ [EndMsg])%list;
                                 handlers := handlers s |}) h (sockets (browser p))
         else sockets (browser p))
  | None => sockets (browser p)
  end.
Proof. stopped_socket_cases p. Qed.

Lemma refs_stopped p :
  refs (stopped p) =
  {| wsRef := None; streamRef := None; frameIntervalRef := None;
     reconnectTimeoutRef := None |}.
Proof. stopped_cases p. Qed.

Lemma speech_stopped p :
  speech (browser (stopped p)) = option_map (fun _ => []) (speech (browser p)).
Proof. stopped_cases p. Qed.

Lemma video_stopped p :
  video (browser (stopped p)) = option_map (fun _ => None) (video (browser p)).
Proof. stopped_cases p. Qed.

Lemma canvases_stopped p :
  overlay (browser (stopped p)) = overlay (browser p) /\
  capture (browser (stopped p)) = capture (browser p).
Proof. split; stopped_cases p. Qed.

Lemma ui_stopped p :
  isStreaming (ui (stopped p)) = false /\
  connectionStatus (ui (stopped p)) = disconnected /\
  lastAnalysis (ui (stopped p)) = lastAnalysis (ui p).
Proof. repeat split; stopped_cases p. Qed.

Lemma socket_stopped p h s :
  wsRef (refs p) = Some h -> sockets (browser p) !! h = Some s ->
  exists s', sockets (browser (stopped p)) !! h = Some s' /\
    sent s' = (sent s ++ (match readyState s with OPEN => [EndMsg] | _ => [] end))%list /\
    readyState s' = (match readyState s with
                     | CONNECTING | OPEN => CLOSING
                     | st => st
                     end).
Proof.
  intros Hws Hs. rewrite sockets_stopped, Hws.
  unfold Plain.socket_is_open. rewrite Hws, Hs.
  destruct (readyState s) eqn:E.
  all: rewrite ?lookup_alter_eq, ?Hs; cbn [fmap option_fmap option_map];
    eexists; split; [reflexivity|]; cbn [sent readyState]; rewrite ?E, ?app_nil_r;
    split; reflexivity.
Qed.

(** What [stopStreaming] releases, and what it leaves. It returns
    normally, and afterwards: the frame-capture interval and the
    reconnect timer held in the refs are cleared and both refs are
    [null]; every track of the stream is stopped and [streamRef] is
    [null]; the socket of [wsRef] was sent [{type: "end"}] iff it was
    open, it is closing (or stays closing or closed), and [wsRef] is
    [null]; the speech queue is empty; the video element has no source;
    [isStreaming] is false and the status is [disconnected]. The overlay
    canvas, the capture canvas and [lastAnalysis] are left as they
    were. *)
Lemma stopStreaming_releases (p : Page) :
  let out := Plain.stopStreaming p in
  let p' := snd out in
  fst out = Normal tt /\
  frameIntervalRef (refs p') = None /\
  (forall h, frameIntervalRef (refs p) = Some h -> timers (browser p') !! h = None) /\
  reconnectTimeoutRef (refs p') = None /\
  (forall h, reconnectTimeoutRef (refs p) = Some h -> timers (browser p') !! h = None) /\
  streamRef (refs p') = None /\
  (forall s h, streamRef (refs p) = Some s -> In h s ->
     tracks (browser p') !! h = Some false) /\
  wsRef (refs p') = None /\
  (forall h s, wsRef (refs p) = Some h -> sockets (browser p) !! h = Some s ->
     exists s', sockets (browser p') !! h = Some s' /\
       sent s' = (sent s ++ match readyState s with OPEN => [EndMsg] | _ => [] end)%list /\
       readyState s' = match readyState s with
                       | CONNECTING | OPEN => CLOSING
                       | st => st
                       end) /\
  speech (browser p') = option_map (fun _ => []) (speech (browser p)) /\
  video (browser p') = option_map (fun _ => None) (video (browser p)) /\
  isStreaming (ui p') = false /\
  connectionStatus (ui p') = disconnected /\
  overlay (browser p') = overlay (browser p) /\
  capture (browser p') = capture (browser p) /\
  lastAnalysis (ui p') = lastAnalysis (ui p).
Proof.
  intros out p'. subst out p'. rewrite stopStreaming_stopped. cbn [fst snd].
  rewrite refs_stopped, speech_stopped, video_stopped.
  destruct (canvases_stopped p) as [-> ->].
  destruct (ui_stopped p) as [-> [-> ->]].
  repeat split.
  - intros h Hh. rewrite timers_stopped, Hh.
    destruct (reconnectTimeoutRef (refs p)) as [r|].
    + destruct (decide (r = h)) as [->|Hne].
      * apply lookup_delete_eq.
      * rewrite lookup_delete_ne by assumption. apply lookup_delete_eq.
    + apply lookup_delete_eq.
  - intros h Hh. rewrite timers_stopped, Hh.
    destruct (frameIntervalRef (refs p)); apply lookup_delete_eq.
  - intros s h Hs Hin. rewrite tracks_stopped, Hs. now apply stop_tracks_lookup.
  - intros h s Hws Hs. now apply socket_stopped.
Qed.

(** ** Reconnecting, and what the socket handlers close over *)

Lemma stays_stale_refl p : stays_stale p p.
Proof. intros H. exact H. Qed.

Lemma stays_stale_trans p q r : stays_stale p q -> stays_stale q r -> stays_stale p r.
Proof. unfold stays_stale. auto. Qed.

Lemma stale_frame p q :
  sockets (browser q) = sockets (browser p) ->
  timers (browser q) = timers (browser p) ->
  reconnectTimeoutRef (refs q) = reconnectTimeoutRef (refs p) ->
  stays_stale p q.
Proof. intros E1 E2 E3 [H1 [H2 H3]]. unfold stale. rewrite E1, E2, E3. auto. Qed.

Lemma stale_clearTimer h p : stays_stale p (Plain.clearTimer h p).
Proof.
  intros [H1 [H2 H3]]. split; [exact H1|split; [|exact H3]].
  intros h' t Ht. apply (H2 h' t).
  change (delete h (timers (browser p)) !! h' = Some t) in Ht.
  apply lookup_delete_Some in Ht. tauto.
Qed.

Lemma stale_reconnect_none p : stays_stale p (set_reconnectTimeoutRef None p).
Proof. intros [H1 [H2 H3]]. split; [exact H1|split; [exact H2|reflexivity]]. Qed.

Lemma stale_alter (f : Socket -> Socket) h p :
  (forall s, handlers (f s) = handlers s) ->
  stays_stale p (set_sockets (alter f h) p).
Proof.
  intros Hf [H1 [H2 H3]]. split; [|split; [exact H2|exact H3]].
  intros h' s Hs.
  change (alter f h (sockets (browser p)) !! h' = Some s) in Hs.
  apply lookup_alter_Some in Hs.
  destruct Hs as [[_ [s0 [Hs0 ->]]]|[_ Hs]].
  - rewrite Hf. now apply (H1 h' s0).
  - now apply (H1 h' s).
Qed.

Lemma stale_new_WebSocket c :
  cl_isStreaming c = false -> keeps stays_stale (Plain.new_WebSocket c).
Proof.
  intros Hc p [H1 [H2 H3]]. split; [|split; [exact H2|exact H3]].
  intros h s Hs.
  change (<[next_handle (browser p) :=
              {| readyState := CONNECTING; sent := []; handlers := c |}]>
            (sockets (browser p)) !! h = Some s) in Hs.
  apply lookup_insert_Some in Hs.
  destruct Hs as [[_ <-]|[_ Hs]]; [exact Hc|now apply (H1 h s)].
Qed.

Lemma stale_setInterval ms : keeps stays_stale (Plain.setInterval CaptureAndSendFrame ms).
Proof.
  intros p [H1 [H2 H3]]. split; [exact H1|split; [|exact H3]].
  intros h t Ht.
  change (<[next_handle (browser p) :=
              {| delay := ms; repeating := true; action := CaptureAndSendFrame |}]>
            (timers (browser p)) !! h = Some t) in Ht.
  apply lookup_insert_Some in Ht.
  destruct Ht as [[_ <-]|[_ Ht]]; [reflexivity|now apply (H2 h t)].
Qed.

(** Closes the goals [keeps_go] leaves for the relation [stays_stale]. *)
Ltac stale_frame_tac :=
  let Hr := fresh "Hrefl" in
  let Ht := fresh "Htrans" in
  pose proof stays_stale_refl as Hr;
  pose proof stays_stale_trans as Ht;
  keeps_go;
  first
    [ apply stale_frame; reflexivity
    | apply stale_clearTimer
    | apply stale_reconnect_none
    | apply stale_alter; intros ?; reflexivity
    | apply stale_new_WebSocket; assumption
    | apply stale_setInterval
    | match goal with H : forall k, keeps stays_stale _ |- _ => apply H end ].

Section Stale.
Variable coerce : jsval -> option Q.

Lemma stale_drawSkeleton keypoints : keeps stays_stale (Skeleton.drawSkeleton coerce keypoints).
Proof.
  apply drawSkeleton_keeps; [apply stays_stale_refl|apply stays_stale_trans|].
  intros c p. apply stale_frame; reflexivity.
Qed.

Lemma stale_onmessage c parsed now : keeps stays_stale (Plain.ws_onmessage coerce c parsed now).
Proof.
  unfold Plain.ws_onmessage, Plain.onmessage_body, Plain.handle_analysis,
    Plain.handle_error, Plain.handle_coaching, Plain.draw_overlay.
  pose proof stale_drawSkeleton. stale_frame_tac.
Qed.

End Stale.

Section StaleSteps.
Variable coerce : jsval -> option Q.

Lemma stale_startStreaming c media played :
  cl_isStreaming c = false -> keeps stays_stale (Plain.startStreaming c media played).
Proof.
  intros Hc. unfold Plain.startStreaming, Plain.connectWebSocket. stale_frame_tac.
Qed.

Lemma stale_stopStreaming : keeps stays_stale Plain.stopStreaming.
Proof. unfold Plain.stopStreaming, Plain.ws_send, Plain.ws_close. stale_frame_tac. Qed.

Lemma stale_onopen : keeps stays_stale Plain.ws_onopen.
Proof. unfold Plain.ws_onopen. stale_frame_tac. Qed.

Lemma stale_onerror : keeps stays_stale Plain.ws_onerror.
Proof. unfold Plain.ws_onerror. stale_frame_tac. Qed.

Lemma stale_onclose c wasClean :
  cl_isStreaming c = false -> keeps stays_stale (Plain.ws_onclose c wasClean).
Proof.
  intros Hc. unfold Plain.ws_onclose. rewrite Hc. cbn [andb when]. stale_frame_tac.
Qed.

Lemma stale_capture frame timestamp :
  keeps stays_stale (Plain.captureAndSendFrame frame timestamp).
Proof. unfold Plain.captureAndSendFrame, Plain.ws_send. stale_frame_tac. Qed.

Lemma stale_set_readyState h st p : stays_stale p (Plain.set_readyState h st p).
Proof. apply stale_alter. reflexivity. Qed.

Lemma stale_step p e : stale p -> stale (Plain.step coerce p e).
Proof.
  intros Hp.
  destruct e as [media played| |h|h parsed now|h|h wasClean|h frame timestamp]; cbn [Plain.step].
  - destruct (isStreaming (ui p)) eqn:E; [exact Hp|].
    apply stale_startStreaming; [exact E|exact Hp].
  - now apply stale_stopStreaming.
  - destruct (sockets (browser p) !! h); [|exact Hp].
    apply stale_onopen. now apply stale_set_readyState.
  - destruct (sockets (browser p) !! h) as [s|]; [|exact Hp].
    now apply (stale_onmessage coerce).
  - destruct (sockets (browser p) !! h); [|exact Hp]. now apply stale_onerror.
  - destruct (sockets (browser p) !! h) as [s|] eqn:Hs; [|exact Hp].
    apply stale_onclose.
    + destruct Hp as [H1 _]. exact (H1 h s Hs).
    + now apply stale_set_readyState.
  - destruct (timers (browser p) !! h) as [t|] eqn:Ht; [|exact Hp].
    assert (Ha : action t = CaptureAndSendFrame) by (destruct Hp as [_ [H2 _]]; exact (H2 h t Ht)).
    rewrite Ha. apply stale_capture.
    destruct (repeating t); [exact Hp|now apply stale_clearTimer].
Qed.

Lemma stale_initial : stale initial_page.
Proof.
  split; [|split; [|reflexivity]].
  - intros h s Hs. change (sockets (browser initial_page)) with (∅ : gmap positive Socket) in Hs.
    rewrite lookup_empty in Hs. discriminate.
  - intros h t Ht. change (timers (browser initial_page)) with (∅ : gmap positive Timer) in Ht.
    rewrite lookup_empty in Ht. discriminate.
Qed.

Lemma stale_run es p : stale p -> stale (Plain.run coerce p es).
Proof.
  revert p. induction es as [|e es IH]; intros p Hp; [exact Hp|].
  cbn [Plain.run fold_left]. apply IH. now apply stale_step.
Qed.

End StaleSteps.

(** C2 on the code. In a session started from a fresh page the open
    socket's handlers were created in a render where [isStreaming] was
    false; when that socket closes with [wasClean = false] while the page
    is streaming, the status becomes [disconnected] and no timer is
    scheduled. And after every sequence of events a close event, clean or
    not, schedules no reconnect. *)
Theorem unclean_close_schedules_no_reconnect :
  (let streaming := Plain.run no_coercion initial_page started_session in
   let closed := Plain.step no_coercion streaming (Plain.SocketClose 1 false) in
   isStreaming (ui streaming) = true /\
   wsRef (refs streaming) = Some 1%positive /\
   (exists s, sockets (browser streaming) !! 1%positive = Some s /\
              readyState s = OPEN /\ cl_isStreaming (handlers s) = false) /\
   connectionStatus (ui closed) = disconnected /\
   reconnectTimeoutRef (refs closed) = None /\
   timers (browser closed) = timers (browser streaming)) /\
  (forall (coerce : jsval -> option Q) (es : list Plain.Event) (h : positive) (wasClean : bool),
     let p := Plain.run coerce initial_page es in
     let q := Plain.step coerce p (Plain.SocketClose h wasClean) in
     reconnectTimeoutRef (refs q) = None /\
     timers (browser q) = timers (browser p)).
Proof.
  split.
  - cbv zeta. split; [reflexivity|]. split; [reflexivity|]. split.
    + eexists. split; [reflexivity|]. split; reflexivity.
    + split; [reflexivity|]. split; reflexivity.
  - intros coerce es h wasClean p q.
    assert (Hp : stale p) by (apply stale_run, stale_initial).
    subst q. cbn [Plain.step].
    destruct (sockets (browser p) !! h) as [s|] eqn:Hs.
    + destruct Hp as [H1 [_ H3]]. specialize (H1 h s Hs).
      unfold Plain.ws_onclose. rewrite H1. cbn [andb when]. split; [exact H3|reflexivity].
    + destruct Hp as [_ [_ H3]]. split; [exact H3|reflexivity].
Qed.

(** C9 on the code. After a frame count of 5 was displayed, an [analysis]
    message whose [frame_num] is 0 or missing displays 0; in general the
    fallback is the [stats.frameCount] of the render the handler was
    created in, whatever the page displays when the message arrives. *)
Theorem frame_count_falls_back_to_the_closure :
  (let shown := Plain.run no_coercion initial_page
       (started_session ++ [Plain.SocketMessage 1 (Normal (analysis_frame (JNum 5))) "12:00:01"]) in
   let zero := Plain.step no_coercion shown
       (Plain.SocketMessage 1 (Normal (analysis_frame (JNum 0))) "12:00:02") in
   let missing := Plain.step no_coercion shown
       (Plain.SocketMessage 1 (Normal analysis_no_frame) "12:00:02") in
   Plain.render_frame (stats (ui shown)) = JNum 5 /\
   Plain.render_frame (stats (ui zero)) = JNum 0 /\
   Plain.render_frame (stats (ui missing)) = JNum 0) /\
  (forall (coerce : jsval -> option Q) (c : Closure) (response : jsval) (now : string) (p : Page),
     is_str (prop response "type") "analysis" = true ->
     truthy (prop response "data") = true ->
     truthy (prop (prop response "data") "frame_num") = false ->
     Plain.render_frame (stats (ui (snd (Plain.ws_onmessage coerce c (Normal response) now p)))) =
       cl_frameCount c).
Proof.
  split.
  - cbv zeta. repeat split; reflexivity.
  - intros coerce c response now p Hty Hdata Hframe.
    rewrite (analysis_stats coerce c response now p Hty Hdata).
    unfold Plain.render_frame, Plain.stats_of_analysis. cbn [frameCount].
    unfold or_else. now rewrite Hframe.
Qed.

(** X2. [connectWebSocket] on a page whose socket is open only logs: it
    creates no socket and changes neither the status nor the refs. *)
Theorem connect_is_idempotent_when_open (c : Closure) (p : Page) :
  Plain.socket_is_open p = true ->
  Plain.connectWebSocket c p = (Normal tt, console_log "WebSocket already connected" p).
Proof.
  intros H. unfold Plain.connectWebSocket. rewrite bind_read, H. reflexivity.
Qed.

Lemma connect_is_idempotent_when_open_witness :
  let opened := Plain.run no_coercion initial_page started_session in
  Plain.socket_is_open opened = true /\
  sockets (browser (snd (Plain.connectWebSocket (Plain.closure_of_render opened) opened))) =
    sockets (browser opened) /\
  connectionStatus (ui (snd (Plain.connectWebSocket (Plain.closure_of_render opened) opened))) =
    connected.
Proof.
  cbv zeta.
  assert (H : Plain.socket_is_open (Plain.run no_coercion initial_page started_session) = true)
    by reflexivity.
  split; [exact H|].
  rewrite (connect_is_idempotent_when_open _ _ H). split; reflexivity.
Defined.

(** ** Speech synthesis in the hardened variant *)





Lemma speak_queue text rate p :
  Hardened.speak text rate p =
  (Normal tt,
   set_speech (fun _ => [{| u_text := text; u_rate := rate; u_pitch := 1.0; u_volume := 0.9 |}]) p).
Proof.
  unfold Hardened.speak. rewrite bind_read.
  destruct p as [u r b]. destruct b as [so ti tr nh sp co ov ca vi].
  destruct sp as [q|]; reflexivity.
Qed.




Section Calm.
Variable coerce : jsval -> option Q.





End Calm.


(** ** Speech recognition *)

(** C6. Without a speech-recognition engine, [startRecognition] returns
    [false] without raising, calls the error callback (when one is
    configured) with the not-supported message, and leaves the hook's refs
    alone; with an engine that constructs and starts, it returns [true];
    and with any engine it returns a boolean rather than raising. *)
Theorem startRecognition_without_engine
    (cfg : SpeechToText.Config) (h : SpeechToText.Hook) :
  let out := SpeechToText.startRecognition cfg None h in
  fst out = Normal false /\
  SpeechToText.callbacks (snd out) =
    (if SpeechToText.has_onError cfg
     then SpeechToText.callbacks h ++ [SpeechToText.OnError SpeechToText.NOT_SUPPORTED]
     else SpeechToText.callbacks h)%list /\
  SpeechToText.recognitionRef (snd out) = SpeechToText.recognitionRef h /\
  SpeechToText.isListening (snd out) = SpeechToText.isListening h /\
  fst (SpeechToText.startRecognition cfg (Some SpeechToText.Works) h) = Normal true /\
  (forall e, exists started,
     fst (SpeechToText.startRecognition cfg (Some e) h) = Normal started).
Proof.
  cbv zeta. unfold SpeechToText.startRecognition, SpeechToText.call_onError.
  split; [reflexivity|]. split; [destruct (SpeechToText.has_onError cfg); reflexivity|].
  split; [destruct (SpeechToText.has_onError cfg); reflexivity|].
  split; [destruct (SpeechToText.has_onError cfg); reflexivity|].
  split; [reflexivity|].
  intros [|err|err]; eexists; reflexivity.
Qed.

(** ** Voice activity detection *)

Module VoiceDetectionFacts.
Import VoiceDetection.
Local Open Scope Z_scope.

Lemma run_snoc cfg h es e : run cfg h (es ++ [e]) = step cfg (run cfg h es) e.
Proof. unfold run. now rewrite fold_left_app. Qed.

Lemma explained_nil cfg : explained cfg [].
Proof.
  split.
  - reflexivity.
  - intros armed H. discriminate H.
  - intros H. discriminate H.
Qed.

Lemma extend_window cfg es e armed :
  quiet cfg e ->
  (exists before bins window,
      es = (before ++ Frame armed bins :: window)%list /\
      hasSpeech cfg bins = false /\
      Forall (quiet cfg) window /\
      isSpeaking (run cfg listening before) = true) ->
  exists before bins window,
      (es ++ [e])%list = (before ++ Frame armed bins :: window)%list /\
      hasSpeech cfg bins = false /\
      Forall (quiet cfg) window /\
      isSpeaking (run cfg listening before) = true.
Proof.
  intros Hq [before [bins [window [-> [Hb [Hw Hs]]]]]].
  exists before, bins, (window ++ [e])%list.
  split; [now rewrite <- app_assoc|].
  split; [exact Hb|]. split; [|exact Hs].
  apply Forall_app. split; [exact Hw|]. now constructor.
Qed.

Lemma extend_later cfg es e (start : option Z) :
  (exists s earlier loud later,
      start = Some s /\
      es = (earlier ++ Frame s loud :: later)%list /\
      hasSpeech cfg loud = true /\
      isSpeaking (run cfg listening earlier) = false) ->
  exists s earlier loud later,
      start = Some s /\
      (es ++ [e])%list = (earlier ++ Frame s loud :: later)%list /\
      hasSpeech cfg loud = true /\
      isSpeaking (run cfg listening earlier) = false.
Proof.
  intros [s [earlier [loud [later [Hs [-> [Hl He]]]]]]].
  exists s, earlier, loud, (later ++ [e])%list.
  split; [exact Hs|]. split; [now rewrite <- app_assoc|]. split; assumption.
Qed.

Lemma explained_snoc cfg es e : explained cfg es -> explained cfg (es ++ [e]).
Proof.
  intros [Ha Ht Hs]. set (h := run cfg listening es) in *.
  destruct e as [now bins|now].
  - (* an animation frame *)
    assert (E : run cfg listening (es ++ [Frame now bins]) = analyzeAudio cfg now bins h)
      by (rewrite run_snoc; reflexivity).
    unfold analyzeAudio in E. rewrite Ha in E. cbn [negb] in E.
    destruct (hasSpeech cfg bins) eqn:Hloud.
    + split; rewrite E; cbn [analyserRef silenceTimerRef isSpeaking speechStartTimeRef].
      * reflexivity.
      * intros armed H. discriminate H.
      * intros _. destruct (isSpeaking h) eqn:Hsp.
        -- apply extend_later. now apply Hs.
        -- exists now, es, bins, []. repeat split; assumption.
    + split; rewrite E; cbn [analyserRef silenceTimerRef isSpeaking speechStartTimeRef].
      * reflexivity.
      * intros armed H. destruct (silenceTimerRef h) as [a|] eqn:Hta.
        -- injection H as <-. destruct (Ht a eq_refl) as [Hsp Hw].
           split; [exact Hsp|]. apply extend_window; [exact Hloud|exact Hw].
        -- destruct (isSpeaking h) eqn:Hsp; [|discriminate H].
           injection H as <-. split; [reflexivity|].
           exists es, bins, []. repeat split; try assumption. constructor.
      * intros Hsp. apply extend_later. now apply Hs.
  - (* the silence timer *)
    assert (E : run cfg listening (es ++ [SilenceTimer now]) =
                match silenceTimerRef h with
                | Some armed =>
                    if armed + silenceDuration cfg <=? now
                    then silence_timeout cfg now h else h
                | None => h
                end)
      by (rewrite run_snoc; reflexivity).
    assert (Hsame : run cfg listening (es ++ [SilenceTimer now]) = h ->
                    explained cfg (es ++ [SilenceTimer now])).
    { intros Eh. split; rewrite Eh.
      - exact Ha.
      - intros armed H. destruct (Ht armed H) as [Hsp Hw].
        split; [exact Hsp|]. apply extend_window; [exact I|exact Hw].
      - intros Hsp. apply extend_later. now apply Hs. }
    destruct (silenceTimerRef h) as [armed|]; [|exact (Hsame E)].
    destruct (armed + silenceDuration cfg <=? now); [|exact (Hsame E)].
    split; rewrite E; cbn [silence_timeout analyserRef silenceTimerRef isSpeaking].
    + exact Ha.
    + intros a H. discriminate H.
    + intros H. discriminate H.
Qed.

Lemma explained_run cfg es : explained cfg es.
Proof.
  induction es as [|e es IH] using rev_ind; [apply explained_nil|].
  now apply explained_snoc.
Qed.




End VoiceDetectionFacts.

Import Session.

Lemma startStreaming_denied c e played p :
  Plain.startStreaming c (Throw e) played p = (Normal tt, camera_error (setError JNull p)).
Proof. reflexivity. Qed.

Lemma startStreaming_play_rejected c s p v :
  video (browser p) = Some v ->
  Plain.startStreaming c (Normal s) false p =
  (Normal tt, camera_error (set_srcObject (Some s) (acquire s (setError JNull p)))).
Proof.
  intros Hv. destruct p as [u r b]. destruct b as [so ti tr nh sp co ov ca vi].
  cbn in Hv. subst vi. reflexivity.
Qed.

Lemma startStreaming_started c s played p :
  wsRef (refs p) = None ->
  video (browser p) = None \/ played = true ->
  let q := snd (Plain.startStreaming c (Normal s) played p) in
  let h := next_handle (browser p) in
  sockets (browser q) =
    <[h := {| readyState := CONNECTING; sent := []; handlers := c |}]> (sockets (browser p)) /\
  timers (browser q) = <[Pos.succ h := frame_interval]> (timers (browser p)) /\
  refs q = {| wsRef := Some h; streamRef := Some s; frameIntervalRef := Some (Pos.succ h);
              reconnectTimeoutRef := reconnectTimeoutRef (refs p) |} /\
  isStreaming (ui q) = true /\
  connectionStatus (ui q) = connecting /\
  tracks (browser q) = fold_right (fun h acc => <[h := true]> acc) (tracks (browser p)) s.
Proof.
  intros Hws Hplay. destruct p as [u [ws st fi rt] b]. destruct b as [so ti tr nh sp co ov ca vi].
  cbn in Hws. subst ws.
  assert (Hv : vi = None \/ played = true) by exact Hplay. clear Hplay.
  destruct vi as [v|]; [destruct Hv as [Hv|Hv]; [discriminate|subst played]|];
    destruct ca, ov; cbv zeta; repeat split; reflexivity.
Qed.

(** ** Sessions *)

Lemma tidy_frame p q :
  sockets (browser q) = sockets (browser p) ->
  timers (browser q) = timers (browser p) ->
  frameIntervalRef (refs q) = frameIntervalRef (refs p) ->
  wsRef (refs q) = wsRef (refs p) ->
  reconnectTimeoutRef (refs q) = reconnectTimeoutRef (refs p) ->
  isStreaming (ui q) = isStreaming (ui p) ->
  tidy p -> tidy q.
Proof.
  intros E1 E2 E3 E4 E5 E6 [[H1 [H2 H3]] Ht Hs Hi Hm].
  split; [split; [|split]|..]; rewrite ?E1, ?E2, ?E3, ?E4, ?E5, ?E6; assumption.
Qed.

Lemma tidy_core p q : core q = core p -> tidy p -> tidy q.
Proof.
  unfold core. intros E. injection E as E1 E2 E3 E4 E5.
  apply tidy_frame; congruence.
Qed.

Section Core.
Variable coerce : jsval -> option Q.

Ltac core_frame :=
  let Hr := fresh "Hrefl" in
  let Ht := fresh "Htrans" in
  pose proof (@same_refl _ core) as Hr;
  pose proof (@same_trans _ core) as Ht;
  keeps_go;
  first
    [ reflexivity
    | intros ?; reflexivity
    | match goal with H : forall k, keeps (same core) _ |- _ => apply H end ].

Lemma core_drawSkeleton keypoints : keeps (same core) (Skeleton.drawSkeleton coerce keypoints).
Proof.
  apply drawSkeleton_keeps; [apply same_refl|apply same_trans|].
  intros c p. reflexivity.
Qed.

Lemma core_onmessage c parsed now : keeps (same core) (Plain.ws_onmessage coerce c parsed now).
Proof.
  unfold Plain.ws_onmessage, Plain.onmessage_body, Plain.handle_analysis,
    Plain.handle_error, Plain.handle_coaching, Plain.draw_overlay.
  pose proof core_drawSkeleton. core_frame.
Qed.

Lemma core_onopen : keeps (same core) Plain.ws_onopen.
Proof. unfold Plain.ws_onopen. core_frame. Qed.

Lemma core_onerror : keeps (same core) Plain.ws_onerror.
Proof. unfold Plain.ws_onerror. core_frame. Qed.

Lemma core_onclose c wasClean :
  cl_isStreaming c = false -> keeps (same core) (Plain.ws_onclose c wasClean).
Proof. intros Hc. unfold Plain.ws_onclose. rewrite Hc. cbn [andb when]. core_frame. Qed.

End Core.

Lemma frames_only_then_end l :
  forallb Session.is_frame l = true -> Session.frames_then_end l = true.
Proof.
  induction l as [|[f t|] l IH]; cbn; intros H; [reflexivity|now apply IH|discriminate].
Qed.

Lemma frames_closed_by_end l :
  forallb Session.is_frame l = true -> Session.frames_then_end (l ++ [EndMsg]) = true.
Proof.
  induction l as [|[f t|] l IH]; cbn; intros H; [reflexivity|now apply IH|discriminate].
Qed.

Lemma frames_one_more l f t :
  forallb Session.is_frame l = true -> forallb Session.is_frame (l ++ [FrameMsg f t]) = true.
Proof. intros H. rewrite forallb_app, H. reflexivity. Qed.

Lemma captureAndSendFrame_cases frame timestamp p :
  Plain.captureAndSendFrame frame timestamp p = (Normal tt, p) \/
  exists h, wsRef (refs p) = Some h /\ Plain.socket_is_open p = true /\
    Plain.captureAndSendFrame frame timestamp p =
      (Normal tt, Plain.ws_send h (FrameMsg frame timestamp) p).
Proof.
  unfold Plain.captureAndSendFrame. rewrite !bind_read.
  destruct (capture (browser p)); [|now left].
  destruct (video (browser p)); [|now left].
  destruct (wsRef (refs p)) as [h|] eqn:Hws; [|now left].
  destruct (Plain.socket_is_open p) eqn:Hopen; [|now left].
  right. exists h. repeat split.
Qed.

Lemma tidy_set_readyState h st p : tidy p -> tidy (Plain.set_readyState h st p).
Proof.
  intros [Hst Ht Hs Hi Hm]. split; try assumption.
  - revert Hst. apply stale_alter. reflexivity.
  - intros h' s Hs'.
    change (alter (fun s => {| readyState := st; sent := sent s; handlers := handlers s |}) h
              (sockets (browser p)) !! h' = Some s) in Hs'.
    apply lookup_alter_Some in Hs'.
    destruct Hs' as [[_ [s0 [Hs0 ->]]]|[_ Hs']]; [exact (Hm h' s0 Hs0)|exact (Hm h' s Hs')].
Qed.

Lemma tidy_send_frame h f t p :
  wsRef (refs p) = Some h -> tidy p -> tidy (Plain.ws_send h (FrameMsg f t) p).
Proof.
  intros Hws [Hst Ht Hs Hi Hm]. split; try assumption.
  - revert Hst. apply stale_alter. reflexivity.
  - intros h' s Hs'.
    change (alter (fun s => {| readyState := readyState s;
                               sent := (sent s ++ [FrameMsg f t])%list;
                               handlers := handlers s |}) h
              (sockets (browser p)) !! h' = Some s) in Hs'.
    apply lookup_alter_Some in Hs'.
    destruct Hs' as [[<- [s0 [Hs0 ->]]]|[_ Hs']]; [|exact (Hm h' s Hs')].
    cbn [sent]. destruct (Hm h s0 Hs0) as [_ Hfr]. specialize (Hfr Hws).
    split; [apply frames_only_then_end|intros _]; now apply frames_one_more.
Qed.

Lemma tidy_no_timer p : tidy p -> isStreaming (ui p) = false -> timers (browser p) = ∅.
Proof.
  intros [_ Ht _ Hi _] Hs. destruct (Hi Hs) as [Hf _].
  apply map_empty. intros h. destruct (timers (browser p) !! h) as [t|] eqn:E; [|reflexivity].
  destruct (Ht h t E) as [Hh _]. congruence.
Qed.

Lemma tidy_stopped p : tidy p -> tidy (stopped p).
Proof.
  intros Hp. pose proof Hp as [Hst Ht Hs Hi Hm].
  assert (Hrt : reconnectTimeoutRef (refs p) = None) by (destruct Hst as [_ [_ H]]; exact H).
  assert (Htimers : timers (browser (stopped p)) = ∅).
  { rewrite timers_stopped, Hrt. apply map_empty. intros h.
    destruct (frameIntervalRef (refs p)) as [f|] eqn:Hf.
    - destruct (decide (f = h)) as [->|Hne]; [apply lookup_delete_eq|].
      rewrite lookup_delete_ne by assumption.
      destruct (timers (browser p) !! h) as [t|] eqn:E; [|reflexivity].
      destruct (Ht h t E) as [Hh _]. congruence.
    - destruct (timers (browser p) !! h) as [t|] eqn:E; [|reflexivity].
      destruct (Ht h t E) as [Hh _]. congruence. }
  split.
  - pose proof (stale_stopStreaming p) as H. rewrite stopStreaming_stopped in H.
    exact (H Hst).
  - intros h t E. rewrite Htimers, lookup_empty in E. discriminate.
  - destruct (ui_stopped p) as [E _]. rewrite E. discriminate.
  - intros _. rewrite refs_stopped. split; reflexivity.
  - intros h s E. rewrite refs_stopped. cbn [wsRef]. split; [|discriminate].
    rewrite sockets_stopped in E.
    destruct (wsRef (refs p)) as [w|] eqn:Hw; [|exact (proj1 (Hm h s E))].
    destruct (decide (w = h)) as [->|Hne].
    + destruct (sockets (browser p) !! h) as [s0|] eqn:Hs0.
      * destruct (socket_stopped p h s0 Hw Hs0) as [s' [Hs' [Hsent _]]].
        rewrite sockets_stopped, Hw in Hs'. rewrite Hs' in E. injection E as <-.
        rewrite Hsent. destruct (Hm h s0 Hs0) as [Hfe Hfr]. specialize (Hfr eq_refl).
        destruct (readyState s0); rewrite ?app_nil_r;
          [exact Hfe|now apply frames_closed_by_end|exact Hfe|exact Hfe].
      * exfalso. rewrite lookup_alter_eq in E.
        destruct (Plain.socket_is_open p); rewrite ?lookup_alter_eq, Hs0 in E; discriminate.
    + rewrite lookup_alter_ne in E by assumption.
      destruct (Plain.socket_is_open p); [rewrite lookup_alter_ne in E by assumption|];
        exact (proj1 (Hm h s E)).
Qed.

Lemma run_handler_core (m : M unit) p :
  keeps (same core) m -> core (Plain.run_handler m p) = core p.
Proof. intros H. apply H. Qed.

Lemma tidy_started c s played p :
  tidy p -> isStreaming (ui p) = false ->
  video (browser p) = None \/ played = true ->
  cl_isStreaming c = false ->
  tidy (snd (Plain.startStreaming c (Normal s) played p)).
Proof.
  intros Hp Hoff Hplay Hc. pose proof Hp as [Hst Ht Hs Hi Hm].
  destruct (Hi Hoff) as [Hfi Hws].
  pose proof (tidy_no_timer p Hp Hoff) as Hnone.
  destruct (startStreaming_started c s played p Hws Hplay) as [Eso [Eti [Ere [Eis _]]]].
  split.
  - apply (stale_startStreaming c (Normal s) played Hc p Hst).
  - intros h t E. rewrite Eti, Hnone in E. apply lookup_insert_Some in E.
    destruct E as [[<- <-]|[_ E]]; [|rewrite lookup_empty in E; discriminate].
    rewrite Ere. split; reflexivity.
  - intros _. eexists. rewrite Ere, Eti. split; [reflexivity|apply lookup_insert_eq].
  - rewrite Eis. discriminate.
  - intros h s0 E. rewrite Eso in E. apply lookup_insert_Some in E.
    destruct E as [[_ <-]|[Hne E]].
    + split; [reflexivity|intros _; reflexivity].
    + split; [exact (proj1 (Hm h s0 E))|].
      rewrite Ere. cbn [wsRef]. intros H. congruence.
Qed.

Section TidySteps.
Variable coerce : jsval -> option Q.

Lemma tidy_step p e : tidy p -> tidy (Plain.step coerce p e).
Proof.
  intros Hp. pose proof Hp as [Hst Ht Hs Hi Hm].
  destruct e as [media played| |h|h parsed now|h|h wasClean|h frame timestamp]; cbn [Plain.step].
  - destruct (isStreaming (ui p)) eqn:Hoff; [exact Hp|].
    unfold Plain.run_handler.
    destruct media as [s|e].
    + destruct (video (browser p)) as [v|] eqn:Hv.
      * destruct played.
        -- apply tidy_started; auto.
        -- rewrite (startStreaming_play_rejected _ _ _ v Hv). cbn [snd].
           revert Hp. apply tidy_frame; reflexivity.
      * apply tidy_started; auto.
    + rewrite startStreaming_denied. cbn [snd]. revert Hp. apply tidy_frame; reflexivity.
  - unfold Plain.run_handler. rewrite stopStreaming_stopped. now apply tidy_stopped.
  - destruct (sockets (browser p) !! h); [|exact Hp].
    apply (tidy_core (Plain.set_readyState h OPEN p)).
    + apply run_handler_core, core_onopen.
    + now apply tidy_set_readyState.
  - destruct (sockets (browser p) !! h) as [s|]; [|exact Hp].
    revert Hp. apply tidy_core. apply run_handler_core, core_onmessage.
  - destruct (sockets (browser p) !! h); [|exact Hp].
    revert Hp. apply tidy_core. apply run_handler_core, core_onerror.
  - destruct (sockets (browser p) !! h) as [s|] eqn:E; [|exact Hp].
    apply (tidy_core (Plain.set_readyState h CLOSED p)).
    + apply run_handler_core, core_onclose. destruct Hst as [H1 _]. exact (H1 h s E).
    + now apply tidy_set_readyState.
  - destruct (timers (browser p) !! h) as [t|] eqn:E; [|exact Hp].
    destruct (Ht h t E) as [_ ->]. cbn [Session.frame_interval repeating action].
    unfold Plain.run_handler.
    destruct (captureAndSendFrame_cases frame timestamp p) as [->|[w [Hw [_ ->]]]];
      cbn [snd]; [exact Hp|now apply tidy_send_frame].
Qed.

Lemma tidy_initial : tidy initial_page.
Proof.
  split.
  - apply stale_initial.
  - intros h t E. change (timers (browser initial_page)) with (∅ : gmap positive Timer) in E.
    rewrite lookup_empty in E. discriminate.
  - intros H. discriminate H.
  - intros _. split; reflexivity.
  - intros h s E. change (sockets (browser initial_page)) with (∅ : gmap positive Socket) in E.
    rewrite lookup_empty in E. discriminate.
Qed.

Lemma tidy_run es p : tidy p -> tidy (Plain.run coerce p es).
Proof.
  revert p. induction es as [|e es IH]; intros p Hp; [exact Hp|].
  cbn [Plain.run fold_left]. apply IH. now apply tidy_step.
Qed.

End TidySteps.

(** X4. After any sequence of events on the plain meeting page, what was
    sent on a socket is a run of frame messages closed by at most one
    [end] notice: nothing is ever sent after the notice, and the socket
    [wsRef] holds has not sent it. *)
Theorem end_notice_is_sent_last
    (coerce : jsval -> option Q) (es : list Plain.Event) (h : positive) (s : Socket) :
  sockets (browser (Plain.run coerce initial_page es)) !! h = Some s ->
  Session.frames_then_end (sent s) = true /\
  (wsRef (refs (Plain.run coerce initial_page es)) = Some h ->
   forallb Session.is_frame (sent s) = true).
Proof.
  intros Hs.
  assert (Hp : tidy (Plain.run coerce initial_page es)) by (apply tidy_run, tidy_initial).
  exact (tidy_sent _ Hp h s Hs).
Qed.

Lemma end_notice_is_sent_last_witness :
  let es := (started_session ++
             [Plain.TimerFires 2 "data:image/jpeg" 1; Plain.ClickStop])%list in
  let s := {| readyState := CLOSING; sent := [FrameMsg "data:image/jpeg" 1; EndMsg];
              handlers := Plain.closure_of_render initial_page |} in
  sockets (browser (Plain.run no_coercion initial_page es)) !! 1%positive = Some s /\
  Session.frames_then_end (sent s) = true.
Proof.
  cbv zeta.
  assert (H : sockets (browser (Plain.run no_coercion initial_page
               (started_session ++ [Plain.TimerFires 2 "data:image/jpeg" 1; Plain.ClickStop])))
              !! 1%positive =
              Some {| readyState := CLOSING; sent := [FrameMsg "data:image/jpeg" 1; EndMsg];
                      handlers := Plain.closure_of_render initial_page |})
    by (vm_compute; reflexivity).
  split; [exact H|].
  exact (proj1 (end_notice_is_sent_last no_coercion _ _ _ H)).
Defined.

Lemma one_socket_frame p q :
  sockets (browser q) = sockets (browser p) -> wsRef (refs q) = wsRef (refs p) ->
  one_socket p -> one_socket q.
Proof. unfold one_socket. intros -> ->. auto. Qed.

Lemma one_socket_core p q : core q = core p -> one_socket p -> one_socket q.
Proof.
  unfold core. intros E. injection E as E1 E2 E3 E4 E5.
  apply one_socket_frame; congruence.
Qed.

Lemma one_socket_alter (f : Socket -> Socket) h p :
  (forall s, Session.live (f s) = true -> Session.live s = true \/ wsRef (refs p) = Some h) ->
  one_socket p -> one_socket (set_sockets (alter f h) p).
Proof.
  intros Hf H h' s Hs Hl.
  change (alter f h (sockets (browser p)) !! h' = Some s) in Hs.
  change (wsRef (refs p) = Some h').
  apply lookup_alter_Some in Hs.
  destruct Hs as [[<- [s0 [Hs0 ->]]]|[_ Hs]]; [|exact (H h' s Hs Hl)].
  destruct (Hf s0 Hl) as [Hl0|Hw]; [exact (H h s0 Hs0 Hl0)|exact Hw].
Qed.

Lemma one_socket_stopped p : one_socket p -> one_socket (stopped p).
Proof.
  intros H h s Hs Hl. exfalso.
  rewrite sockets_stopped in Hs.
  destruct (wsRef (refs p)) as [w|] eqn:Hw.
  - destruct (decide (w = h)) as [->|Hne].
    + destruct (sockets (browser p) !! h) as [s0|] eqn:Hs0.
      * destruct (socket_stopped p h s0 Hw Hs0) as [s' [Hs' [_ Hst]]].
        rewrite sockets_stopped, Hw in Hs'. rewrite Hs' in Hs. injection Hs as <-.
        unfold Session.live in Hl. rewrite Hst in Hl. destruct (readyState s0); discriminate.
      * rewrite lookup_alter_eq in Hs.
        destruct (Plain.socket_is_open p); rewrite ?lookup_alter_eq, Hs0 in Hs; discriminate.
    + rewrite lookup_alter_ne in Hs by assumption.
      destruct (Plain.socket_is_open p); [rewrite lookup_alter_ne in Hs by assumption|];
        specialize (H h s Hs Hl); congruence.
  - specialize (H h s Hs Hl). congruence.
Qed.

Lemma one_socket_initial : one_socket initial_page.
Proof.
  intros h s E. change (sockets (browser initial_page)) with (∅ : gmap positive Socket) in E.
  rewrite lookup_empty in E. discriminate.
Qed.



Lemma running_in_acquired (s : list positive) (t : gmap positive bool) (h : positive) :
  In h s -> Session.is_running (fold_right (fun h acc => <[h := true]> acc) t s) h = true.
Proof.
  induction s as [|a s IH]; intros Hin; [destruct Hin|].
  cbn [fold_right]. unfold Session.is_running.
  destruct (decide (a = h)) as [->|Hne]; [now rewrite lookup_insert_eq|].
  rewrite lookup_insert_ne by assumption. apply IH.
  destruct Hin; [contradiction|assumption].
Qed.

(** X7. A start that fails leaves no session behind. When the camera is
    refused, [startStreaming] returns normally, shows the camera error
    and changes no socket, timer, track or ref. When [video.play()]
    rejects, it returns normally with the same error, opens no socket,
    starts no timer and leaves [isStreaming] as it was, but the stream it
    was granted stays in [streamRef] with every track running. *)
Theorem failed_start_opens_nothing
    (c : Closure) (e : string) (s : list positive) (played : bool) (p : Page)
    (v : option (list positive)) :
  video (browser p) = Some v ->
  let denied := Plain.startStreaming c (Throw e) played p in
  let rejected := Plain.startStreaming c (Normal s) false p in
  (fst denied = Normal tt /\
   core (snd denied) = core p /\
   error_banner (ui (snd denied)) =
     JStr "Could not access camera. Please allow camera permissions.") /\
  (fst rejected = Normal tt /\
   sockets (browser (snd rejected)) = sockets (browser p) /\
   timers (browser (snd rejected)) = timers (browser p) /\
   wsRef (refs (snd rejected)) = wsRef (refs p) /\
   frameIntervalRef (refs (snd rejected)) = frameIntervalRef (refs p) /\
   isStreaming (ui (snd rejected)) = isStreaming (ui p) /\
   error_banner (ui (snd rejected)) =
     JStr "Could not access camera. Please allow camera permissions." /\
   streamRef (refs (snd rejected)) = Some s /\
   video (browser (snd rejected)) = Some (Some s) /\
   forall h, In h s -> Session.is_running (tracks (browser (snd rejected))) h = true).
Proof.
  intros Hv denied rejected. subst denied rejected.
  rewrite startStreaming_denied, (startStreaming_play_rejected c s p v Hv). cbn [fst snd].
  split; [repeat split|].
  split; [reflexivity|].
  destruct p as [u r b]. destruct b as [so ti tr nh sp co ov ca vi]. cbn in Hv. subst vi.
  repeat split. intros h Hin. now apply running_in_acquired.
Qed.

Lemma failed_start_opens_nothing_witness :
  video (browser initial_page) = Some None /\
  Session.is_running
    (tracks (browser (snd (Plain.startStreaming (Plain.closure_of_render initial_page)
                             (Normal [7%positive]) false initial_page)))) 7%positive = true /\
  isStreaming (ui (snd (Plain.startStreaming (Plain.closure_of_render initial_page)
                          (Normal [7%positive]) false initial_page))) = false.
Proof.
  split; [reflexivity|].
  destruct (failed_start_opens_nothing (Plain.closure_of_render initial_page) "NotAllowedError"
              [7%positive] true initial_page None eq_refl)
    as [_ [_ [_ [_ [_ [_ [His [_ [_ [_ Hrun]]]]]]]]]].
  split; [apply Hrun; now left|exact His].
Defined.

(** ** The life of a mounted page *)

Lemma run_stop p : Plain.run_handler Plain.stopStreaming p = stopped p.
Proof. unfold Plain.run_handler. now rewrite stopStreaming_stopped. Qed.

(** The segments of [startStreaming], run back to back, are the function
    [Plain.step] runs at a click on Start. *)
Lemma start_at_once_is_startStreaming c media played p :
  Flow.start_at_once c media played p = Plain.startStreaming c media played p.
Proof.
  destruct p as [u [[w|] st fi rt] b]; destruct b as [so ti tr nh sp co ov ca vi];
    (destruct media as [s|e]; [|reflexivity]);
    unfold Plain.startStreaming, Flow.start_at_once, Flow.start_begin, Flow.camera_settled,
      Flow.play_settled, Flow.start_finish, Flow.start_failed, Plain.connectWebSocket,
      Plain.socket_is_open, try_catch, Page.bind, effect, read, lift, when, ret, throw;
    cbn [browser refs wsRef sockets video capture overlay set_tracks set_streamRef
         set_srcObject set_capture set_overlay setError with_ui with_refs with_browser
         option_map];
    (destruct vi as [v|]; [destruct played|]); destruct ca, ov;
    cbn [browser refs wsRef sockets video capture overlay set_tracks set_streamRef
         set_srcObject set_capture set_overlay setError with_ui with_refs with_browser
         option_map];
    try (destruct (so !! w) as [[[] se ha]|]); reflexivity.
Qed.

Lemma start_finish_started c p :
  wsRef (refs p) = None ->
  let q := snd (Flow.start_finish c p) in
  let h := next_handle (browser p) in
  sockets (browser q) =
    <[h := {| readyState := CONNECTING; sent := []; handlers := c |}]> (sockets (browser p)) /\
  timers (browser q) = <[Pos.succ h := Session.frame_interval]> (timers (browser p)) /\
  refs q = {| wsRef := Some h; streamRef := streamRef (refs p);
              frameIntervalRef := Some (Pos.succ h);
              reconnectTimeoutRef := reconnectTimeoutRef (refs p) |} /\
  isStreaming (ui q) = true /\
  tracks (browser q) = tracks (browser p).
Proof.
  intros Hws. destruct p as [u [ws st fi rt] b]. destruct b as [so ti tr nh sp co ov ca vi].
  cbn in Hws. subst ws. destruct ca, ov; cbv zeta; repeat split; reflexivity.
Qed.

Lemma start_finish_normal c p : fst (Flow.start_finish c p) = Normal tt.
Proof.
  destruct p as [u [[w|] st fi rt] b]; destruct b as [so ti tr nh sp co ov ca vi];
    unfold Flow.start_finish, Plain.connectWebSocket, Plain.socket_is_open,
      Page.bind, effect, read, when, ret;
    cbn [browser refs wsRef sockets capture overlay];
    destruct ca, ov;
    cbn [browser refs wsRef sockets set_capture set_overlay with_browser option_map];
    try (destruct (so !! w) as [[[] se ha]|]); reflexivity.
Qed.

Lemma camera_settled_refused c err p :
  Flow.camera_settled c (Throw err) p = (Normal false, Session.camera_error p).
Proof. reflexivity. Qed.

Lemma camera_settled_video c s p v :
  video (browser p) = Some v ->
  Flow.camera_settled c (Normal s) p =
  (Normal true, set_srcObject (Some s) (Session.acquire s p)).
Proof.
  intros Hv. unfold Flow.camera_settled, Page.bind, effect, read, ret.
  cbn [browser video set_tracks set_streamRef with_refs with_browser].
  rewrite Hv. reflexivity.
Qed.

Lemma camera_settled_no_video c s p :
  video (browser p) = None ->
  Flow.camera_settled c (Normal s) p =
  (Normal false, snd (Flow.start_finish c (Session.acquire s p))).
Proof.
  intros Hv. unfold Flow.camera_settled, Page.bind, effect, read, ret.
  cbn [browser video set_tracks set_streamRef with_refs with_browser].
  rewrite Hv. unfold Session.acquire.
  match goal with
  | |- context [Flow.start_finish c ?q] =>
      pose proof (start_finish_normal c q) as Hn;
      destruct (Flow.start_finish c q) as [[[]|err] q']
  end; [reflexivity|discriminate Hn].
Qed.

Lemma stale_start_finish c :
  cl_isStreaming c = false -> keeps stays_stale (Flow.start_finish c).
Proof. intros Hc. unfold Flow.start_finish, Plain.connectWebSocket. stale_frame_tac. Qed.

Lemma tidy_finish c p :
  tidy p -> isStreaming (ui p) = false -> cl_isStreaming c = false ->
  tidy (snd (Flow.start_finish c p)).
Proof.
  intros Hp Hoff Hc. pose proof Hp as [Hst Ht Hs Hi Hm].
  destruct (Hi Hoff) as [Hfi Hws].
  pose proof (tidy_no_timer p Hp Hoff) as Hnone.
  destruct (start_finish_started c p Hws) as [Eso [Eti [Ere [Eis _]]]].
  split.
  - apply (stale_start_finish c Hc p Hst).
  - intros h t E. rewrite Eti, Hnone in E. apply lookup_insert_Some in E.
    destruct E as [[<- <-]|[_ E]]; [|rewrite lookup_empty in E; discriminate].
    rewrite Ere. split; reflexivity.
  - intros _. eexists. rewrite Ere, Eti. split; [reflexivity|apply lookup_insert_eq].
  - rewrite Eis. discriminate.
  - intros h s0 E. rewrite Eso in E. apply lookup_insert_Some in E.
    destruct E as [[_ <-]|[Hne E]].
    + split; [reflexivity|intros _; reflexivity].
    + split; [exact (proj1 (Hm h s0 E))|].
      rewrite Ere. cbn [wsRef]. intros H. congruence.
Qed.

(** What an event on a socket or a streaming timer leaves alone. *)
Lemma delivery coerce p e pe :
  Flow.delivered e = Some pe -> stale p ->
  let q := Plain.step coerce p pe in
  isStreaming (ui q) = isStreaming (ui p) /\
  refs q = refs p /\
  tracks (browser q) = tracks (browser p) /\
  (timers (browser p) = ∅ -> timers (browser q) = ∅).
Proof.
  intros He Hst.
  assert (Hcore : forall base q : Page, core q = core base ->
            isStreaming (ui q) = isStreaming (ui base) /\ refs q = refs base /\
            tracks (browser q) = tracks (browser base) /\
            timers (browser q) = timers (browser base)).
  { intros base q E. unfold core in E. injection E as E1 E2 E3 E4 E5. now repeat split. }
  destruct e; try discriminate He; injection He as <-; cbn [Plain.step]; cbv zeta.
  - destruct (sockets (browser p) !! h); [|now repeat split].
    destruct (Hcore (Plain.set_readyState h OPEN p) _
                (run_handler_core Plain.ws_onopen _ core_onopen)) as [E1 [E2 [E3 E4]]].
    rewrite E1, E2, E3, E4. now repeat split.
  - destruct (sockets (browser p) !! h) as [s|]; [|now repeat split].
    destruct (Hcore p _ (run_handler_core _ p (core_onmessage coerce (handlers s) parsed now)))
      as [E1 [E2 [E3 E4]]].
    rewrite E1, E2, E3, E4. now repeat split.
  - destruct (sockets (browser p) !! h); [|now repeat split].
    destruct (Hcore p _ (run_handler_core Plain.ws_onerror p core_onerror)) as [E1 [E2 [E3 E4]]].
    rewrite E1, E2, E3, E4. now repeat split.
  - destruct (sockets (browser p) !! h) as [s|] eqn:Hs; [|now repeat split].
    assert (Hc : cl_isStreaming (handlers s) = false) by (destruct Hst as [H1 _]; exact (H1 h s Hs)).
    destruct (Hcore (Plain.set_readyState h CLOSED p) _
                (run_handler_core _ _ (core_onclose (handlers s) wasClean Hc)))
      as [E1 [E2 [E3 E4]]].
    rewrite E1, E2, E3, E4. now repeat split.
  - destruct (timers (browser p) !! h) as [t|] eqn:Ht; [|now repeat split].
    assert (Ha : action t = CaptureAndSendFrame) by (destruct Hst as [_ [H2 _]]; exact (H2 h t Ht)).
    rewrite Ha. unfold Plain.run_handler.
    assert (Hno : timers (browser p) = ∅ -> False)
      by (intros E; rewrite E, lookup_empty in Ht; discriminate).
    destruct (repeating t).
    + destruct (captureAndSendFrame_cases frame timestamp p) as [->|[w [Hw [_ ->]]]];
        cbn [snd]; repeat split; intros E; destruct (Hno E).
    + destruct (captureAndSendFrame_cases frame timestamp (Plain.clearTimer h p))
        as [->|[w [Hw [_ ->]]]];
        cbn [snd]; repeat split; intros E; destruct (Hno E).
Qed.

Lemma settled_initial : settled Flow.initial.
Proof.
  split.
  - intros _. apply tidy_initial.
  - discriminate.
  - intros id call H. change (Flow.pending Flow.initial) with (∅ : gmap positive Flow.Call) in H.
    rewrite lookup_empty in H. discriminate.
Qed.

Lemma settled_is_mounted t id call :
  settled t -> Flow.pending t !! id = Some call -> Flow.mounted t = true.
Proof.
  intros [_ Hl _] H. destruct (Flow.mounted t); [reflexivity|].
  destruct (Hl eq_refl) as [_ E]. rewrite E, lookup_empty in H. discriminate.
Qed.

Lemma settled_streaming_no_call t :
  settled t -> isStreaming (ui (Flow.page t)) = true -> Flow.pending t = ∅.
Proof.
  intros [_ _ Hc] Hs. apply map_empty. intros id.
  destruct (Flow.pending t !! id) as [call|] eqn:E; [|reflexivity].
  destruct (Hc id call E) as [_ [Hoff _]]. congruence.
Qed.

Lemma released_frame p q :
  sockets (browser q) = sockets (browser p) ->
  timers (browser q) = timers (browser p) ->
  refs q = refs p ->
  released p -> released q.
Proof.
  intros E1 E2 E3 [H1 [H2 H3]]. split; [|split; congruence].
  revert H1. apply stale_frame; congruence.
Qed.

(** The refs and the browser of [q] under another React state. *)
Lemma released_under u q :
  released q -> released {| ui := u; refs := refs q; browser := browser q |}.
Proof. apply released_frame; reflexivity. Qed.

(** Stopping a tidy page releases the session. *)
Lemma released_stopped p : tidy p -> released (stopped p).
Proof.
  intros Hp. pose proof (tidy_stopped p Hp) as Hq.
  split; [exact (tidy_stale _ Hq)|]. split; [|apply refs_stopped].
  apply tidy_no_timer; [exact Hq|exact (proj1 (ui_stopped p))].
Qed.

Lemma tidy_detach p : tidy p -> tidy (Flow.detach p).
Proof. apply tidy_frame; reflexivity. Qed.

(** A page that leaves in good order is settled afterwards. *)
Lemma settled_unmount t : settled t -> Flow.pending t = ∅ -> settled (Flow.unmount t).
Proof.
  intros Ht Hp. unfold Flow.unmount. destruct (Flow.mounted t) eqn:Hm; [|exact Ht].
  split; cbn [Flow.mounted Flow.page Flow.pending].
  - discriminate.
  - intros _. split; [|exact Hp]. rewrite run_stop.
    apply released_under.
    apply released_stopped, tidy_detach, (settled_mounted t Ht Hm).
  - intros id call H. rewrite Hp, lookup_empty in H. discriminate.
Qed.

(** A change of the page that keeps it tidy, or released, and does not
    start streaming, keeps the component settled. *)
Lemma settled_set_page t q :
  settled t ->
  (Flow.mounted t = true -> tidy (Flow.page t) -> tidy q) ->
  (Flow.mounted t = false -> released (Flow.page t) -> released q) ->
  (isStreaming (ui (Flow.page t)) = false -> isStreaming (ui q) = false) ->
  settled (Flow.set_page q t).
Proof.
  intros [H1 H2 H3] Hm Hl Hs. split; cbn [Flow.set_page Flow.mounted Flow.page Flow.pending].
  - intros E. exact (Hm E (H1 E)).
  - intros E. destruct (H2 E) as [Hr Hp]. split; [exact (Hl E Hr)|exact Hp].
  - intros id call E. destruct (H3 id call E) as [Hc [Hoff Hone]].
    split; [exact Hc|]. split; [exact (Hs Hoff)|exact Hone].
Qed.

(** Taking the last waiting call away. *)
Lemma settled_call_done t id call q :
  settled t -> Flow.pending t !! id = Some call ->
  tidy q ->
  settled (Flow.set_pending (delete id) (Flow.set_page q t)).
Proof.
  intros Ht Hcall Hq. pose proof (settled_is_mounted t id call Ht Hcall) as Hm.
  destruct (settled_calls t Ht id call Hcall) as [_ [_ Hone]].
  assert (Hnone : delete id (Flow.pending t) = ∅)
    by (rewrite Hone; apply delete_singleton_eq).
  split; cbn [Flow.set_pending Flow.set_page Flow.mounted Flow.page Flow.pending].
  - intros _. exact Hq.
  - intros E. congruence.
  - intros id' call' E. rewrite Hnone, lookup_empty in E. discriminate.
Qed.

Section SettledSteps.
Variable coerce : jsval -> option Q.
Variables origin sessionId : string.

Lemma settled_delivered t e pe :
  Flow.delivered e = Some pe -> settled t ->
  settled (Flow.set_page (Flow.commit t (Plain.step coerce (Flow.page t) pe)) t).
Proof.
  intros He Ht. unfold Flow.commit.
  destruct (Flow.mounted t) eqn:Hm.
  - pose proof (settled_mounted t Ht Hm) as Hp.
    destruct (delivery coerce (Flow.page t) e pe He (tidy_stale _ Hp)) as [E1 _].
    apply settled_set_page; [exact Ht| | |].
    + intros _ _. now apply tidy_step.
    + intros E. congruence.
    + intros Hoff. now rewrite E1.
  - destruct (settled_left t Ht Hm) as [[Hst [Hti Hre]] _].
    destruct (delivery coerce (Flow.page t) e pe He Hst) as [_ [E2 [_ E4]]].
    apply settled_set_page; [exact Ht| | |].
    + intros E. congruence.
    + intros _ _. apply released_under. split; [|split].
      * exact (stale_step coerce (Flow.page t) pe Hst).
      * exact (E4 Hti).
      * now rewrite E2.
    + intros Hoff. exact Hoff.
Qed.

Lemma settled_handle_ui t (m : M unit) :
  keeps (same core) m -> settled t -> settled (Flow.handle m t).
Proof.
  intros Hk Ht. unfold Flow.handle, Flow.commit.
  pose proof (run_handler_core m (Flow.page t) Hk) as E.
  assert (E' := E). unfold core in E'. injection E' as E1 E2 E3 E4 E5.
  destruct (Flow.mounted t) eqn:Hm.
  - apply settled_set_page; [exact Ht| | |].
    + intros _. now apply tidy_core.
    + intros H. congruence.
    + intros Hoff. congruence.
  - apply settled_set_page; [exact Ht| | |].
    + intros H. congruence.
    + intros _ Hr. apply released_under. revert Hr. apply released_frame; assumption.
    + intros Hoff. exact Hoff.
Qed.

Lemma settled_page_timeout a ms t : settled t -> settled (Flow.set_page_timeout a ms t).
Proof.
  intros Ht. unfold Flow.set_page_timeout.
  assert (H : settled (Flow.set_page
                (set_next_handle (Pos.succ (next_handle (browser (Flow.page t)))) (Flow.page t)) t)).
  { apply settled_set_page; [exact Ht| | |].
    - intros _. apply tidy_frame; reflexivity.
    - intros _. apply released_frame; reflexivity.
    - intros Hoff. exact Hoff. }
  destruct H as [H1 H2 H3]. split; assumption.
Qed.

Lemma settled_setCopied b t : settled t -> settled (Flow.setCopied b t).
Proof. intros [H1 H2 H3]. split; assumption. Qed.

Lemma settled_setMeetingLink l t : settled t -> settled (Flow.setMeetingLink l t).
Proof. intros [H1 H2 H3]. split; assumption. Qed.

Lemma settled_set_timeouts f t : settled t -> settled (Flow.set_timeouts f t).
Proof. intros [H1 H2 H3]. split; assumption. Qed.

Lemma core_effect_ui (f : UI -> UI) :
  (forall u, isStreaming (f u) = isStreaming u) -> keeps (same core) (effect (with_ui f)).
Proof. intros H p. unfold same, core. cbn. now rewrite H. Qed.

Lemma settled_step t e :
  settled t -> Flow.orderly t e = true ->
  settled (Flow.step coerce origin sessionId t e).
Proof.
  intros Ht Ho. destruct e; cbn [Flow.step Flow.delivered].
  - (* Start *)
    cbn [Flow.orderly] in Ho. apply bool_decide_eq_true in Ho.
    destruct (Flow.mounted t) eqn:Hm; [|exact Ht].
    destruct (isStreaming (ui (Flow.page t))) eqn:Hoff; [exact Ht|]. cbn [andb negb].
    pose proof (settled_mounted t Ht Hm) as Hp.
    split; cbn [Flow.mounted Flow.page Flow.pending].
    + intros _. revert Hp. apply tidy_frame; reflexivity.
    + intros E. congruence.
    + intros id' call' E. rewrite Ho in E. rewrite Ho.
      apply lookup_insert_Some in E.
      destruct E as [[<- <-]|[_ E]]; [|rewrite lookup_empty in E; discriminate].
      split; [exact Hoff|]. split; [exact Hoff|]. apply insert_empty.
  - (* the camera settles *)
    destruct (Flow.pending t !! id) as [[[] c]|] eqn:Hcall; [|exact Ht|exact Ht].
    pose proof (settled_is_mounted t id _ Ht Hcall) as Hm.
    pose proof (settled_mounted t Ht Hm) as Hp.
    destruct (settled_calls t Ht id _ Hcall) as [Hc [Hoff Hone]]. cbn [Flow.closure] in Hc.
    unfold Flow.commit. rewrite Hm.
    destruct media as [s|err].
    + destruct (video (browser (Flow.page t))) as [v|] eqn:Hv.
      * rewrite (camera_settled_video c s _ v Hv).
        split; cbn [Flow.set_pending Flow.set_page Flow.mounted Flow.page Flow.pending].
        -- intros _. revert Hp. apply tidy_frame; reflexivity.
        -- intros H. congruence.
        -- intros id' call' H. rewrite Hone in H. rewrite Hone.
           rewrite insert_singleton_eq in H. rewrite insert_singleton_eq.
           apply lookup_singleton_Some in H. destruct H as [<- <-].
           split; [exact Hc|]. split; [exact Hoff|reflexivity].
      * rewrite (camera_settled_no_video c s _ Hv).
        apply (settled_call_done t id _ _ Ht Hcall).
        apply tidy_finish; [|exact Hoff|exact Hc].
        revert Hp. apply tidy_frame; reflexivity.
    + rewrite camera_settled_refused. apply (settled_call_done t id _ _ Ht Hcall).
      revert Hp. apply tidy_frame; reflexivity.
  - (* play settles *)
    destruct (Flow.pending t !! id) as [[[] c]|] eqn:Hcall; [exact Ht| |exact Ht].
    pose proof (settled_is_mounted t id _ Ht Hcall) as Hm.
    pose proof (settled_mounted t Ht Hm) as Hp.
    destruct (settled_calls t Ht id _ Hcall) as [Hc [Hoff Hone]]. cbn [Flow.closure] in Hc.
    unfold Flow.handle, Flow.commit. rewrite Hm.
    assert (Hq : tidy (Plain.run_handler (Flow.play_settled c played) (Flow.page t))).
    { unfold Plain.run_handler, Flow.play_settled. destruct played.
      - now apply tidy_finish.
      - revert Hp. apply tidy_frame; reflexivity. }
    assert (H := settled_call_done t id _ _ Ht Hcall Hq).
    destruct H as [H1 H2 H3]. split; assumption.
  - (* Stop *)
    destruct (Flow.mounted t) eqn:Hm; [|exact Ht].
    destruct (isStreaming (ui (Flow.page t))) eqn:Hon; [|exact Ht]. cbn [andb].
    pose proof (settled_mounted t Ht Hm) as Hp.
    pose proof (settled_streaming_no_call t Ht Hon) as Hnone.
    unfold Flow.handle, Flow.commit. rewrite Hm, run_stop.
    split; cbn [Flow.set_page Flow.mounted Flow.page Flow.pending].
    + intros _. now apply tidy_stopped.
    + intros E. congruence.
    + intros id call E. rewrite Hnone, lookup_empty in E. discriminate.
  - (* Home *)
    cbn [Flow.orderly] in Ho. apply bool_decide_eq_true in Ho.
    destruct (Flow.mounted t) eqn:Hm; [|exact Ht].
    pose proof (settled_mounted t Ht Hm) as Hp.
    apply settled_unmount; [|exact Ho].
    unfold Flow.handle, Flow.commit. rewrite Hm, run_stop.
    split; cbn [Flow.set_page Flow.mounted Flow.page Flow.pending].
    + intros _. now apply tidy_stopped.
    + intros E. congruence.
    + intros id call E. rewrite Ho, lookup_empty in E. discriminate.
  - (* unmounted *)
    cbn [Flow.orderly] in Ho. apply bool_decide_eq_true in Ho.
    now apply settled_unmount.
  - (* Copy *)
    destruct (Flow.mounted t); [|exact Ht].
    unfold Flow.copyMeetingLink. destruct clipboard; [|exact Ht].
    apply settled_page_timeout, settled_setCopied, Ht.
  - (* verifyMeeting *)
    unfold Flow.verifyMeeting.
    destruct fetched as [[[] [data|err]]|err].
    + apply settled_handle_ui; [|now apply settled_setMeetingLink].
      intros p. reflexivity.
    + apply settled_page_timeout, settled_handle_ui; [|exact Ht]. intros p. reflexivity.
    + apply settled_page_timeout, settled_handle_ui; [|exact Ht]. intros p. reflexivity.
    + apply settled_page_timeout, settled_handle_ui; [|exact Ht]. intros p. reflexivity.
    + apply settled_page_timeout, settled_handle_ui; [|exact Ht]. intros p. reflexivity.
  - (* a page timeout *)
    cbn [Flow.orderly] in Ho.
    destruct (Flow.timeouts t !! h) as [[d []]|] eqn:Hh; [| |exact Ht].
    + cbn [Flow.what]. apply settled_setCopied, settled_set_timeouts, Ht.
    + cbn [Flow.what]. apply bool_decide_eq_true in Ho.
      apply settled_unmount; [now apply settled_set_timeouts|exact Ho].
  - now apply (settled_delivered t (Flow.SocketOpen h)).
  - now apply (settled_delivered t (Flow.SocketMessage h parsed now)).
  - now apply (settled_delivered t (Flow.SocketError h)).
  - now apply (settled_delivered t (Flow.SocketClose h wasClean)).
  - now apply (settled_delivered t (Flow.TimerFires h frame timestamp)).
Qed.

Lemma settled_run es t :
  settled t -> Flow.always coerce origin sessionId Flow.orderly t es = true ->
  settled (Flow.run coerce origin sessionId t es).
Proof.
  revert t. induction es as [|e es IH]; intros t Ht Ho; [exact Ht|].
  cbn [Flow.always] in Ho. apply andb_true_iff in Ho. destruct Ho as [Ho1 Ho2].
  cbn [Flow.run fold_left]. apply IH; [now apply settled_step|exact Ho2].
Qed.

End SettledSteps.

Lemma one_socket_resources p q : resources q = resources p -> one_socket p -> one_socket q.
Proof.
  unfold resources. intros E. injection E as E1 E2 E3.
  apply one_socket_frame; congruence.
Qed.


Lemma resources_under u q :
  resources {| ui := u; refs := refs q; browser := browser q |} = resources q.
Proof. reflexivity. Qed.

Lemma resources_core p q : core q = core p -> resources q = resources p.
Proof. unfold core, resources. intros E. injection E as E1 E2 E3 E4 E5. congruence. Qed.

Lemma resources_commit t q : resources (Flow.commit t q) = resources q.
Proof. unfold Flow.commit. destruct (Flow.mounted t); reflexivity. Qed.

Lemma resources_handle t (m : M unit) :
  keeps (same core) m -> resources (Flow.page (Flow.handle m t)) = resources (Flow.page t).
Proof.
  intros Hk. unfold Flow.handle. cbn [Flow.page Flow.set_page].
  rewrite resources_commit. apply resources_core, run_handler_core, Hk.
Qed.

Lemma resources_page_timeout a ms t :
  resources (Flow.page (Flow.set_page_timeout a ms t)) = resources (Flow.page t).
Proof. reflexivity. Qed.

Lemma resources_unmount t :
  Flow.mounted t = true ->
  resources (Flow.page (Flow.unmount t)) = resources (stopped (Flow.detach (Flow.page t))).
Proof.
  intros Hm. unfold Flow.unmount. rewrite Hm. cbn [Flow.page]. rewrite run_stop.
  apply resources_under.
Qed.

Lemma one_socket_finish c p :
  wsRef (refs p) = None -> one_socket p -> one_socket (snd (Flow.start_finish c p)).
Proof.
  intros Hws H. destruct (start_finish_started c p Hws) as [Eso [_ [Ere _]]].
  intros h s E Hl. rewrite Ere. cbn [wsRef]. rewrite Eso in E.
  apply lookup_insert_Some in E. destruct E as [[<- _]|[_ E]]; [reflexivity|].
  specialize (H h s E Hl). congruence.
Qed.






Lemma one_socket_detach p : one_socket p -> one_socket (Flow.detach p).
Proof. apply one_socket_resources. reflexivity. Qed.

Section FlowSteps.
Variable coerce : jsval -> option Q.
Variables origin sessionId : string.

(** An event on a socket or a streaming timer keeps the one live socket,
    on a page whose handlers are stale. *)
Lemma one_socket_delivered p e pe :
  Flow.delivered e = Some pe -> stale p -> one_socket p ->
  Session.deliverable p pe = true -> one_socket (Plain.step coerce p pe).
Proof.
  intros He Hst H Hd.
  destruct e; try discriminate He; injection He as <-; cbn [Plain.step].
  - cbn [Session.deliverable] in Hd.
    destruct (sockets (browser p) !! h) as [s|] eqn:E; [|exact H].
    apply (one_socket_core (Plain.set_readyState h OPEN p)).
    + apply run_handler_core, core_onopen.
    + apply one_socket_alter; [|exact H]. intros s0 _. right.
      apply (H h s E). unfold Session.live. destruct (readyState s); [reflexivity|discriminate..].
  - destruct (sockets (browser p) !! h) as [s|]; [|exact H].
    revert H. apply one_socket_core. apply run_handler_core, core_onmessage.
  - destruct (sockets (browser p) !! h); [|exact H].
    revert H. apply one_socket_core. apply run_handler_core, core_onerror.
  - destruct (sockets (browser p) !! h) as [s|] eqn:E; [|exact H].
    apply (one_socket_core (Plain.set_readyState h CLOSED p)).
    + apply run_handler_core, core_onclose. destruct Hst as [H1 _]. exact (H1 h s E).
    + apply one_socket_alter; [|exact H]. intros s0 Hl. discriminate Hl.
  - destruct (timers (browser p) !! h) as [t|] eqn:E; [|exact H].
    assert (Ha : action t = CaptureAndSendFrame) by (destruct Hst as [_ [H2 _]]; exact (H2 h t E)).
    rewrite Ha. unfold Plain.run_handler.
    assert (H' : one_socket (if repeating t then p else Plain.clearTimer h p))
      by (destruct (repeating t); [exact H|revert H; apply one_socket_frame; reflexivity]).
    destruct (captureAndSendFrame_cases frame timestamp
                (if repeating t then p else Plain.clearTimer h p)) as [->|[w [Hw [_ ->]]]];
      cbn [snd]; [exact H'|].
    apply one_socket_alter; [|exact H']. intros s0 Hl. left. exact Hl.
Qed.

Lemma settled_stale t : settled t -> stale (Flow.page t).
Proof.
  intros Ht. destruct (Flow.mounted t) eqn:Hm.
  - exact (tidy_stale _ (settled_mounted t Ht Hm)).
  - exact (proj1 (proj1 (settled_left t Ht Hm))).
Qed.

Lemma step_moved t e :
  settled t -> Flow.orderly t e = true ->
  moved coerce t e (Flow.page (Flow.step coerce origin sessionId t e)).
Proof.
  intros Ht Ho. destruct e; cbn [Flow.step Flow.delivered].
  - destruct (Flow.mounted t && negb (isStreaming (ui (Flow.page t))));
      apply moved_nothing; reflexivity.
  - destruct (Flow.pending t !! id) as [[[] c]|] eqn:Hcall;
      [|apply moved_nothing; reflexivity..].
    destruct media as [s|err].
    + destruct (video (browser (Flow.page t))) as [v|] eqn:Hv.
      * rewrite (camera_settled_video c s _ v Hv).
        cbn [Flow.page Flow.set_page Flow.set_pending].
        apply (moved_acquired coerce t _ _ id c s Hcall). rewrite resources_commit. reflexivity.
      * rewrite (camera_settled_no_video c s _ Hv).
        cbn [Flow.page Flow.set_page Flow.set_pending].
        pose proof (settled_is_mounted t id _ Ht Hcall) as Hm.
        unfold Flow.commit. rewrite Hm.
        apply (moved_started coerce t _ _ id Flow.AwaitsCamera c (Session.acquire s (Flow.page t)) Hcall);
          [right; split; [reflexivity|now exists s]|reflexivity].
    + rewrite camera_settled_refused. cbn [Flow.page Flow.set_page Flow.set_pending].
      apply moved_nothing. rewrite resources_commit. reflexivity.
  - destruct (Flow.pending t !! id) as [[[] c]|] eqn:Hcall;
      [apply moved_nothing; reflexivity| |apply moved_nothing; reflexivity].
    pose proof (settled_is_mounted t id _ Ht Hcall) as Hm.
    cbn [Flow.page Flow.set_pending Flow.handle Flow.set_page].
    unfold Flow.commit. rewrite Hm. unfold Flow.play_settled, Plain.run_handler.
    destruct played.
    + apply (moved_started coerce t _ _ id Flow.AwaitsPlay c (Flow.page t) Hcall);
        [left; reflexivity|reflexivity].
    + apply moved_nothing. reflexivity.
  - destruct (Flow.mounted t && isStreaming (ui (Flow.page t))) eqn:E;
      [|apply moved_nothing; reflexivity].
    apply (moved_stopped coerce t _ _ (Flow.page t)); [now left|].
    cbn [Flow.page Flow.handle Flow.set_page]. rewrite resources_commit, run_stop. reflexivity.
  - destruct (Flow.mounted t) eqn:Hm; [|apply moved_nothing; reflexivity].
    apply (moved_stopped coerce t _ _ (Flow.detach (stopped (Flow.page t)))); [now right; right|].
    rewrite resources_unmount by exact Hm.
    cbn [Flow.page Flow.handle Flow.set_page]. unfold Flow.commit. rewrite Hm, run_stop.
    reflexivity.
  - destruct (Flow.mounted t) eqn:Hm.
    + apply (moved_stopped coerce t _ _ (Flow.detach (Flow.page t))); [now right; left|].
      now apply resources_unmount.
    + apply moved_nothing. unfold Flow.unmount. rewrite Hm. reflexivity.
  - destruct (Flow.mounted t); [|apply moved_nothing; reflexivity].
    destruct clipboard; apply moved_nothing; reflexivity.
  - apply moved_nothing. unfold Flow.verifyMeeting.
    destruct fetched as [[[] [data|err]]|err];
      rewrite ?resources_page_timeout; rewrite resources_handle by (intros p; reflexivity);
      reflexivity.
  - destruct (Flow.timeouts t !! h) as [[d []]|] eqn:Hh; cbn [Flow.what];
      [apply moved_nothing; reflexivity| |apply moved_nothing; reflexivity].
    destruct (Flow.mounted t) eqn:Hm.
    + apply (moved_stopped coerce t _ _ (Flow.detach (Flow.page t))); [now right; left|].
      now rewrite resources_unmount.
    + apply moved_nothing. unfold Flow.unmount. cbn [Flow.mounted Flow.set_timeouts].
      rewrite Hm. reflexivity.
  - eapply moved_delivered; [reflexivity|].
    cbn [Flow.page Flow.set_page]. apply resources_commit.
  - eapply moved_delivered; [reflexivity|].
    cbn [Flow.page Flow.set_page]. apply resources_commit.
  - eapply moved_delivered; [reflexivity|].
    cbn [Flow.page Flow.set_page]. apply resources_commit.
  - eapply moved_delivered; [reflexivity|].
    cbn [Flow.page Flow.set_page]. apply resources_commit.
  - eapply moved_delivered; [reflexivity|].
    cbn [Flow.page Flow.set_page]. apply resources_commit.
Qed.

Lemma flow_one_socket_step t e :
  settled t -> one_socket (Flow.page t) ->
  Flow.orderly t e = true -> Flow.deliverable t e = true ->
  one_socket (Flow.page (Flow.step coerce origin sessionId t e)).
Proof.
  intros Ht H Ho Hd.
  destruct (step_moved t e Ht Ho) as [E|id c s Hcall E|id st c p Hcall Hp ->|p Hp E|pe He E].
  - revert H. now apply one_socket_resources.
  - apply (one_socket_resources _ _ E). revert H. apply one_socket_frame; reflexivity.
  - pose proof (settled_is_mounted t id _ Ht Hcall) as Hm.
    destruct (settled_calls t Ht id _ Hcall) as [_ [Hoff _]].
    destruct (tidy_idle _ (settled_mounted t Ht Hm) Hoff) as [_ Hws].
    destruct Hp as [Er|[_ [s ->]]].
    + apply one_socket_finish.
      * unfold resources in Er. injection Er as _ _ Er. now rewrite Er.
      * revert H. now apply one_socket_resources.
    + apply one_socket_finish; [exact Hws|].
      revert H. apply one_socket_frame; reflexivity.
  - apply (one_socket_resources _ _ E). apply one_socket_stopped.
    destruct Hp as [-> | [-> | ->]];
      [exact H|now apply one_socket_detach|now apply one_socket_detach, one_socket_stopped].
  - apply (one_socket_resources _ _ E).
    apply (one_socket_delivered _ e pe He (settled_stale t Ht) H).
    unfold Flow.deliverable in Hd. now rewrite He in Hd.
Qed.

Lemma flow_one_socket_run es t :
  settled t -> one_socket (Flow.page t) ->
  Flow.always coerce origin sessionId Flow.orderly t es = true ->
  Flow.always coerce origin sessionId Flow.deliverable t es = true ->
  one_socket (Flow.page (Flow.run coerce origin sessionId t es)).
Proof.
  revert t. induction es as [|e es IH]; intros t Ht H Ho Hd; [exact H|].
  cbn [Flow.always] in Ho, Hd.
  apply andb_true_iff in Ho. destruct Ho as [Ho1 Ho2].
  apply andb_true_iff in Hd. destruct Hd as [Hd1 Hd2].
  cbn [Flow.run fold_left].
  apply IH; [now apply settled_step|now apply flow_one_socket_step|exact Ho2|exact Hd2].
Qed.




End FlowSteps.

Lemma none_live p :
  one_socket p -> wsRef (refs p) = None ->
  forall h s, sockets (browser p) !! h = Some s -> Session.live s = false.
Proof.
  intros H Hws h s E. destruct (Session.live s) eqn:Hl; [|reflexivity].
  specialize (H h s E Hl). congruence.
Qed.




Section Timeouts.
Variable coerce : jsval -> option Q.
Variables origin sessionId : string.

Lemma two_seconds_frame t t' :
  Flow.timeouts t' = Flow.timeouts t -> two_seconds t -> two_seconds t'.
Proof. unfold two_seconds. intros ->. auto. Qed.

Lemma two_seconds_timeout a t : two_seconds t -> two_seconds (Flow.set_page_timeout a 2000 t).
Proof.
  intros H h tm E. cbn in E. apply lookup_insert_Some in E.
  destruct E as [[_ <-]|[_ E]]; [reflexivity|exact (H h tm E)].
Qed.

Lemma two_seconds_delete k t : two_seconds t -> two_seconds (Flow.set_timeouts (delete k) t).
Proof.
  intros H h tm E. cbn in E. apply lookup_delete_Some in E. exact (H h tm (proj2 E)).
Qed.

Lemma timeouts_unmount t : Flow.timeouts (Flow.unmount t) = Flow.timeouts t.
Proof. unfold Flow.unmount. destruct (Flow.mounted t); reflexivity. Qed.

Lemma two_seconds_step t e :
  two_seconds t -> two_seconds (Flow.step coerce origin sessionId t e).
Proof.
  intros H. destruct e; cbn [Flow.step Flow.delivered].
  - destruct (Flow.mounted t && negb (isStreaming (ui (Flow.page t)))); exact H.
  - destruct (Flow.pending t !! id) as [[[] c]|]; try exact H.
    destruct (Flow.camera_settled c media (Flow.page t)) as [[[]|] q]; exact H.
  - destruct (Flow.pending t !! id) as [[[] c]|]; exact H.
  - destruct (Flow.mounted t && isStreaming (ui (Flow.page t))); exact H.
  - destruct (Flow.mounted t); [|exact H].
    revert H. apply two_seconds_frame. now rewrite timeouts_unmount.
  - revert H. apply two_seconds_frame. apply timeouts_unmount.
  - destruct (Flow.mounted t); [|exact H]. destruct clipboard; [|exact H].
    apply two_seconds_timeout. exact H.
  - unfold Flow.verifyMeeting.
    destruct fetched as [[[] [data|err]]|err]; try apply two_seconds_timeout; exact H.
  - destruct (Flow.timeouts t !! h) as [[d []]|]; cbn [Flow.what]; [| |exact H].
    + apply (two_seconds_delete h) in H. exact H.
    + apply (two_seconds_delete h) in H. revert H.
      apply two_seconds_frame. apply timeouts_unmount.
  - exact H.
  - exact H.
  - exact H.
  - exact H.
  - exact H.
Qed.

Lemma two_seconds_run es t :
  two_seconds t -> two_seconds (Flow.run coerce origin sessionId t es).
Proof.
  revert t. induction es as [|e es IH]; intros t H; [exact H|].
  cbn [Flow.run fold_left]. apply IH. now apply two_seconds_step.
Qed.

End Timeouts.

Lemma two_seconds_initial : two_seconds Flow.initial.
Proof.
  intros h tm E. change (Flow.timeouts Flow.initial) with (∅ : gmap positive Flow.PageTimer) in E.
  rewrite lookup_empty in E. discriminate.
Qed.

(** What is left when the page is unmounted, whatever waits. *)
Lemma unmount_releases t :
  Flow.mounted t = true -> tidy (Flow.page t) ->
  released (Flow.page (Flow.unmount t)).
Proof.
  intros Hm Hp. unfold Flow.unmount. rewrite Hm. cbn [Flow.page]. rewrite run_stop.
  apply released_under, released_stopped, tidy_detach, Hp.
Qed.

(** Clearing the DOM refs before the cleanup or after it leaves the same
    page. *)
Lemma detach_then_stop p : stopped (Flow.detach p) = Flow.detach (stopped p).
Proof.
  destruct p as [u [[ws|] [st|] [fi|] [rt|]] b]; destruct b as [so ti tr nh sp co ov ca vi];
    unfold stopped, Flow.detach, Plain.socket_is_open;
    cbn [refs browser sockets frameIntervalRef reconnectTimeoutRef streamRef wsRef
         set_frameIntervalRef set_reconnectTimeoutRef set_streamRef set_wsRef
         Plain.clearTimer Plain.stop_tracks set_timers set_tracks
         with_refs with_browser console_log console_push];
    try (destruct (so !! ws) as [[[] se ha]|]); destruct vi; reflexivity.
Qed.

Lemma sockets_unmount t :
  Flow.mounted t = true ->
  sockets (browser (Flow.page (Flow.unmount t))) =
  sockets (browser (stopped (Flow.detach (Flow.page t)))).
Proof.
  intros Hm. exact (f_equal (fun r => fst (fst r)) (resources_unmount t Hm)).
Qed.


(** X3. The timers of a meeting page, along any life in which the user
    neither clicks Start again nor leaves while a call of
    [startStreaming] waits for the camera or for [video.play()]. Every
    pending streaming timer is the 100 ms frame-capture interval held by
    [frameIntervalRef]; while the page is mounted such a timer exists
    exactly while [isStreaming] is true, so a mounted page that is not
    streaming has none; a page that has left has none; Stop leaves none
    and unmounting leaves none. The page's other timeouts, those of
    [copyMeetingLink] and [verifyMeeting], are all due after 2000 ms,
    and Stop clears none of them. Without the condition the property
    fails: after two clicks on Start before the camera answers, Stop
    leaves the first call's interval running with [frameIntervalRef]
    empty; and when the user goes home before the camera answers, the
    call registers its interval on the page that has left. *)
Theorem only_timer_is_the_frame_interval
    (coerce : jsval -> option Q) (origin sessionId : string) (es : list Flow.Event) :
  (Flow.always coerce origin sessionId Flow.orderly Flow.initial es = true ->
   let t := Flow.run coerce origin sessionId Flow.initial es in
   let p := Flow.page t in
   (forall h tm, timers (browser p) !! h = Some tm ->
      frameIntervalRef (refs p) = Some h /\ tm = Session.frame_interval) /\
   (Flow.mounted t = true ->
    (isStreaming (ui p) = true <->
     exists h, frameIntervalRef (refs p) = Some h /\
               timers (browser p) !! h = Some Session.frame_interval)) /\
   (Flow.mounted t = true -> isStreaming (ui p) = false -> timers (browser p) = ∅) /\
   (Flow.mounted t = false -> timers (browser p) = ∅) /\
   timers (browser (Flow.page (Flow.step coerce origin sessionId t Flow.StopClicked))) = ∅ /\
   timers (browser (Flow.page (Flow.step coerce origin sessionId t Flow.Unmounted))) = ∅ /\
   (forall h tm, Flow.timeouts t !! h = Some tm -> Flow.due tm = 2000%Z) /\
   Flow.timeouts (Flow.step coerce origin sessionId t Flow.StopClicked) = Flow.timeouts t) /\
  (let t := Flow.life Flow.started_twice in
   Flow.in_order Flow.orderly Flow.started_twice = false /\
   Flow.mounted t = true /\
   isStreaming (ui (Flow.page t)) = false /\
   frameIntervalRef (refs (Flow.page t)) = None /\
   timers (browser (Flow.page t)) !! 2%positive = Some Session.frame_interval) /\
  (let t := Flow.life Flow.left_while_waiting in
   Flow.in_order Flow.orderly Flow.left_while_waiting = false /\
   Flow.mounted t = false /\
   timers (browser (Flow.page t)) !! 2%positive = Some Session.frame_interval).
Proof.
  split; [|split; vm_compute; repeat split; reflexivity].
  intros Ho t p.
  assert (Ht : settled t) by (apply settled_run; [apply settled_initial|exact Ho]).
  assert (Hleft : Flow.mounted t = false -> timers (browser p) = ∅)
    by (intros Hm; exact (proj1 (proj2 (proj1 (settled_left t Ht Hm))))).
  assert (Hidle : Flow.mounted t = true -> isStreaming (ui p) = false -> timers (browser p) = ∅)
    by (intros Hm; apply tidy_no_timer, (settled_mounted t Ht Hm)).
  split; [|split; [|split; [exact Hidle|split; [exact Hleft|split; [|split; [|split]]]]]].
  - intros h tm E. destruct (Flow.mounted t) eqn:Hm.
    + exact (tidy_timers _ (settled_mounted t Ht Hm) h tm E).
    + rewrite (Hleft eq_refl), lookup_empty in E. discriminate.
  - intros Hm. pose proof (settled_mounted t Ht Hm) as [_ _ Hs Hi _].
    split; [exact Hs|]. intros [h [Hh _]].
    destruct (isStreaming (ui p)) eqn:E; [reflexivity|].
    destruct (Hi E) as [Hf _]. unfold p in Hh. congruence.
  - cbn [Flow.step]. destruct (Flow.mounted t) eqn:Hm; [|exact (Hleft eq_refl)].
    destruct (isStreaming (ui (Flow.page t))) eqn:Hon; cbn [andb]; [|exact (Hidle eq_refl Hon)].
    cbn [Flow.page Flow.handle Flow.set_page]. unfold Flow.commit. rewrite Hm, run_stop.
    exact (proj1 (proj2 (released_stopped _ (settled_mounted t Ht Hm)))).
  - cbn [Flow.step]. destruct (Flow.mounted t) eqn:Hm.
    + exact (proj1 (proj2 (unmount_releases t Hm (settled_mounted t Ht Hm)))).
    + unfold Flow.unmount. rewrite Hm. exact (Hleft eq_refl).
  - apply two_seconds_run, two_seconds_initial.
  - cbn [Flow.step]. destruct (Flow.mounted t && isStreaming (ui (Flow.page t))); reflexivity.
Qed.

Lemma only_timer_is_the_frame_interval_witness :
  Flow.in_order Flow.orderly Flow.one_session = true /\
  timers (browser (Flow.page (Flow.life Flow.one_session))) = ∅ /\
  timers (browser (Flow.page (Flow.life (firstn 4 Flow.one_session)))) !! 2%positive =
    Some Session.frame_interval.
Proof.
  split; [reflexivity|]. split.
  - destruct (proj1 (only_timer_is_the_frame_interval Scenario.no_coercion
                       "https://coach.example" "abc123" Flow.one_session) eq_refl)
      as [_ [_ [Hidle _]]].
    apply Hidle; reflexivity.
  - vm_compute. reflexivity.
Defined.

(** X5. The sockets of a meeting page, along any life in which the user
    neither clicks Start again nor leaves while a call of
    [startStreaming] waits, and in which the browser fires [open] only
    on connecting sockets. Every socket that is connecting or open is
    the one [wsRef] holds, so there is at most one; none is left on a
    mounted page that is not streaming, none on a page that has left,
    and Stop and unmounting leave none. Without the first condition the
    property fails: after two clicks on Start before the camera answers,
    the second call replaces the first call's socket, which is still
    connecting, in [wsRef], and Stop leaves that socket connecting; and
    when the user goes home before the camera answers, the call opens
    its socket on the page that has left. *)
Theorem at_most_one_live_socket
    (coerce : jsval -> option Q) (origin sessionId : string) (es : list Flow.Event) :
  (Flow.always coerce origin sessionId Flow.orderly Flow.initial es = true ->
   Flow.always coerce origin sessionId Flow.deliverable Flow.initial es = true ->
   let t := Flow.run coerce origin sessionId Flow.initial es in
   let p := Flow.page t in
   (forall h s, sockets (browser p) !! h = Some s -> Session.live s = true ->
                wsRef (refs p) = Some h) /\
   (Flow.mounted t = true -> isStreaming (ui p) = false ->
    forall h s, sockets (browser p) !! h = Some s -> Session.live s = false) /\
   (Flow.mounted t = false ->
    forall h s, sockets (browser p) !! h = Some s -> Session.live s = false) /\
   (forall h s,
      sockets (browser (Flow.page (Flow.step coerce origin sessionId t Flow.StopClicked))) !! h
        = Some s ->
      Session.live s = false) /\
   (forall h s,
      sockets (browser (Flow.page (Flow.step coerce origin sessionId t Flow.Unmounted))) !! h
        = Some s ->
      Session.live s = false)) /\
  (let t := Flow.life Flow.started_twice in
   Flow.mounted t = true /\
   isStreaming (ui (Flow.page t)) = false /\
   wsRef (refs (Flow.page t)) = None /\
   option_map readyState (sockets (browser (Flow.page t)) !! 1%positive) = Some CONNECTING) /\
  (let t := Flow.life Flow.left_while_waiting in
   Flow.mounted t = false /\
   option_map readyState (sockets (browser (Flow.page t)) !! 1%positive) = Some CONNECTING).
Proof.
  split; [|split; vm_compute; repeat split; reflexivity].
  intros Ho Hd t p.
  assert (Ht : settled t) by (apply settled_run; [apply settled_initial|exact Ho]).
  assert (H : one_socket p)
    by (apply flow_one_socket_run;
        [apply settled_initial|apply one_socket_initial|exact Ho|exact Hd]).
  assert (Hleft : Flow.mounted t = false ->
            forall h s, sockets (browser p) !! h = Some s -> Session.live s = false).
  { intros Hm. apply (none_live p H).
    destruct (settled_left t Ht Hm) as [[_ [_ E]] _]. fold p in E. now rewrite E. }
  assert (Hidle : Flow.mounted t = true -> isStreaming (ui p) = false ->
            forall h s, sockets (browser p) !! h = Some s -> Session.live s = false).
  { intros Hm Hoff. apply (none_live p H).
    exact (proj2 (tidy_idle _ (settled_mounted t Ht Hm) Hoff)). }
  split; [exact H|]. split; [exact Hidle|]. split; [exact Hleft|]. split.
  - intros h s. cbn [Flow.step]. destruct (Flow.mounted t) eqn:Hm; [|intros E; eauto].
    destruct (isStreaming (ui (Flow.page t))) eqn:Hon; cbn [andb].
    + cbn [Flow.page Flow.handle Flow.set_page]. unfold Flow.commit. rewrite Hm, run_stop.
      intros E. revert h s E. apply none_live; [now apply one_socket_stopped|].
      now rewrite refs_stopped.
    + intros E. exact (Hidle eq_refl Hon h s E).
  - intros h s. cbn [Flow.step]. destruct (Flow.mounted t) eqn:Hm.
    + intros E. rewrite (sockets_unmount t Hm) in E. revert h s E.
      apply none_live; [now apply one_socket_stopped, one_socket_detach|].
      now rewrite refs_stopped.
    + unfold Flow.unmount. rewrite Hm. intros E. exact (Hleft eq_refl h s E).
Qed.

Lemma at_most_one_live_socket_witness :
  Flow.in_order Flow.orderly Flow.one_session = true /\
  Flow.in_order Flow.deliverable Flow.one_session = true /\
  (forall h s, sockets (browser (Flow.page (Flow.life Flow.one_session))) !! h = Some s ->
               Session.live s = false) /\
  option_map readyState
    (sockets (browser (Flow.page (Flow.life (firstn 4 Flow.one_session)))) !! 1%positive) =
    Some OPEN.
Proof.
  split; [reflexivity|]. split; [reflexivity|]. split.
  - destruct (proj1 (at_most_one_live_socket Scenario.no_coercion
                       "https://coach.example" "abc123" Flow.one_session) eq_refl eq_refl)
      as [_ [Hidle _]].
    apply Hidle; reflexivity.
  - vm_compute. reflexivity.
Defined.



Lemma stale_under u q : stale q -> stale {| ui := u; refs := refs q; browser := browser q |}.
Proof. apply stale_frame; reflexivity. Qed.

Lemma stale_commit t q : stale q -> stale (Flow.commit t q).
Proof. unfold Flow.commit. destruct (Flow.mounted t); [auto|apply stale_under]. Qed.

Lemma stale_unmount t : stale (Flow.page t) -> stale (Flow.page (Flow.unmount t)).
Proof.
  intros H. unfold Flow.unmount. destruct (Flow.mounted t); [|exact H].
  cbn [Flow.page]. apply stale_under. apply stale_stopStreaming.
  revert H. apply stale_frame; reflexivity.
Qed.

Section StaleLife.
Variable coerce : jsval -> option Q.
Variables origin sessionId : string.

(** Whatever the order of the events, no handler of the page would ever
    reconnect. *)
Lemma stale_flow_step t e :
  stale (Flow.page t) -> fresh_calls t ->
  stale (Flow.page (Flow.step coerce origin sessionId t e)) /\
  fresh_calls (Flow.step coerce origin sessionId t e).
Proof.
  intros Hst Hfresh. destruct e; cbn [Flow.step Flow.delivered].
  - destruct (Flow.mounted t); cbn [andb]; [|now split].
    destruct (isStreaming (ui (Flow.page t))) eqn:Hoff; cbn [negb]; [now split|].
    split.
    + cbn [Flow.page]. revert Hst. apply stale_frame; reflexivity.
    + intros id call E. cbn [Flow.pending] in E. apply lookup_insert_Some in E.
      destruct E as [[_ <-]|[_ E]]; [exact Hoff|exact (Hfresh id call E)].
  - destruct (Flow.pending t !! id) as [[[] c]|] eqn:Hcall; [|now split..].
    pose proof (Hfresh id _ Hcall) as Hc. cbn [Flow.closure] in Hc.
    assert (Hdone : forall q : Page, stale q ->
              stale (Flow.page (Flow.set_pending (delete id) (Flow.set_page (Flow.commit t q) t))) /\
              fresh_calls (Flow.set_pending (delete id) (Flow.set_page (Flow.commit t q) t))).
    { intros q Hq. split; [now apply stale_commit|].
      intros id' call' E. cbn [Flow.pending Flow.set_pending Flow.set_page] in E.
      apply lookup_delete_Some in E. exact (Hfresh id' call' (proj2 E)). }
    destruct media as [s|err].
    + destruct (video (browser (Flow.page t))) as [v|] eqn:Hv.
      * rewrite (camera_settled_video c s _ v Hv). split.
        -- cbn [Flow.page Flow.set_pending Flow.set_page]. apply stale_commit.
           revert Hst. apply stale_frame; reflexivity.
        -- intros id' call' E. cbn [Flow.pending Flow.set_pending Flow.set_page] in E.
           apply lookup_insert_Some in E.
           destruct E as [[_ <-]|[_ E]]; [exact Hc|exact (Hfresh id' call' E)].
      * rewrite (camera_settled_no_video c s _ Hv). apply Hdone.
        apply (stale_start_finish c Hc). revert Hst. apply stale_frame; reflexivity.
    + rewrite camera_settled_refused. apply Hdone.
      revert Hst. apply stale_frame; reflexivity.
  - destruct (Flow.pending t !! id) as [[[] c]|] eqn:Hcall; [now split| |now split].
    pose proof (Hfresh id _ Hcall) as Hc. cbn [Flow.closure] in Hc.
    split.
    + cbn [Flow.page Flow.set_pending Flow.set_page Flow.handle]. apply stale_commit.
      unfold Plain.run_handler, Flow.play_settled. destruct played.
      * now apply (stale_start_finish c Hc).
      * revert Hst. apply stale_frame; reflexivity.
    + intros id' call' E. cbn [Flow.pending Flow.set_pending Flow.set_page Flow.handle] in E.
      apply lookup_delete_Some in E. exact (Hfresh id' call' (proj2 E)).
  - destruct (Flow.mounted t && isStreaming (ui (Flow.page t))); [|now split].
    split; [|exact Hfresh].
    cbn [Flow.page Flow.set_page Flow.handle]. apply stale_commit. now apply stale_stopStreaming.
  - destruct (Flow.mounted t) eqn:Hm; [|now split]. split.
    + apply stale_unmount. cbn [Flow.page Flow.set_page Flow.handle].
      apply stale_commit. now apply stale_stopStreaming.
    + unfold Flow.unmount. cbn [Flow.mounted Flow.set_page Flow.handle]. rewrite Hm.
      exact Hfresh.
  - split; [now apply stale_unmount|].
    unfold Flow.unmount. destruct (Flow.mounted t); exact Hfresh.
  - destruct (Flow.mounted t); [|now split]. destruct clipboard; [|now split].
    split; [|exact Hfresh]. revert Hst. apply stale_frame; reflexivity.
  - assert (Hh : forall (m : M unit) (t0 : Flow.Component),
              keeps (same core) m -> stale (Flow.page t0) -> stale (Flow.page (Flow.handle m t0))).
    { intros m t0 Hk H0. cbn [Flow.page Flow.set_page Flow.handle]. apply stale_commit.
      pose proof (run_handler_core m (Flow.page t0) Hk) as E.
      unfold core in E. injection E as E1 E2 _ E4 _.
      revert H0. apply stale_frame; congruence. }
    assert (Ht0 : forall a ms (t0 : Flow.Component),
              stale (Flow.page t0) -> stale (Flow.page (Flow.set_page_timeout a ms t0)))
      by (intros a ms t0; apply stale_frame; reflexivity).
    unfold Flow.verifyMeeting.
    destruct fetched as [[[] [data|err]]|err]; (split; [|exact Hfresh]);
      try apply Ht0; apply Hh; try (intros p; reflexivity); exact Hst.
  - destruct (Flow.timeouts t !! h) as [[d []]|]; cbn [Flow.what]; [now split| |now split].
    split.
    + now apply stale_unmount.
    + unfold Flow.unmount. cbn [Flow.mounted Flow.set_timeouts].
      destruct (Flow.mounted t); exact Hfresh.
  - split; [|exact Hfresh]. cbn [Flow.page Flow.set_page]. apply stale_commit.
    now apply stale_step.
  - split; [|exact Hfresh]. cbn [Flow.page Flow.set_page]. apply stale_commit.
    now apply stale_step.
  - split; [|exact Hfresh]. cbn [Flow.page Flow.set_page]. apply stale_commit.
    now apply stale_step.
  - split; [|exact Hfresh]. cbn [Flow.page Flow.set_page]. apply stale_commit.
    now apply stale_step.
  - split; [|exact Hfresh]. cbn [Flow.page Flow.set_page]. apply stale_commit.
    now apply stale_step.
Qed.

Lemma stale_flow_run es t :
  stale (Flow.page t) -> fresh_calls t ->
  stale (Flow.page (Flow.run coerce origin sessionId t es)).
Proof.
  revert t. induction es as [|e es IH]; intros t H1 H2; [exact H1|].
  cbn [Flow.run fold_left].
  destruct (stale_flow_step t e H1 H2) as [H1' H2']. now apply IH.
Qed.

End StaleLife.

Lemma fresh_calls_initial : fresh_calls Flow.initial.
Proof.
  intros id call E. change (Flow.pending Flow.initial) with (∅ : gmap positive Flow.Call) in E.
  rewrite lookup_empty in E. discriminate.
Qed.

(** ** Stopping and unmounting the hardened page *)

Lemma hardened_stop_stopped p :
  Hardened.stopStreaming p =
  (Normal tt,
   set_speech (fun _ => [spoken (JStr "Session ended. Great work today!") 1.0]) (stopped p)).
Proof.
  destruct p as [u [[ws|] [st|] [fi|] [rt|]] b];
    unfold Hardened.stopStreaming, stopped, Page.bind, effect, read, when, ret;
    cbn [refs frameIntervalRef reconnectTimeoutRef streamRef wsRef
         set_frameIntervalRef set_reconnectTimeoutRef set_streamRef set_wsRef
         Plain.clearTimer Plain.stop_tracks set_timers set_tracks
         with_refs with_browser console_log console_push];
    try (rewrite speak_queue; reflexivity);
    match goal with
    | |- context [Plain.socket_is_open ?q] =>
        destruct (Plain.socket_is_open q); rewrite speak_queue; reflexivity
    end.
Qed.

Lemma unmount_cleanup_facts p :
  let q := snd (Hardened.unmount_cleanup p) in
  fst (Hardened.unmount_cleanup p) = Normal tt /\
  ui q = ui p /\ refs q = refs p /\
  console (browser q) = console (browser p) /\
  speech (browser q) = option_map (fun _ => []) (speech (browser p)) /\
  timers (browser q) = timers (browser (stopped p)) /\
  tracks (browser q) = tracks (browser (stopped p)) /\
  overlay (browser q) = overlay (browser p) /\
  video (browser q) = video (browser p) /\
  sockets (browser q) =
    match wsRef (refs p) with
    | Some h => sockets (browser (Plain.ws_close h p))
    | None => sockets (browser p)
    end.
Proof.
  destruct p as [u [[ws|] [st|] [fi|] [rt|]] b]; destruct b as [so ti tr nh sp co ov ca vi];
    cbv zeta; repeat split; try reflexivity.
  all: unfold stopped; cbn [refs wsRef frameIntervalRef reconnectTimeoutRef streamRef
         console_log console_push with_browser with_refs browser
         set_frameIntervalRef set_reconnectTimeoutRef set_streamRef set_wsRef
         Plain.clearTimer Plain.stop_tracks set_timers set_tracks];
    match goal with
    | |- context [Plain.socket_is_open ?q] => destruct (Plain.socket_is_open q); reflexivity
    end.
Qed.

(** X8. In the hardened variant Stop is the plain Stop followed by one
    spoken farewell, and the unmount cleanup is silent: it returns
    normally, empties the speech queue and queues nothing, writes nothing
    to the console, and leaves React state and the refs as they were. It
    clears the same timers and stops the same tracks as Stop, and it closes
    the socket of [wsRef] without sending the [end] notice. *)
Theorem unmount_cleanup_is_silent (p : Page) :
  let stop := Hardened.stopStreaming p in
  let gone := Hardened.unmount_cleanup p in
  stop = (Normal tt,
          set_speech (fun _ => [spoken (JStr "Session ended. Great work today!") 1.0])
            (snd (Plain.stopStreaming p))) /\
  fst gone = Normal tt /\
  speech (browser (snd gone)) = option_map (fun _ => []) (speech (browser p)) /\
  console (browser (snd gone)) = console (browser p) /\
  ui (snd gone) = ui p /\
  refs (snd gone) = refs p /\
  timers (browser (snd gone)) = timers (browser (snd (Plain.stopStreaming p))) /\
  tracks (browser (snd gone)) = tracks (browser (snd (Plain.stopStreaming p))) /\
  (forall h s, wsRef (refs p) = Some h -> sockets (browser p) !! h = Some s ->
     exists s', sockets (browser (snd gone)) !! h = Some s' /\
       sent s' = sent s /\
       readyState s' = match readyState s with
                       | CONNECTING | OPEN => CLOSING
                       | st => st
                       end).
Proof.
  intros stop gone. subst stop gone.
  rewrite hardened_stop_stopped, stopStreaming_stopped. cbn [snd].
  destruct (unmount_cleanup_facts p) as [H1 [H2 [H3 [H4 [H5 [H6 [H7 [_ [_ H8]]]]]]]]].
  repeat (split; [assumption || reflexivity|]).
  intros h s Hws Hs. rewrite H8, Hws.
  change (sockets (browser (Plain.ws_close h p))) with
    (alter (fun s => {| readyState := match readyState s with
                                      | CONNECTING | OPEN => CLOSING
                                      | st => st
                                      end;
                        sent := sent s; handlers := handlers s |}) h (sockets (browser p))).
  rewrite lookup_alter_eq, Hs. cbn [fmap option_fmap option_map].
  eexists. split; [reflexivity|]. split; reflexivity.
Qed.

Lemma unmount_cleanup_is_silent_witness :
  let open := Hardened.run no_coercion initial_page
                [Hardened.PageEvent (Plain.ClickStart (Normal [7%positive]) true);
                 Hardened.PageEvent (Plain.SocketOpen 1)] in
  wsRef (refs open) = Some 1%positive /\
  (exists s, sockets (browser open) !! 1%positive = Some s /\ readyState s = OPEN) /\
  exists s', sockets (browser (snd (Hardened.unmount_cleanup open))) !! 1%positive = Some s' /\
             sent s' = [] /\ readyState s' = CLOSING.
Proof.
  cbv zeta.
  set (open := Hardened.run no_coercion initial_page
                [Hardened.PageEvent (Plain.ClickStart (Normal [7%positive]) true);
                 Hardened.PageEvent (Plain.SocketOpen 1)]).
  assert (Hws : wsRef (refs open) = Some 1%positive) by (vm_compute; reflexivity).
  assert (Hs : sockets (browser open) !! 1%positive =
               Some {| readyState := OPEN; sent := [];
                       handlers := Plain.closure_of_render initial_page |})
    by (vm_compute; reflexivity).
  split; [exact Hws|]. split; [eexists; split; [exact Hs|reflexivity]|].
  destruct (unmount_cleanup_is_silent open) as [_ [_ [_ [_ [_ [_ [_ [_ H]]]]]]]].
  exact (H 1%positive _ Hws Hs).
Defined.

(** ** The hardened dispatcher on typed payloads *)


Lemma bind_throw {A B} (m : M A) (k : A -> M B) (e : string) p q :
  m p = (Throw e, q) -> bind m k p = (Throw e, q).
Proof. intros E. unfold bind. now rewrite E. Qed.

Section Typed.
Variable coerce : jsval -> option Q.



Lemma length_positive (l : list jsval) :
  l <> [] -> gt coerce (prop (JArr l) "length") 0 = true.
Proof.
  intros Hl. change (prop (JArr l) "length") with (num_of_nat (List.length l)).
  unfold num_of_nat. rewrite gt_num.
  destruct (Qlt_le_dec 0 (inject_Z (Z.of_nat (List.length l)))) as [_|Hle]; [reflexivity|].
  exfalso. destruct l as [|a l]; [now apply Hl|].
  unfold Qle in Hle. cbn in Hle. lia.
Qed.




End Typed.






(** ** The coordinate log *)






Lemma valid_points_unreadable coerce idx l kp :
  In kp l ->
  truthy kp && gt coerce (prop kp "confidence") 0.2 = true ->
  (forall q, prop kp "x" <> JNum q) \/ (forall q, prop kp "y" <> JNum q) ->
  Hardened.valid_points coerce idx l = Throw "TypeError".
Proof.
  intros Hin Hc Hbad. revert idx. induction l as [|a l IH]; intros idx; [destruct Hin|].
  cbn [Hardened.valid_points].
  assert (Hsame : forall i b, exists o,
            Hardened.log_point coerce i b = Normal o \/
            Hardened.log_point coerce i b = Throw "TypeError").
  { intros i b. unfold Hardened.log_point.
    destruct (truthy b && gt coerce (prop b "confidence") 0.2); [|exists None; now left].
    destruct (prop b "x"); try (exists None; now right).
    destruct (prop b "y"); try (exists None; now right).
    eexists. left. reflexivity. }
  destruct Hin as [->|Hin].
  - unfold Hardened.log_point. rewrite Hc.
    destruct Hbad as [Hx|Hy].
    + destruct (prop kp "x") as [| | |q| | |]; try reflexivity. now destruct (Hx q).
    + destruct (prop kp "x") as [| | |qx| | |]; try reflexivity.
      destruct (prop kp "y") as [| | |q| | |]; try reflexivity. now destruct (Hy q).
  - destruct (Hsame idx a) as [o [->| ->]]; [|reflexivity].
    now rewrite (IH Hin).
Qed.

(** X11. In the hardened variant, one keypoint of confidence above 0.2
    whose [x] or [y] is not a number aborts the handling of an [analysis]
    message: the handler returns normally and logs the failure, after
    [lastAnalysis] and the stats were replaced, and nothing else of the
    message takes effect, so the overlay is not redrawn and the feedback
    carried by the same message is neither listed nor spoken. *)
Theorem unreadable_keypoint_aborts_the_message
    (coerce : jsval -> option Q) (c : Closure) (response : jsval) (l : list jsval)
    (kp : jsval) (now : string) (p : Page) :
  is_str (prop response "type") "analysis" = true ->
  truthy (prop response "data") = true ->
  prop (prop response "data") "keypoints" = JArr l ->
  In kp l ->
  truthy kp && gt coerce (prop kp "confidence") 0.2 = true ->
  (forall q, prop kp "x" <> JNum q) \/ (forall q, prop kp "y" <> JNum q) ->
  Hardened.ws_onmessage coerce c (Normal response) now p =
  (Normal tt,
   console_error "Failed to parse WebSocket message:"
     (setStats (Plain.stats_of_analysis c (prop response "data"))
        (setLastAnalysis (prop response "data") p))).
Proof.
  intros Hty Hdata Hk Hin Hc Hbad.
  unfold Hardened.ws_onmessage, try_catch, Hardened.onmessage_body.
  rewrite bind_lift_normal, (get_typed _ _ Hty), bind_lift_normal.
  cbn [is_str String.eqb Ascii.eqb Bool.eqb].
  unfold Hardened.handle_analysis. rewrite Hdata.
  cbn [is_str String.eqb Ascii.eqb Bool.eqb when andb].
  match goal with
  | |- context [bind ?body _ p] =>
      assert (Hbody : body p =
                (Throw "TypeError",
                 setStats (Plain.stats_of_analysis c (prop response "data"))
                   (setLastAnalysis (prop response "data") p)))
  end.
  { rewrite !bind_effect. apply bind_throw.
    unfold Hardened.log_coordinates. rewrite Hk.
    change (truthy (JArr l)) with true.
    rewrite length_positive by (intros ->; destruct Hin).
    cbn [andb when]. apply bind_throw. unfold Hardened.validKeypoints.
    now rewrite (valid_points_unreadable coerce 0 l kp Hin Hc Hbad). }
  rewrite (bind_throw _ _ _ _ _ Hbody). reflexivity.
Qed.

Lemma unreadable_keypoint_aborts_the_message_witness :
  let out := Hardened.ws_onmessage no_coercion (Plain.closure_of_render initial_page)
               (Normal Samples.analysis_unreadable_keypoint) "12:00:00" initial_page in
  is_str (prop Samples.analysis_unreadable_keypoint "type") "analysis" = true /\
  recentFeedback (ui (snd out)) = [] /\
  overlay (browser (snd out)) = overlay (browser initial_page) /\
  console (browser (snd out)) = [ConsoleError "Failed to parse WebSocket message:"].
Proof.
  cbv zeta. split; [reflexivity|].
  assert (Hy : forall q, prop (JObj [("x", JNum 10); ("confidence", JNum 0.8)]) "y" <> JNum q)
    by (intros q H; discriminate H).
  rewrite (unreadable_keypoint_aborts_the_message no_coercion
             (Plain.closure_of_render initial_page) Samples.analysis_unreadable_keypoint
             [JNull; JObj [("x", JNum 10); ("confidence", JNum 0.8)]]
             (JObj [("x", JNum 10); ("confidence", JNum 0.8)])
             "12:00:00" initial_page eq_refl eq_refl eq_refl
             (or_intror (or_introl eq_refl)) eq_refl (or_intror Hy)).
  repeat split.
Defined.

(** ** The recognition's life cycle *)

(** X12. [stopRecognition] acts only on a recognition that is listening:
    it is idempotent, it changes nothing when [isListening()] is false or
    no recognition is stored, and when it acts it drops the recognition
    and clears the flag. In particular a stop issued right after a
    successful [startRecognition], before the engine has fired [start],
    is ignored: the started recognition stays stored, and once [start]
    fires [isListening()] is true. *)
Theorem stopRecognition_acts_only_while_listening
    (cfg : SpeechToText.Config) (h : SpeechToText.Hook) :
  SpeechToText.stopRecognition (SpeechToText.stopRecognition h) =
    SpeechToText.stopRecognition h /\
  (SpeechToText.isListening h = false -> SpeechToText.stopRecognition h = h) /\
  (SpeechToText.recognitionRef h = None -> SpeechToText.stopRecognition h = h) /\
  (SpeechToText.isListening h = true -> SpeechToText.recognitionRef h <> None ->
     SpeechToText.recognitionRef (SpeechToText.stopRecognition h) = None /\
     SpeechToText.isListening (SpeechToText.stopRecognition h) = false) /\
  (SpeechToText.isListening h = false ->
     let begun := snd (SpeechToText.startRecognition cfg (Some SpeechToText.Works) h) in
     SpeechToText.stopRecognition begun = begun /\
     (exists r, SpeechToText.recognitionRef begun = Some r /\ SpeechToText.started r = true) /\
     SpeechToText.isListening
       (SpeechToText.onstart (SpeechToText.stopRecognition begun)) = true).
Proof.
  split; [|split; [|split; [|split]]].
  - destruct h as [[r|] [|] cs el]; reflexivity.
  - destruct h as [[r|] [|] cs el]; cbn; intros H; try reflexivity; discriminate H.
  - destruct h as [[r|] [|] cs el]; cbn; intros H; try reflexivity; discriminate H.
  - destruct h as [[r|] [|] cs el]; cbn; intros H1 H2; try discriminate H1;
      [split; reflexivity|now destruct H2].
  - destruct h as [[r|] [|] cs el]; cbn; intros H; try discriminate H;
      (split; [reflexivity|split; [eexists; split; reflexivity|reflexivity]]).
Qed.

Lemma recognition_run_snoc cfg h es e :
  Recognition.run cfg h (es ++ [e]) = Recognition.step cfg (Recognition.run cfg h es) e.
Proof. unfold Recognition.run. now rewrite fold_left_app. Qed.

Lemma recognition_step_facts cfg h e :
  SpeechToText.callbacks (Recognition.step cfg h e) =
    (SpeechToText.callbacks h ++ Recognition.reported cfg e)%list /\
  SpeechToText.isListening (Recognition.step cfg h e) =
    Recognition.running_after (SpeechToText.isListening h) e /\
  SpeechToText.recognitionRef (Recognition.step cfg h e) = SpeechToText.recognitionRef h.
Proof.
  destruct e as [|t f|err|]; cbn [Recognition.step Recognition.reported Recognition.running_after].
  - now rewrite app_nil_r.
  - unfold SpeechToText.onresult, SpeechToText.call_onTranscript.
    destruct (SpeechToText.has_onTranscript cfg); [|rewrite app_nil_r]; repeat split.
  - unfold SpeechToText.onerror, SpeechToText.call_onError.
    destruct (SpeechToText.has_onError cfg); [|rewrite app_nil_r]; repeat split.
  - now rewrite app_nil_r.
Qed.

Lemma results_keep_listening (rs : list Recognition.Event) (b : bool) :
  Forall (fun e => exists t f, e = Recognition.Result t f) rs ->
  fold_left Recognition.running_after rs b = b.
Proof.
  induction 1 as [|e rs [t [f ->]] _ IH]; [reflexivity|exact IH].
Qed.

(** X13. Over any sequence of engine events, every result is handed to
    [onTranscript] and every error to [onError], once each and in the
    order of the events (when the callback is configured); [isListening()]
    is true exactly when the last event other than a result was [start]
    (results never change it); and the stored recognition is never
    touched by an event. *)
Theorem recognition_events_are_reported_in_order
    (cfg : SpeechToText.Config) (h : SpeechToText.Hook) (es : list Recognition.Event) :
  SpeechToText.callbacks (Recognition.run cfg h es) =
    (SpeechToText.callbacks h ++ flat_map (Recognition.reported cfg) es)%list /\
  SpeechToText.recognitionRef (Recognition.run cfg h es) = SpeechToText.recognitionRef h /\
  (forall e rs,
     Forall (fun e => exists t f, e = Recognition.Result t f) rs ->
     SpeechToText.isListening (Recognition.run cfg h (es ++ e :: rs)) =
       Recognition.running_after (SpeechToText.isListening (Recognition.run cfg h es)) e) /\
  (Forall (fun e => exists t f, e = Recognition.Result t f) es ->
   SpeechToText.isListening (Recognition.run cfg h es) = SpeechToText.isListening h).
Proof.
  assert (Hrun : forall es,
    SpeechToText.callbacks (Recognition.run cfg h es) =
      (SpeechToText.callbacks h ++ flat_map (Recognition.reported cfg) es)%list /\
    SpeechToText.isListening (Recognition.run cfg h es) =
      fold_left Recognition.running_after es (SpeechToText.isListening h) /\
    SpeechToText.recognitionRef (Recognition.run cfg h es) = SpeechToText.recognitionRef h).
  { clear es. intros es. induction es as [|e es IH] using rev_ind.
    - cbn. now rewrite app_nil_r.
    - rewrite recognition_run_snoc, flat_map_app, fold_left_app. cbn [flat_map fold_left].
      destruct IH as [H1 [H2 H3]].
      destruct (recognition_step_facts cfg (Recognition.run cfg h es) e) as [E1 [E2 E3]].
      rewrite E1, E2, E3, H1, H2, H3, app_nil_r, <- app_assoc. repeat split. }
  destruct (Hrun es) as [H1 [H2 H3]].
  split; [exact H1|]. split; [exact H3|]. split.
  - intros e rs Hrs. destruct (Hrun (es ++ e :: rs)%list) as [_ [E _]].
    rewrite E, fold_left_app. cbn [fold_left].
    rewrite results_keep_listening by assumption. now rewrite H2.
  - intros Hes. rewrite H2. now apply results_keep_listening.
Qed.

(** X14. [startRecognition] returns [true] only when an engine exists,
    constructs and starts; the recognition is then stored with the
    configured language and modes, while [isListening()] stays as it was
    until the engine fires [start]. Every failure returns [false], logs
    one console error, reports one error to [onError] when it is
    configured, and leaves the stored recognition and the listening flag
    untouched. *)
Theorem startRecognition_reports_each_failure_once
    (cfg : SpeechToText.Config) (engine : option SpeechToText.Engine) (h : SpeechToText.Hook) :
  let out := SpeechToText.startRecognition cfg engine h in
  (fst out = Normal true <-> engine = Some SpeechToText.Works) /\
  SpeechToText.isListening (snd out) = SpeechToText.isListening h /\
  (engine = Some SpeechToText.Works ->
     SpeechToText.recognitionRef (snd out) =
       Some {| SpeechToText.lang := SpeechToText.language cfg;
               SpeechToText.r_continuous := SpeechToText.continuous cfg;
               SpeechToText.r_interimResults := SpeechToText.interimResults cfg;
               SpeechToText.started := true |} /\
     SpeechToText.callbacks (snd out) = SpeechToText.callbacks h /\
     SpeechToText.errors_logged (snd out) = SpeechToText.errors_logged h) /\
  (engine <> Some SpeechToText.Works ->
     fst out = Normal false /\
     SpeechToText.recognitionRef (snd out) = SpeechToText.recognitionRef h /\
     (exists line, SpeechToText.errors_logged (snd out) =
                     (SpeechToText.errors_logged h ++ [line])%list) /\
     exists msg, SpeechToText.callbacks (snd out) =
                   (SpeechToText.callbacks h ++
                    if SpeechToText.has_onError cfg then [SpeechToText.OnError msg] else [])%list).
Proof.
  cbv zeta. unfold SpeechToText.startRecognition, SpeechToText.call_onError.
  destruct engine as [[|err|err]|]; cbn [SpeechToText.try_start fst snd].
  1:{ split; [tauto|]. split; [reflexivity|]. split; [intros _; repeat split|].
      intros H. exfalso. now apply H. }
  all: split; [split; intros H; discriminate H|];
    (split; [now destruct (SpeechToText.has_onError cfg)|]);
    (split; [intros H; discriminate H|]); intros _;
    (split; [reflexivity|]);
    (split; [now destruct (SpeechToText.has_onError cfg)|]);
    (split; [destruct (SpeechToText.has_onError cfg); eexists; reflexivity|]);
    first [exists err | exists SpeechToText.NOT_SUPPORTED];
    destruct (SpeechToText.has_onError cfg); cbn; rewrite ?app_nil_r; reflexivity.
Qed.

(** ** More on voice activity detection *)

Module VoiceTraceFacts.
Import VoiceDetection VoiceTrace VoiceDetectionFacts.
Local Open Scope Z_scope.

Lemma paired_snoc speaking cs c :
  paired speaking (cs ++ [c]) =
  match paired speaking cs with
  | Some open =>
      match c with
      | SpeechStart => if open then None else Some true
      | SpeechEnd _ => if open then Some false else None
      end
  | None => None
  end.
Proof.
  revert speaking. induction cs as [|a cs IH]; intros speaking.
  - destruct c, speaking; reflexivity.
  - cbn [app paired]. destruct a, speaking; try apply IH; reflexivity.
Qed.

Lemma analyser_stays cfg es : analyserRef (run cfg listening es) = true.
Proof. exact (ex_analyser _ _ (explained_run cfg es)). Qed.

Lemma callbacks_paired (cfg : Config) (es : list Event) :
  has_onSpeechStart cfg = true ->
  has_onSpeechEnd cfg = true ->
  paired false (callbacks (run cfg listening es)) = Some (isSpeaking (run cfg listening es)).
Proof.
  intros Hs He. induction es as [|e es IH] using rev_ind; [reflexivity|].
  rewrite run_snoc. pose proof (analyser_stays cfg es) as Ha.
  set (h := run cfg listening es) in *.
  destruct e as [now bins|now]; cbn [step].
  - unfold analyzeAudio. rewrite Ha. cbn [negb].
    destruct (hasSpeech cfg bins); cbn [callbacks isSpeaking]; [|exact IH].
    destruct (isSpeaking h) eqn:Hsp; [exact IH|].
    unfold call. rewrite Hs, paired_snoc, IH. reflexivity.
  - destruct (silenceTimerRef h) as [armed|] eqn:Ht; [|exact IH].
    destruct (armed + silenceDuration cfg <=? now); [|exact IH].
    cbn [silence_timeout callbacks isSpeaking]. unfold call. rewrite He, paired_snoc, IH.
    destruct (ex_timer _ _ (explained_run cfg es) armed Ht) as [Hsp _].
    fold h in Hsp. now rewrite Hsp.
Qed.

(** X15. With both callbacks configured, over any sequence of frames and
    timer events the detector's callbacks alternate: a speech start, then
    a speech end, then a start again, beginning with a start; and
    [isSpeaking] tells whether the last start is still waiting for its
    end. So no start is reported twice in a row and no end without a
    start. *)
Theorem speech_callbacks_alternate (cfg : Config) (es : list Event) :
  has_onSpeechStart cfg = true ->
  has_onSpeechEnd cfg = true ->
  paired false (callbacks (run cfg listening es)) = Some (isSpeaking (run cfg listening es)).
Proof. apply callbacks_paired. Qed.

Lemma speech_callbacks_alternate_witness :
  has_onSpeechStart default_config = true /\
  has_onSpeechEnd default_config = true /\
  callbacks (run default_config listening one_utterance) = [SpeechStart; SpeechEnd 2600] /\
  paired false (callbacks (run default_config listening one_utterance)) = Some false.
Proof.
  split; [reflexivity|]. split; [reflexivity|]. split; [reflexivity|].
  rewrite (speech_callbacks_alternate default_config one_utterance eq_refl eq_refl).
  reflexivity.
Defined.

Lemma sum_bins_from (bins : list Z) (acc : Z) :
  fold_left Z.add bins acc = acc + sum_bins bins.
Proof.
  unfold sum_bins. revert acc. induction bins as [|b bins IH]; intros acc; cbn [fold_left].
  - lia.
  - rewrite IH, (IH (0 + b)). lia.
Qed.

Lemma sum_bins_bounds (bins : list Z) :
  forallb is_byte bins = true ->
  0 <= sum_bins bins <= 255 * Z.of_nat (List.length bins).
Proof.
  induction bins as [|b bins IH]; intros H.
  - cbn. lia.
  - cbn [forallb] in H. apply andb_true_iff in H. destruct H as [Hb H].
    unfold is_byte in Hb. apply andb_true_iff in Hb. destruct Hb as [H0 H1].
    apply Z.leb_le in H0. apply Z.leb_le in H1. specialize (IH H).
    unfold sum_bins at 1 2. cbn [fold_left]. rewrite sum_bins_from.
    cbn [List.length]. lia.
Qed.

(** X16. The energy the detector computes from byte frequency data is a
    fraction: for a non-empty array of bytes it is a number between 0 and
    1, and speech is detected exactly when it is strictly above the
    threshold. For an empty array the energy is [NaN] and no speech is
    detected, whatever the threshold. *)
Theorem energy_is_a_fraction (cfg : Config) (bins : list Z) :
  forallb is_byte bins = true ->
  bins <> [] ->
  (exists e : Q,
     normalizedEnergy bins = Some e /\
     (0 <= e)%Q /\ (e <= 1)%Q /\
     (hasSpeech cfg bins = true <-> (speechThreshold cfg < e)%Q)) /\
  normalizedEnergy [] = None /\ hasSpeech cfg [] = false.
Proof.
  intros Hb Hne. split; [|split; reflexivity].
  destruct bins as [|b bins]; [now destruct Hne|].
  pose proof (sum_bins_bounds (b :: bins) Hb) as [Hlo Hhi].
  set (l := b :: bins) in *.
  assert (Hn : 0 < Z.of_nat (List.length l)) by (subst l; cbn [List.length]; lia).
  assert (Hen : normalizedEnergy l =
                Some (inject_Z (sum_bins l) / inject_Z (Z.of_nat (List.length l)) / 255)%Q)
    by reflexivity.
  clearbody l.
  exists ((inject_Z (sum_bins l) / inject_Z (Z.of_nat (List.length l))) / 255)%Q.
  split; [exact Hen|].
  assert (Hpos : (0 < inject_Z (Z.of_nat (List.length l)) * 255)%Q).
  { change 255%Q with (inject_Z 255). rewrite <- inject_Z_mult.
    change 0%Q with (inject_Z 0). rewrite <- Zlt_Qlt. lia. }
  assert (E : (inject_Z (sum_bins l) / inject_Z (Z.of_nat (List.length l)) / 255 ==
               inject_Z (sum_bins l) / (inject_Z (Z.of_nat (List.length l)) * 255))%Q).
  { field. change 0%Q with (inject_Z 0). rewrite inject_Z_injective. lia. }
  split; [|split].
  - rewrite E. apply Qle_shift_div_l; [exact Hpos|]. rewrite Qmult_0_l.
    change 0%Q with (inject_Z 0). rewrite <- Zle_Qle. exact Hlo.
  - rewrite E. apply Qle_shift_div_r; [exact Hpos|]. rewrite Qmult_1_l.
    change 255%Q with (inject_Z 255). rewrite <- inject_Z_mult, <- Zle_Qle. lia.
  - unfold hasSpeech. rewrite Hen. unfold Qgt_bool. split.
    + intros H. apply Qnot_le_lt. intros Hle. apply Qle_bool_iff in Hle.
      rewrite Hle in H. discriminate.
    + intros H. destruct (Qle_bool _ _) eqn:Hle; [|reflexivity].
      apply Qle_bool_iff in Hle. exfalso. exact (Qlt_not_le _ _ H Hle).
Qed.

Lemma energy_is_a_fraction_witness :
  forallb is_byte [0; 12; 255] = true /\
  [0; 12; 255] <> [] /\
  exists e : Q, normalizedEnergy [0; 12; 255] = Some e /\ (0 <= e)%Q /\ (e <= 1)%Q.
Proof.
  assert (Hne : [0; 12; 255] <> []) by discriminate.
  split; [reflexivity|]. split; [exact Hne|].
  destruct (energy_is_a_fraction default_config [0; 12; 255] eq_refl Hne)
    as [[e [He [H0 [H1 _]]]] _].
  exists e. split; [exact He|]. split; assumption.
Defined.

Lemma stopped_hook_is_deaf cfg h es : run cfg (stopListening h) es = stopListening h.
Proof.
  induction es as [|e es IH] using rev_ind; [reflexivity|].
  rewrite run_snoc, IH. destruct e; reflexivity.
Qed.

(** X17. After [stopListening] the detector is deaf: no frame and no
    timer event changes it any more, and no callback is made. Stopping
    makes no callback itself, so a speech that was open when the detector
    was stopped has had its start reported and never gets an end. *)
Theorem stopListening_drops_the_open_speech
    (cfg : Config) (es later : list Event) :
  let h := run cfg listening es in
  run cfg (stopListening h) later = stopListening h /\
  callbacks (run cfg (stopListening h) later) = callbacks h /\
  isSpeaking (stopListening h) = false /\
  (has_onSpeechStart cfg = true -> has_onSpeechEnd cfg = true ->
   isSpeaking h = true ->
   paired false (callbacks (run cfg (stopListening h) later)) = Some true).
Proof.
  intros h. rewrite stopped_hook_is_deaf.
  split; [reflexivity|]. split; [reflexivity|]. split; [reflexivity|].
  intros Hs He Hsp. cbn [stopListening callbacks]. subst h.
  rewrite (callbacks_paired cfg es Hs He). now rewrite Hsp.
Qed.

Lemma stopListening_drops_the_open_speech_witness :
  let h := run default_config listening [Frame 1000 [255]] in
  isSpeaking h = true /\
  callbacks (run default_config (stopListening h) [Frame 1100 [0]; SilenceTimer 3600]) =
    [SpeechStart] /\
  paired false
    (callbacks (run default_config (stopListening h) [Frame 1100 [0]; SilenceTimer 3600])) =
    Some true.
Proof.
  cbv zeta. split; [reflexivity|]. split; [reflexivity|].
  exact (proj2 (proj2 (proj2 (stopListening_drops_the_open_speech default_config
           [Frame 1000 [255]] [Frame 1100 [0]; SilenceTimer 3600]))) eq_refl eq_refl eq_refl).
Defined.






End VoiceTraceFacts.

(** ** Rendering *)

Lemma and_then_raises {A B} (c : completion A) (k : A -> completion B) :
  raises_only_TypeError c -> (forall a, raises_only_TypeError (k a)) ->
  raises_only_TypeError (Jsx.and_then c k).
Proof.
  intros Hc Hk e. destruct c as [a|e']; cbn; [apply Hk|].
  intros [= <-]. now apply Hc.
Qed.

Lemma normal_raises {A} (a : A) : raises_only_TypeError (Normal a).
Proof. intros e H. discriminate H. Qed.

Lemma toFixed_raises d v : raises_only_TypeError (Jsx.toFixed d v).
Proof. intros e. destruct v; cbn; intros H; try discriminate H; now injection H as <-. Qed.

Lemma toFixed_or_NA_raises v : raises_only_TypeError (Jsx.toFixed_or_NA v).
Proof. intros e. destruct v; cbn; intros H; try discriminate H; now injection H as <-. Qed.

Lemma join_raises v : raises_only_TypeError (Jsx.join v).
Proof.
  intros e. unfold Jsx.join. destruct v as [| | | | |items|];
    try (intros H; now injection H as <-).
  destruct (forallb Jsx.stringifies items); intros H; [discriminate H|now injection H as <-].
Qed.

Lemma template_raises v : raises_only_TypeError (Jsx.template v).
Proof.
  intros e. unfold Jsx.template.
  destruct (Jsx.stringifies v); intros H; [discriminate H|now injection H as <-].
Qed.

Lemma replace_raises v : raises_only_TypeError (Jsx.replace_underscores v).
Proof. intros e. destruct v; cbn; intros H; try discriminate H; now injection H as <-. Qed.

Lemma get_raises v name : raises_only_TypeError (get v name).
Proof. intros e. destruct v; cbn; intros H; try discriminate H; now injection H as <-. Qed.

Ltac raises_go :=
  repeat first
    [ apply normal_raises
    | apply toFixed_raises
    | apply toFixed_or_NA_raises
    | apply join_raises
    | apply template_raises
    | apply replace_raises
    | apply get_raises
    | apply and_then_raises; [|intros ?] ].

Lemma live_overlay_raises s : raises_only_TypeError (Jsx.live_overlay s).
Proof. unfold Jsx.live_overlay. raises_go. Qed.

Lemma details_raises s a : raises_only_TypeError (Jsx.details s a).
Proof. unfold Jsx.details. raises_go. Qed.

Lemma live_metrics_raises s : raises_only_TypeError (Jsx.live_metrics s).
Proof. unfold Jsx.live_metrics. raises_go. Qed.

Lemma feedback_card_raises f : raises_only_TypeError (Jsx.feedback_card f).
Proof. unfold Jsx.feedback_card. destruct (truthy (reason f)); raises_go. Qed.

Lemma feedback_cards_raises l : raises_only_TypeError (Jsx.feedback_cards l).
Proof.
  induction l as [|f l IH]; cbn [Jsx.feedback_cards]; [apply normal_raises|].
  apply and_then_raises; [apply feedback_card_raises|intros card].
  apply and_then_raises; [exact IH|intros cards; apply normal_raises].
Qed.

Lemma live_part_raises u :
  raises_only_TypeError (if isStreaming u then Jsx.live_overlay (stats u) else Normal []).
Proof. destruct (isStreaming u); [apply live_overlay_raises|apply normal_raises]. Qed.

Lemma panel_part_raises u :
  raises_only_TypeError
    (if truthy (lastAnalysis u) then Jsx.details (stats u) (lastAnalysis u)
     else Normal [Jsx.Shown (lastAnalysis u)]).
Proof. destruct (truthy (lastAnalysis u)); [apply details_raises|apply normal_raises]. Qed.

Lemma render_raises u : raises_only_TypeError (Jsx.render u).
Proof.
  unfold Jsx.render.
  apply and_then_raises; [apply live_part_raises|].
  intros o. apply and_then_raises; [apply panel_part_raises|].
  intros d. apply and_then_raises; [apply live_metrics_raises|].
  intros m. apply and_then_raises; [apply feedback_cards_raises|intros; apply normal_raises].
Qed.

Lemma raises_cases {A} (c : completion A) :
  raises_only_TypeError c -> (exists a, c = Normal a) \/ c = Throw "TypeError".
Proof.
  intros H. destruct c as [a|e]; [left; now exists a|right].
  now rewrite (H e eq_refl).
Qed.


(** A part that raises takes the whole evaluation down, with a
    TypeError. *)
Lemma render_panel_throws u :
  (if truthy (lastAnalysis u) then Jsx.details (stats u) (lastAnalysis u)
   else Normal [Jsx.Shown (lastAnalysis u)]) = Throw "TypeError" ->
  Jsx.render u = Throw "TypeError".
Proof.
  intros Hd. unfold Jsx.render.
  destruct (raises_cases _ (live_part_raises u)) as [[o ->]| ->]; [|reflexivity].
  cbn [Jsx.and_then]. now rewrite Hd.
Qed.

Lemma render_cards_throw u :
  Jsx.feedback_cards (recentFeedback u) = Throw "TypeError" ->
  Jsx.render u = Throw "TypeError".
Proof.
  intros Hc. unfold Jsx.render.
  destruct (raises_cases _ (live_part_raises u)) as [[o ->]| ->]; [|reflexivity].
  cbn [Jsx.and_then].
  destruct (raises_cases _ (panel_part_raises u)) as [[d ->]| ->]; [|reflexivity].
  cbn [Jsx.and_then].
  destruct (raises_cases _ (live_metrics_raises (stats u))) as [[m ->]| ->]; [|reflexivity].
  cbn [Jsx.and_then]. now rewrite Hc.
Qed.

(** X19. Evaluating the analysis panel of the meeting page succeeds
    exactly when the displayed posture angle is a number, the last
    analysis holds a [movement] with a numeric [movement_score] and
    [velocity], a [symmetry] object whose [arm_symmetry] and
    [leg_symmetry] are numbers or absent, and an [activities] array
    whose items all convert to a string; in every other case it raises a
    TypeError. *)
Theorem details_panel_renders_iff (s : Stats) (a : jsval) :
  ((exists out, Jsx.details s a = Normal out) <->
   is_num (postureAngle s)
   && is_num (prop (prop a "movement") "movement_score")
   && is_num (prop (prop a "movement") "velocity")
   && negb (is_nullish (prop a "symmetry"))
   && (is_num (prop (prop a "symmetry") "arm_symmetry")
       || is_nullish (prop (prop a "symmetry") "arm_symmetry"))
   && (is_num (prop (prop a "symmetry") "leg_symmetry")
       || is_nullish (prop (prop a "symmetry") "leg_symmetry"))
   && (is_array (prop a "activities") && Jsx.stringifies (prop a "activities")) = true) /\
  ((forall out, Jsx.details s a <> Normal out) -> Jsx.details s a = Throw "TypeError").
Proof.
  split.
  2:{ intros H. destruct (raises_cases _ (details_raises s a)) as [[out E]|E]; [|exact E].
      now destruct (H out). }
  unfold Jsx.details.
  destruct (postureAngle s) as [| | |pa| | |];
    try (cbn; split; [intros [out H]; discriminate H|intros H; discriminate H]).
  cbn [Jsx.toFixed Jsx.and_then is_num andb].
  assert (Hmov : is_nullish (prop a "movement") = true ->
                 prop (prop a "movement") "movement_score" = JUndef)
    by (destruct (prop a "movement"); cbn; intros H; try discriminate H; reflexivity).
  unfold get at 1.
  destruct (prop a "movement") as [| | | | | |] eqn:Em;
    try (rewrite (Hmov eq_refl); cbn; split; [intros [out H]; discriminate H|intros H; discriminate H]).
  all: clear Hmov; cbn [Jsx.and_then].
  all: destruct (prop _ "movement_score") as [| | |ms| | |];
    try (cbn; split; [intros [out H]; discriminate H|intros H; discriminate H]).
  all: cbn [Jsx.toFixed Jsx.and_then is_num andb].
  all: destruct (prop _ "velocity") as [| | |vel| | |];
    try (cbn; split; [intros [out H]; discriminate H|intros H; discriminate H]).
  all: cbn [Jsx.toFixed Jsx.and_then is_num andb].
  all: unfold get at 1.
  all: destruct (prop a "symmetry") as [| | | | | |] eqn:Es;
    try (cbn; split; [intros [out H]; discriminate H|intros H; discriminate H]).
  all: cbn [Jsx.and_then is_nullish negb andb].
  all: destruct (prop _ "arm_symmetry") as [| | |arm| | |];
    try (cbn; split; [intros [out H]; discriminate H|intros H; discriminate H]).
  all: cbn [Jsx.toFixed_or_NA Jsx.and_then is_num is_nullish orb andb].
  all: destruct (prop _ "leg_symmetry") as [| | |leg| | |];
    try (cbn; split; [intros [out H]; discriminate H|intros H; discriminate H]).
  all: cbn [Jsx.toFixed_or_NA Jsx.and_then is_num is_nullish orb andb].
  all: destruct (prop a "activities") as [| | | | |acts|];
    try (cbn; split; [intros [out H]; discriminate H|intros H; discriminate H]).
  all: unfold Jsx.join; cbn [is_array andb];
    change (Jsx.stringifies (JArr acts)) with (forallb Jsx.stringifies acts);
    destruct (forallb Jsx.stringifies acts); cbn [Jsx.and_then];
    (split; [intros [out H]; first [reflexivity|discriminate H]
            |intros H; first [eexists; reflexivity|discriminate H]]).
Qed.

Lemma analysis_ui_parts coerce c response now p :
  is_str (prop response "type") "analysis" = true ->
  truthy (prop response "data") = true ->
  let q := snd (Plain.ws_onmessage coerce c (Normal response) now p) in
  lastAnalysis (ui q) = prop response "data" /\
  isStreaming (ui q) = isStreaming (ui p).
Proof.
  intros Hty Hdata q. subst q. unfold Plain.ws_onmessage.
  set (f := fun q : Page => (lastAnalysis (ui q), isStreaming (ui q))).
  assert (E : f (snd (try_catch (Plain.onmessage_body coerce c (Normal response) now)
                        (fun _ => effect (console_error "Failed to parse WebSocket message:")) p)) =
              (prop response "data", isStreaming (ui p))).
  { rewrite (snd_try_catch_same f).
    2:{ intros e. apply keeps_effect. reflexivity. }
    unfold Plain.onmessage_body.
    rewrite bind_lift_normal, (get_typed _ _ Hty), bind_lift_normal.
    cbn [is_str String.eqb Ascii.eqb Bool.eqb].
    rewrite (snd_bind_same f).
    2:{ intros _. unfold Plain.handle_error. cbn [is_str String.eqb Ascii.eqb Bool.eqb when].
        apply keeps_ret, same_refl. }
    unfold Plain.handle_analysis. rewrite Hdata.
    cbn [is_str String.eqb Ascii.eqb Bool.eqb when andb].
    rewrite !bind_effect.
    assert (K : keeps (same f)
                  (bind (Plain.draw_overlay coerce (prop response "data"))
                        (fun _ => Plain.handle_coaching response now))).
    { apply keeps_bind; [apply same_trans| |intros _].
      - apply draw_overlay_keeps; [apply same_refl|apply same_trans|reflexivity].
      - apply handle_coaching_keeps; [apply same_refl|apply same_trans|..]; reflexivity. }
    rewrite K. reflexivity. }
  split; [exact (f_equal fst E)|exact (f_equal snd E)].
Qed.

(** X20. An [analysis] message whose payload has no [movement] object
    passes the plain dispatcher, which returns normally and stores the
    payload as [lastAnalysis]; the next render of the page then raises a
    TypeError, because the analysis panel reads
    [lastAnalysis.movement.movement_score]. *)
Theorem analysis_without_movement_breaks_the_render
    (coerce : jsval -> option Q) (c : Closure) (response : jsval) (now : string) (p : Page) :
  is_str (prop response "type") "analysis" = true ->
  truthy (prop response "data") = true ->
  is_nullish (prop (prop response "data") "movement") = true ->
  let out := Plain.ws_onmessage coerce c (Normal response) now p in
  fst out = Normal tt /\
  lastAnalysis (ui (snd out)) = prop response "data" /\
  Jsx.render (ui (snd out)) = Throw "TypeError".
Proof.
  intros Hty Hdata Hmov out. subst out.
  split; [apply try_catch_normal; reflexivity|].
  destruct (analysis_ui_parts coerce c response now p Hty Hdata) as [Hla _].
  split; [exact Hla|].
  apply render_panel_throws. rewrite Hla, Hdata.
  set (u := ui (snd (Plain.ws_onmessage coerce c (Normal response) now p))).
  unfold Jsx.details.
  destruct (raises_cases _ (toFixed_raises 1 (postureAngle (stats u)))) as [[pa ->]| ->];
    [|reflexivity].
  cbn [Jsx.and_then].
  destruct (prop (prop response "data") "movement"); try discriminate Hmov; reflexivity.
Qed.

Lemma analysis_without_movement_breaks_the_render_witness :
  let out := Plain.ws_onmessage no_coercion (Plain.closure_of_render initial_page)
               (Normal (analysis_frame (JNum 5))) "12:00:00" initial_page in
  is_str (prop (analysis_frame (JNum 5)) "type") "analysis" = true /\
  is_nullish (prop (prop (analysis_frame (JNum 5)) "data") "movement") = true /\
  console (browser (snd out)) = [] /\
  Jsx.render (ui (snd out)) = Throw "TypeError".
Proof.
  cbv zeta. split; [reflexivity|]. split; [reflexivity|]. split; [reflexivity|].
  exact (proj2 (proj2 (analysis_without_movement_breaks_the_render no_coercion
                         (Plain.closure_of_render initial_page) (analysis_frame (JNum 5))
                         "12:00:00" initial_page eq_refl eq_refl eq_refl))).
Defined.

Lemma spaced_length s : String.length (Jsx.spaced s) = String.length s.
Proof. induction s as [|c s IH]; cbn; [reflexivity|now rewrite IH]. Qed.

Lemma spaced_get s n :
  String.get n (Jsx.spaced s) =
  option_map (fun c => if Ascii.eqb c Jsx.underscore then Jsx.blank else c) (String.get n s).
Proof.
  revert n. induction s as [|c s IH]; intros n; [reflexivity|].
  destruct n as [|n]; cbn; [reflexivity|apply IH].
Qed.

(** X21. The reason label of a feedback card shows [reason] with every
    underscore replaced by a space and nothing else changed: same length,
    no underscore left, every other character in place. A card whose
    [reason] is falsy has no label: React gets [reason] itself as the
    child, which it accepts and which shows nothing, except the number 0,
    which shows as text. A [reason] that is truthy but not a string makes
    the card, and with it the page, raise a TypeError. *)
Theorem reason_label_replaces_underscores (f : FeedbackItem) (u : UI) :
  (forall s, reason f = JStr s -> s <> EmptyString ->
     Jsx.feedback_card f = Normal [Jsx.Text (time f); Jsx.Text (Jsx.spaced s); Jsx.Shown (text f)] /\
     String.length (Jsx.spaced s) = String.length s /\
     (forall n c, String.get n (Jsx.spaced s) = Some c -> c <> Jsx.underscore) /\
     (forall n c, String.get n s = Some c -> c <> Jsx.underscore ->
                  String.get n (Jsx.spaced s) = Some c) /\
     (forall n, String.get n s = Some Jsx.underscore -> String.get n (Jsx.spaced s) = Some Jsx.blank)) /\
  (truthy (reason f) = false ->
     Jsx.feedback_card f =
       Normal [Jsx.Text (time f); Jsx.Shown (reason f); Jsx.Shown (text f)] /\
     Jsx.valid_child (reason f) = true /\
     Jsx.child (reason f) =
       match reason f with
       | JNum zero => [Jsx.Shown (JNum zero)]
       | _ => []
       end) /\
  (truthy (reason f) = true -> (forall s, reason f <> JStr s) ->
     In f (recentFeedback u) -> Jsx.render u = Throw "TypeError").
Proof.
  split; [|split].
  - intros s Hs Hne. unfold Jsx.feedback_card. rewrite Hs. cbn [truthy].
    destruct s as [|c s]; [now destruct Hne|]. cbn [String.eqb negb Jsx.replace_underscores Jsx.and_then].
    split; [reflexivity|]. split; [apply spaced_length|]. split; [|split].
    + intros n ch H. rewrite spaced_get in H.
      destruct (String.get n (String c s)) as [c0|]; [|discriminate H].
      cbn in H. injection H as <-.
      destruct (Ascii.eqb c0 Jsx.underscore) eqn:E; [discriminate|].
      intros ->. now rewrite Ascii.eqb_refl in E.
    + intros n ch H Hc. rewrite spaced_get, H. cbn.
      destruct (Ascii.eqb ch Jsx.underscore) eqn:E; [|reflexivity].
      apply Ascii.eqb_eq in E. contradiction.
    + intros n H. rewrite spaced_get, H. reflexivity.
  - intros H. unfold Jsx.feedback_card. rewrite H. split; [reflexivity|].
    destruct (reason f) as [| |b|q|s|l|ps]; try discriminate H; try (split; reflexivity).
    destruct s as [|c s]; [split; reflexivity|discriminate H].
  - intros Ht Hns Hin. apply render_cards_throw.
    assert (Hcard : Jsx.feedback_card f = Throw "TypeError").
    { unfold Jsx.feedback_card. rewrite Ht. unfold Jsx.replace_underscores.
      destruct (reason f) as [| | | |s| |]; try reflexivity. now destruct (Hns s). }
    induction (recentFeedback u) as [|g l IH]; [destruct Hin|].
    cbn [Jsx.feedback_cards].
    destruct (raises_cases _ (feedback_card_raises g)) as [[card Eg]|Eg]; rewrite Eg;
      [|reflexivity].
    cbn [Jsx.and_then]. destruct Hin as [->|Hin]; [congruence|].
    now rewrite (IH Hin).
Qed.

(** ** What an analysis message puts on the page *)









(** ** Routes *)

Lemma prefix_split (p s : string) :
  String.prefix p s = true -> exists rest, s = p ++ rest.
Proof.
  revert s. induction p as [|a p IH]; intros s H.
  - now exists s.
  - destruct s as [|b s]; [discriminate H|]. cbn in H.
    destruct (Ascii.ascii_dec a b) as [->|]; [|discriminate H].
    destruct (IH s H) as [rest ->]. now exists rest.
Qed.

Lemma substring_all (s : string) : String.substring 0 (String.length s) s = s.
Proof. induction s as [|c s IH]; cbn; [reflexivity|now rewrite IH]. Qed.

Lemma prefix_append (p rest : string) : String.prefix p (p ++ rest) = true.
Proof.
  induction p as [|a p IH]; [now destruct rest|].
  change (String a p ++ rest) with (String a (p ++ rest)). cbn [String.prefix].
  destruct (Ascii.ascii_dec a a) as [_|Hne]; [exact IH|now destruct Hne].
Qed.

Lemma substring_skip (p rest : string) (n : nat) :
  String.substring (String.length p) n (p ++ rest) = String.substring 0 n rest.
Proof. induction p as [|a p IH]; [reflexivity|exact IH]. Qed.

Lemma length_append (p rest : string) :
  String.length (p ++ rest) = (String.length p + String.length rest)%nat.
Proof.
  induction p as [|a p IH]; [reflexivity|].
  change (String a p ++ rest) with (String a (p ++ rest)). cbn [String.length]. now rewrite IH.
Qed.

Lemma replace_first_prefix (p rest : string) :
  p <> EmptyString ->
  Shell.replace_first p EmptyString (p ++ rest) = rest.
Proof.
  intros Hp. unfold Shell.replace_first.
  assert (Hi : String.index 0 p (p ++ rest) = Some 0%nat).
  { pose proof (prefix_append p rest) as H.
    destruct p as [|a p]; [now destruct Hp|].
    change (String a p ++ rest) with (String a (p ++ rest)) in *.
    cbn [String.index]. now rewrite H. }
  rewrite Hi. cbn [Nat.add].
  replace (String.substring 0 0 (p ++ rest)) with EmptyString by (now destruct (p ++ rest)).
  change (EmptyString ++ EmptyString ++ ?x) with x. rewrite substring_skip, length_append.
  replace (String.length p + String.length rest - String.length p)%nat
    with (String.length rest) by lia.
  apply substring_all.
Qed.

Lemma meet_route_decodes (id : string) :
  Shell.replace_first "/meet/" EmptyString ("/meet/" ++ id) = id.
Proof. apply replace_first_prefix. discriminate. Qed.

Lemma route_screens (route id : string) :
  Shell.renderPage ("/meet/" ++ id) = Shell.MeetingPage id /\
  (Shell.renderPage route = Shell.MeetingPage id <-> route = "/meet/" ++ id) /\
  (Shell.renderPage route = Shell.HomePage <-> String.prefix "/meet/" route = false) /\
  Shell.renderPage "home" = Shell.HomePage /\
  Shell.renderPage "/" = Shell.HomePage.
Proof.
  assert (Hto : forall i, Shell.renderPage ("/meet/" ++ i) = Shell.MeetingPage i).
  { intros i. unfold Shell.renderPage.
    change (String.eqb ("/meet/" ++ i) "home") with false.
    change (String.eqb ("/meet/" ++ i) "/")
      with (String.eqb ("meet/" ++ i) EmptyString).
    change (String.eqb ("meet/" ++ i) EmptyString) with false.
    cbn [orb].
    rewrite prefix_append.
    now rewrite meet_route_decodes. }
  assert (Hcases : String.prefix "/meet/" route = false ->
                   Shell.renderPage route = Shell.HomePage).
  { intros H. unfold Shell.renderPage. rewrite H. now destruct (_ || _). }
  split; [apply Hto|]. split; [|split; [|split; reflexivity]].
  - split.
    + intros H. destruct (String.prefix "/meet/" route) eqn:Hp.
      * destruct (prefix_split _ _ Hp) as [rest ->]. rewrite Hto in H. now injection H as ->.
      * rewrite (Hcases eq_refl) in H. discriminate H.
    + intros ->. apply Hto.
  - split; [|exact Hcases].
    intros H. destruct (String.prefix "/meet/" route) eqn:Hp; [|reflexivity].
    destruct (prefix_split _ _ Hp) as [rest ->]. rewrite Hto in H. discriminate H.
Qed.

Lemma route_decodes (id : string) :
  Shell.renderPage ("/meet/" ++ id) = Shell.MeetingPage id /\
  Shell.renderPage "/" = Shell.HomePage.
Proof.
  destruct (route_screens ("/meet/" ++ id) id) as [H [_ [_ [_ H']]]].
  split; assumption.
Qed.

(** X22. Routes and session ids round-trip through [App]: the route
    [/meet/<id>] renders the meeting page for exactly [<id>], whatever the
    id is, and the meeting page is rendered for no other route; every
    other route, [home] and [/] included, renders the home page. *)
Theorem meeting_route_round_trip (route id : string) :
  Shell.renderPage ("/meet/" ++ id) = Shell.MeetingPage id /\
  (Shell.renderPage route = Shell.MeetingPage id <-> route = "/meet/" ++ id) /\
  (Shell.renderPage route = Shell.HomePage <-> String.prefix "/meet/" route = false) /\
  Shell.renderPage "home" = Shell.HomePage /\
  Shell.renderPage "/" = Shell.HomePage.
Proof. apply route_screens. Qed.

(** X23. [createMeeting] always re-enables its button ([isCreating] is
    false afterwards). When the server answers [ok] with a body whose
    [session_id] is a string, the user lands on the meeting page for
    exactly that id and no alert is shown; a body without [session_id]
    lands on the meeting page for the id [undefined]. When the request
    fails, the answer is not [ok], the body is not JSON, or the body is
    [null], the route is left as it was and one alert is shown. *)
Theorem createMeeting_outcomes
    (show : jsval -> string) (fetched : Shell.Fetched) (s : Shell.Shell) :
  let s' := Shell.createMeeting show fetched s in
  Shell.isCreating s' = false /\
  (forall data id,
     fetched = Normal (true, Normal data) -> is_nullish data = false ->
     prop data "session_id" = JStr id ->
     Shell.renderPage (Shell.currentRoute s') = Shell.MeetingPage id /\
     Shell.alerts s' = Shell.alerts s) /\
  (forall data,
     fetched = Normal (true, Normal data) -> is_nullish data = false ->
     prop data "session_id" = JUndef ->
     Shell.renderPage (Shell.currentRoute s') = Shell.MeetingPage "undefined") /\
  ((exists e, fetched = Throw e) \/ (exists body, fetched = Normal (false, body)) \/
   (exists e, fetched = Normal (true, Throw e)) \/
   (exists data, fetched = Normal (true, Normal data) /\ is_nullish data = true) ->
   Shell.currentRoute s' = Shell.currentRoute s /\
   Shell.alerts s' =
     (Shell.alerts s ++ ["Failed to create meeting. Please check if backend is running."])%list).
Proof.
  intros s'. subst s'. split; [reflexivity|]. split; [|split].
  - intros data id -> Hn Hid. unfold Shell.createMeeting, Shell.created_route.
    assert (Hget : get data "session_id" = Normal (JStr id))
      by (unfold get; rewrite Hid; destruct data; try reflexivity; discriminate Hn).
    rewrite Hget. cbn [Shell.template Shell.navigate Shell.setIsCreating Shell.currentRoute
                       Shell.alerts].
    split; [|reflexivity].
    exact (proj1 (route_decodes id)).
  - intros data -> Hn Hid. unfold Shell.createMeeting, Shell.created_route.
    assert (Hget : get data "session_id" = Normal JUndef)
      by (unfold get; rewrite Hid; destruct data; try reflexivity; discriminate Hn).
    rewrite Hget. cbn [Shell.template Shell.navigate Shell.setIsCreating Shell.currentRoute].
    exact (proj1 (route_decodes "undefined")).
  - intros [[e ->]|[[body ->]|[[e ->]|[data [-> Hn]]]]];
      unfold Shell.createMeeting, Shell.created_route; try (split; reflexivity).
    destruct data; try discriminate Hn; split; reflexivity.
Qed.

(** X24. [verifyMeeting] sets the share link only when the server answers
    [ok] with a body that parses; the link is the page's origin followed
    by the route of the meeting, it shows no error and schedules nothing.
    In every other case the link stays as it was, an error is shown, and
    exactly one return to [/] is scheduled, 2000 ms later; when that
    timer runs, [App] renders the home page. *)
Theorem verifyMeeting_links_or_leaves
    (origin sessionId : string) (fetched : Shell.Fetched) (s : Shell.Shell) :
  let s' := Shell.verifyMeeting origin sessionId fetched s in
  ((exists body, fetched = Normal (true, Normal body)) ->
     Shell.meetingLink s' = origin ++ "/meet/" ++ sessionId /\
     Shell.error s' = Shell.error s /\
     Shell.scheduled s' = Shell.scheduled s /\
     Shell.currentRoute s' = Shell.currentRoute s) /\
  ((forall body, fetched <> Normal (true, Normal body)) ->
     Shell.meetingLink s' = Shell.meetingLink s /\
     (exists msg, Shell.error s' = Some msg) /\
     Shell.scheduled s' = (Shell.scheduled s ++ [("/", 2000%Z)])%list /\
     (Shell.scheduled s = [] ->
      Shell.renderPage (Shell.currentRoute (Shell.timer_fires s')) = Shell.HomePage /\
      Shell.scheduled (Shell.timer_fires s') = [])) /\
  ((exists body, fetched = Normal (false, body)) ->
     Shell.error s' = Some "Meeting not found or expired").
Proof.
  intros s'. subst s'. split; [|split].
  - intros [body ->]. repeat split.
  - intros H. destruct fetched as [[[|] [body|e]]|e]; try (now destruct (H body)).
    all: cbn [Shell.verifyMeeting]; split; [reflexivity|];
      (split; [eexists; reflexivity|]); (split; [reflexivity|]);
      intros Hs; unfold Shell.timer_fires;
      cbn [Shell.navigate_later Shell.setError Shell.console_push Shell.scheduled]; rewrite Hs;
      split; reflexivity.
  - intros [body ->]. reflexivity.
Qed.

(** ** What the overlay shows *)

Lemma since_clear_app cs1 cs2 shown :
  since_clear (cs1 ++ cs2) shown = since_clear cs2 (since_clear cs1 shown).
Proof.
  revert shown. induction cs1 as [|c cs1 IH]; intros shown; [reflexivity|].
  cbn [app since_clear]. destruct c; apply IH.
Qed.

Lemma since_clear_none cs shown :
  Forall (fun c => match c with ClearRect _ _ _ _ => False | _ => True end) cs ->
  since_clear cs shown = (shown ++ cs)%list.
Proof.
  intros H. revert shown. induction H as [|c cs Hc _ IH]; intros shown.
  - cbn. now rewrite app_nil_r.
  - destruct c; try contradiction; cbn [since_clear]; rewrite IH, <- app_assoc; reflexivity.
Qed.

Lemma edge_calls_no_clear kps sx sy l :
  Forall (fun c => match c with ClearRect _ _ _ _ => False | _ => True end)
         (flat_map (edge_calls kps sx sy) l).
Proof.
  induction l as [|e l IH]; [constructor|].
  cbn [flat_map]. apply Forall_app. split; [|exact IH].
  unfold edge_calls. destruct (edge_visible kps e); repeat constructor.
Qed.

Lemma point_calls_no_clear sx sy kps :
  Forall (fun c => match c with ClearRect _ _ _ _ => False | _ => True end)
         (flat_map (point_calls sx sy) kps).
Proof.
  induction kps as [|o kps IH]; [constructor|].
  cbn [flat_map]. apply Forall_app. split; [|exact IH].
  unfold point_calls. destruct o as [k|]; [destruct (visible (Some k))|]; repeat constructor.
Qed.

(** The calls of one rendering after its [clearRect]. *)
Lemma skeleton_calls_cleared kps cv :
  kps <> [] ->
  exists new,
    skeleton_calls kps cv = ClearRect 0 0 (width cv) (height cv) :: new /\
    Forall (fun c => match c with ClearRect _ _ _ _ => False | _ => True end) new /\
    Skeleton.stroked_segments new =
      map (segment kps (inject_Z (width cv) / 640) (inject_Z (height cv) / 480))
          (List.filter (edge_visible kps) Skeleton.POSE_PAIRS).
Proof.
  intros Hne. destruct kps as [|o kps]; [now destruct Hne|].
  unfold skeleton_calls. cbv zeta. cbn [app].
  eexists. split; [reflexivity|]. split.
  - repeat (constructor; [exact I|]).
    apply Forall_app. split; [apply edge_calls_no_clear|].
    constructor; [exact I|].
    apply Forall_app. split; [apply point_calls_no_clear|repeat constructor].
  - unfold Skeleton.stroked_segments. cbn [Skeleton.strokes_from].
    apply strokes_edges. intros pen' path'.
    cbn [app Skeleton.strokes_from]. apply strokes_points.
Qed.

(** X25. On a mounted overlay, what the canvas shows after
    [drawSkeleton] ran on a typed, non-empty keypoint list is the
    skeleton of that list alone: the renderer clears the canvas first, so
    nothing of earlier frames is left. On an empty list, and in the
    handler on a payload without keypoints, the canvas is not touched:
    the skeleton of the last frame that had keypoints stays on it. *)
Theorem overlay_shows_the_last_skeleton
    (coerce : jsval -> option Q) (kps : list (option KeyPoint)) (data : jsval) (p : Page)
    (cv : Canvas) (v : option (list positive)) :
  overlay (browser p) = Some cv ->
  video (browser p) = Some v ->
  let q := snd (Skeleton.drawSkeleton coerce (keypoints_js kps) p) in
  (kps <> [] ->
   exists new : list cmd,
     overlay_calls q = (overlay_calls p ++ ClearRect 0 0 (width cv) (height cv) :: new)%list /\
     on_canvas (overlay_calls q) = List.filter Skeleton.is_draw_call new /\
     Skeleton.stroked_segments new =
       map (segment kps (inject_Z (width cv) / 640) (inject_Z (height cv) / 480))
           (List.filter (edge_visible kps) Skeleton.POSE_PAIRS)) /\
  (kps = [] -> q = p) /\
  (truthy (prop data "keypoints") = false \/ prop data "keypoints" = keypoints_js [] ->
   snd (Plain.draw_overlay coerce data p) = p).
Proof.
  intros Hcv Hv q. subst q. split; [|split].
  - intros Hne. rewrite (drawSkeleton_calls coerce kps p cv v Hcv Hv). cbn [snd].
    destruct (skeleton_calls_cleared kps cv Hne) as [new [E [Hnc Hseg]]].
    exists new. rewrite E.
    assert (Hcalls : overlay_calls (draws (ClearRect 0 0 (width cv) (height cv) :: new) p) =
                     (overlay_calls p ++ ClearRect 0 0 (width cv) (height cv) :: new)%list).
    { unfold overlay_calls. rewrite (draws_overlay _ _ cv Hcv), Hcv. reflexivity. }
    split; [exact Hcalls|]. split; [|exact Hseg].
    rewrite Hcalls. unfold on_canvas. rewrite since_clear_app. cbn [since_clear].
    now rewrite (since_clear_none new [] Hnc).
  - intros ->. reflexivity.
  - intros [Hk|Hk]; unfold Plain.draw_overlay; rewrite bind_read, Hcv, Hk; reflexivity.
Qed.

Lemma overlay_shows_the_last_skeleton_witness :
  let shown := Plain.run no_coercion initial_page
      (started_session ++ [Plain.SocketMessage 1 (Normal analysis_with_keypoints) "12:00:01"]) in
  let data := JObj [("frame_num", JNum 2); ("keypoints", JArr [])] in
  (exists cv, overlay (browser shown) = Some cv) /\
  video (browser shown) = Some (Some [7%positive]) /\
  on_canvas (overlay_calls shown) <> [] /\
  snd (Plain.draw_overlay no_coercion data shown) = shown.
Proof.
  cbv zeta.
  set (shown := Plain.run no_coercion initial_page
      (started_session ++ [Plain.SocketMessage 1 (Normal analysis_with_keypoints) "12:00:01"])).
  assert (Hv : video (browser shown) = Some (Some [7%positive])) by (vm_compute; reflexivity).
  destruct (overlay (browser shown)) as [cv|] eqn:Hcv; [|vm_compute in Hcv; discriminate Hcv].
  split; [now exists cv|]. split; [exact Hv|]. split; [vm_compute; discriminate|].
  destruct (overlay_shows_the_last_skeleton no_coercion []
              (JObj [("frame_num", JNum 2); ("keypoints", JArr [])]) shown cv _ Hcv Hv)
    as [_ [_ H]].
  apply H. right. reflexivity.
Defined.

(** ** The dashboard *)

Section DashboardRender.
Variable coerce : jsval -> option Q.

Lemma truthy_slot kps i : truthy (index (keypoints_js kps) i) = present (slot kps i).
Proof.
  destruct (index_keypoints kps i) as [-> | [-> ->]]; [|reflexivity].
  now destruct (slot kps i).
Qed.

Lemma dashboard_edge_calls kps e p :
  Dashboard.draw_edge coerce (keypoints_js kps) e p = (Normal tt, draws (bone_calls kps e) p).
Proof.
  unfold Dashboard.draw_edge, bone_calls, bone_present. cbv zeta.
  rewrite !truthy_slot.
  destruct (index_keypoints kps (fst e)) as [EA | [_ EA]];
    [|rewrite EA; reflexivity].
  destruct (index_keypoints kps (snd e)) as [EB | [_ EB]];
    [|rewrite EB, andb_false_r; reflexivity].
  rewrite EA, EB. unfold bone.
  destruct (slot kps (fst e)) as [ka|]; [|reflexivity].
  destruct (slot kps (snd e)) as [kb|]; reflexivity.
Qed.

Lemma dashboard_point_calls o p :
  Dashboard.draw_point coerce (slot_js o) p = (Normal tt, draws (dot_calls o) p).
Proof.
  destruct o as [k|]; [|reflexivity].
  unfold Dashboard.draw_point, dot_calls.
  change (prop (slot_js (Some k)) "confidence") with (JNum (kp_confidence k)).
  change (prop (slot_js (Some k)) "x") with (JNum (kp_x k)).
  change (prop (slot_js (Some k)) "y") with (JNum (kp_y k)).
  change (truthy (slot_js (Some k))) with true.
  rewrite gt_num. unfold sure.
  destruct (Qlt_le_dec 0.3 (kp_confidence k)); reflexivity.
Qed.

Lemma dashboard_drawSkeleton_calls kps p :
  Dashboard.drawSkeleton coerce (keypoints_js kps) p = (Normal tt, draws (dashboard_calls kps) p).
Proof.
  unfold Dashboard.drawSkeleton, dashboard_calls.
  destruct kps as [|o kps]; [reflexivity|].
  set (ks := o :: kps).
  replace (negb (truthy (keypoints_js ks)) || is_zero (prop (keypoints_js ks) "length"))
    with false by reflexivity.
  rewrite !bind_effect.
  unfold bind at 1.
  rewrite (for_each_draws _ (bone_calls ks)) by (intros; apply dashboard_edge_calls).
  unfold Skeleton.forEach, keypoints_js.
  rewrite (for_each_map_draws slot_js _ dot_calls) by (intros; apply dashboard_point_calls).
  f_equal. rewrite !draws_app. reflexivity.
Qed.

End DashboardRender.

Lemma strokes_dots kps pen path :
  Skeleton.strokes_from (flat_map dot_calls kps) pen path = [].
Proof.
  revert pen path. induction kps as [|o kps IH]; intros pen path; [reflexivity|].
  cbn [flat_map]. destruct o as [k|]; [|apply IH].
  unfold dot_calls at 1. destruct (sure k); [|apply IH].
  cbn. apply IH.
Qed.

Lemma strokes_bones kps l rest pen path :
  (forall pen' path', Skeleton.strokes_from rest pen' path' = []) ->
  Skeleton.strokes_from (flat_map (bone_calls kps) l ++ rest) pen path =
  map (bone kps) (List.filter (bone_present kps) l).
Proof.
  intros Hrest. revert pen path.
  induction l as [|e l IH]; intros pen path; [apply Hrest|].
  cbn [flat_map List.filter]. rewrite <- app_assoc.
  unfold bone_calls at 1. destruct (bone_present kps e); [|apply IH].
  cbn [app Skeleton.strokes_from map]. rewrite IH.
  destruct (bone kps e) as [[ax ay] [bx b_y]]. reflexivity.
Qed.

Lemma fills_bones kps l rest style :
  Skeleton.fills_from (flat_map (bone_calls kps) l ++ rest) style [] =
  Skeleton.fills_from rest style [].
Proof.
  induction l as [|e l IH]; [reflexivity|].
  cbn [flat_map]. rewrite <- app_assoc.
  unfold bone_calls at 1. destruct (bone_present kps e); [|apply IH].
  cbn. apply IH.
Qed.

Lemma fills_dots kps style path :
  Skeleton.fills_from (flat_map dot_calls kps) style path = map red_disc (sure_points kps).
Proof.
  revert style path. induction kps as [|o kps IH]; intros style path; [reflexivity|].
  unfold sure_points. cbn [flat_map].
  destruct o as [k|]; [|apply IH].
  unfold dot_calls at 1. destruct (sure k); [|apply IH].
  cbn [app Skeleton.fills_from map]. rewrite IH. reflexivity.
Qed.

Lemma bone_calls_no_clear kps l :
  Forall (fun c => match c with ClearRect _ _ _ _ => False | _ => True end)
         (flat_map (bone_calls kps) l).
Proof.
  induction l as [|e l IH]; [constructor|].
  cbn [flat_map]. apply Forall_app. split; [|exact IH].
  unfold bone_calls. destruct (bone_present kps e); repeat constructor.
Qed.

Lemma dot_calls_no_clear kps :
  Forall (fun c => match c with ClearRect _ _ _ _ => False | _ => True end)
         (flat_map dot_calls kps).
Proof.
  induction kps as [|o kps IH]; [constructor|].
  cbn [flat_map]. apply Forall_app. split; [|exact IH].
  unfold dot_calls. destruct o as [k|]; [destruct (sure k)|]; repeat constructor.
Qed.

Lemma dashboard_calls_no_clear kps :
  Forall (fun c => match c with ClearRect _ _ _ _ => False | _ => True end)
         (dashboard_calls kps).
Proof.
  unfold dashboard_calls. destruct kps as [|o kps]; [constructor|].
  cbn [app]. repeat (constructor; [exact I|]).
  apply Forall_app. split; [apply bone_calls_no_clear|apply dot_calls_no_clear].
Qed.

(** X26. The dashboard's [drawSkeleton] on a typed keypoint list returns
    normally and never clears the canvas itself. It strokes one bone,
    between the keypoints' coordinates as they are (no rescaling), for
    every pair of [POSE_PAIRS] whose two keypoints exist, whatever their
    confidence; and it fills one red disc of radius 5 for every keypoint
    of confidence strictly above 0.3. *)
Theorem dashboard_skeleton_ignores_confidence_of_bones
    (coerce : jsval -> option Q) (kps : list (option KeyPoint)) (p : Page) (cv : Canvas) :
  overlay (browser p) = Some cv ->
  let out := Dashboard.drawSkeleton coerce (keypoints_js kps) p in
  exists new : list cmd,
    fst out = Normal tt /\
    overlay_calls (snd out) = (overlay_calls p ++ new)%list /\
    Forall (fun c => match c with ClearRect _ _ _ _ => False | _ => True end) new /\
    Skeleton.stroked_segments new = map (bone kps) (List.filter (bone_present kps) Skeleton.POSE_PAIRS) /\
    (forall e, bone_present kps e = true <->
       exists ka kb, slot kps (fst e) = Some ka /\ slot kps (snd e) = Some kb) /\
    Skeleton.filled_discs new = map red_disc (sure_points kps) /\
    (forall k, In k (sure_points kps) <-> In (Some k) kps /\ (0.3 < kp_confidence k)%Q).
Proof.
  intros Hcv out. subst out. rewrite dashboard_drawSkeleton_calls. cbn [fst snd].
  exists (dashboard_calls kps). split; [reflexivity|]. split.
  { unfold overlay_calls. rewrite (draws_overlay _ _ cv Hcv), Hcv. reflexivity. }
  split; [apply dashboard_calls_no_clear|]. split.
  { unfold dashboard_calls. destruct kps as [|o kps']; [reflexivity|].
    unfold Skeleton.stroked_segments. cbn [app Skeleton.strokes_from].
    apply strokes_bones. intros pen' path'. apply strokes_dots. }
  split.
  { intros e. unfold bone_present, present. split.
    - destruct (slot kps (fst e)) as [ka|]; [|discriminate].
      destruct (slot kps (snd e)) as [kb|]; [|discriminate].
      intros _. now exists ka, kb.
    - intros [ka [kb [-> ->]]]. reflexivity. }
  split.
  { unfold dashboard_calls. destruct kps as [|o kps']; [reflexivity|].
    unfold Skeleton.filled_discs. cbn [app Skeleton.fills_from].
    rewrite <- (app_nil_r (flat_map dot_calls (o :: kps'))) at 1.
    rewrite fills_bones, app_nil_r. apply fills_dots. }
  intros k. unfold sure_points. rewrite in_flat_map. split.
  - intros [o [Hin Hk]]. destruct o as [k'|]; [|destruct Hk].
    unfold sure in Hk. destruct (Qlt_le_dec 0.3 (kp_confidence k')) as [Hlt|]; [|destruct Hk].
    destruct Hk as [<-|[]]. split; assumption.
  - intros [Hin Hlt]. exists (Some k). split; [exact Hin|].
    unfold sure. destruct (Qlt_le_dec 0.3 (kp_confidence k)) as [_|Hle]; [now left|].
    exfalso. exact (Qlt_not_le _ _ Hlt Hle).
Qed.

Lemma dashboard_skeleton_ignores_confidence_of_bones_witness :
  let faint := [Some {| kp_x := 10; kp_y := 20; kp_confidence := 0 |};
                Some {| kp_x := 30; kp_y := 40; kp_confidence := 0 |}] in
  overlay (browser initial_page) = Some {| width := 300; height := 150; calls := [] |} /\
  exists new : list cmd,
    overlay_calls (snd (Dashboard.drawSkeleton no_coercion (keypoints_js faint) initial_page)) =
      (overlay_calls initial_page ++ new)%list /\
    Skeleton.stroked_segments new = [((Some 10%Q, Some 20%Q), (Some 30%Q, Some 40%Q))] /\
    Skeleton.filled_discs new = [].
Proof.
  cbv zeta. split; [reflexivity|].
  destruct (dashboard_skeleton_ignores_confidence_of_bones no_coercion
              [Some {| kp_x := 10; kp_y := 20; kp_confidence := 0 |};
               Some {| kp_x := 30; kp_y := 40; kp_confidence := 0 |}]
              initial_page {| width := 300; height := 150; calls := [] |} eq_refl)
    as [new [_ [Hcalls [_ [Hseg [_ [Hdiscs _]]]]]]].
  exists new. split; [exact Hcalls|]. split; [rewrite Hseg|rewrite Hdiscs]; reflexivity.
Defined.

Lemma dashboard_onmessage_calls coerce c response st kps p cv :
  overlay (browser p) = Some cv ->
  get response "status" = Normal st ->
  is_str st "received" = false ->
  prop response "keypoints" = keypoints_js kps ->
  Dashboard.ws_onmessage coerce c (Normal response) p =
    (Normal tt,
     draws (ClearRect 0 0 (width cv) (height cv) :: dashboard_calls kps)
       (setStats (Plain.stats_of_analysis c response) (setLastAnalysis response p))).
Proof.
  intros Hcv Hst Hrec Hk.
  unfold Dashboard.ws_onmessage, try_catch, Dashboard.onmessage_body.
  rewrite bind_lift_normal, Hst, bind_lift_normal, Hrec, Hk.
  replace (truthy (keypoints_js kps)) with true by reflexivity.
  unfold when. rewrite !bind_effect, bind_read.
  replace (overlay (browser (setStats (Plain.stats_of_analysis c response)
                               (setLastAnalysis response p)))) with (Some cv)
    by (rewrite <- Hcv; reflexivity).
  rewrite bind_effect, dashboard_drawSkeleton_calls. reflexivity.
Qed.

Lemma dashboard_stop_page a :
  exists q,
    Dashboard.page (Dashboard.stopStreaming a) =
      match overlay (browser q) with
      | Some cv => draw (ClearRect 0 0 (width cv) (height cv)) q
      | None => q
      end /\
    overlay (browser q) = overlay (browser (Dashboard.page a)) /\
    lastAnalysis (ui q) = JNull /\
    isStreaming (ui q) = false /\
    connectionStatus (ui q) = disconnected /\
    frameIntervalRef (refs q) = None /\
    streamRef (refs q) = None /\
    wsRef (refs q) = None /\
    (forall h, option_map sent (sockets (browser q) !! h) =
               option_map sent (sockets (browser (Dashboard.page a)) !! h)) /\
    (forall h,
       (frameIntervalRef (refs (Dashboard.page a)) = Some h ->
        timers (browser q) !! h = None)).
Proof.
  unfold Dashboard.stopStreaming. cbv zeta.
  eexists. split; [reflexivity|].
  destruct a as [p wa ac ctx en]. cbn [Dashboard.page Dashboard.wsAudioRef].
  assert (Hsent : forall h k (b : gmap positive Socket),
             option_map sent (alter (fun s =>
               {| readyState := match readyState s with
                                | CONNECTING | OPEN => CLOSING
                                | st => st
                                end;
                  sent := sent s; handlers := handlers s |}) k b !! h) =
             option_map sent (b !! h)).
  { intros h k b. destruct (decide (k = h)) as [->|Hne].
    - rewrite lookup_alter_eq. now destruct (b !! h).
    - now rewrite lookup_alter_ne. }
  destruct (frameIntervalRef (refs p)) as [t|] eqn:Ht;
    destruct (streamRef (refs p)) as [s|] eqn:Hs;
    destruct (wsRef (refs p)) as [w|] eqn:Hw;
    destruct wa as [wa|];
    cbn; rewrite ?Ht, ?Hs, ?Hw; cbn; rewrite ?Hs, ?Hw; cbn; rewrite ?Hw; cbn;
    repeat (split; [first [reflexivity | assumption]|]);
    try (split; [intros h; rewrite ?Hsent; reflexivity|]);
    intros h E; try discriminate E; injection E as <-; apply lookup_delete_eq.
Qed.

(** X27. The dashboard erases its overlay where the meeting page leaves
    it. A message that carries a keypoint list, even an empty one, wipes
    the canvas before the skeleton of that list is drawn, so an empty
    list leaves an empty canvas. [stopStreaming] sends nothing on any
    socket, forgets the interval, the stream and both sockets, drops the
    last analysis and clears the overlay. *)
Theorem dashboard_erases_the_overlay
    (coerce : jsval -> option Q) (c : Closure) (response st : jsval)
    (kps : list (option KeyPoint)) (a : Dashboard.App) (cv : Canvas) :
  overlay (browser (Dashboard.page a)) = Some cv ->
  get response "status" = Normal st ->
  is_str st "received" = false ->
  prop response "keypoints" = keypoints_js kps ->
  let shown := snd (Dashboard.ws_onmessage coerce c (Normal response) (Dashboard.page a)) in
  let halted := Dashboard.stopStreaming a in
  (on_canvas (overlay_calls shown) = List.filter Skeleton.is_draw_call (dashboard_calls kps) /\
   (kps = [] -> on_canvas (overlay_calls shown) = []) /\
   lastAnalysis (ui shown) = response) /\
  (on_canvas (overlay_calls (Dashboard.page halted)) = [] /\
   lastAnalysis (ui (Dashboard.page halted)) = JNull /\
   isStreaming (ui (Dashboard.page halted)) = false /\
   frameIntervalRef (refs (Dashboard.page halted)) = None /\
   streamRef (refs (Dashboard.page halted)) = None /\
   wsRef (refs (Dashboard.page halted)) = None /\
   Dashboard.wsAudioRef halted = None /\
   Dashboard.audioContextRef halted = None /\
   forall h, option_map sent (sockets (browser (Dashboard.page halted)) !! h) =
             option_map sent (sockets (browser (Dashboard.page a)) !! h)).
Proof.
  intros Hcv Hst Hrec Hk shown halted. split.
  - subst shown. rewrite (dashboard_onmessage_calls coerce c response st kps _ cv Hcv Hst Hrec Hk).
    cbn [snd].
    assert (Hshown : on_canvas
              (overlay_calls
                 (draws (ClearRect 0 0 (width cv) (height cv) :: dashboard_calls kps)
                    (setStats (Plain.stats_of_analysis c response)
                       (setLastAnalysis response (Dashboard.page a))))) =
            List.filter Skeleton.is_draw_call (dashboard_calls kps)).
    { unfold overlay_calls. rewrite (draws_overlay _ _ cv) by (rewrite <- Hcv; reflexivity).
      cbn [calls]. unfold on_canvas.
      rewrite since_clear_app. cbn [since_clear].
      rewrite since_clear_none by apply dashboard_calls_no_clear. reflexivity. }
    split; [exact Hshown|]. split.
    + intros ->. rewrite Hshown. reflexivity.
    + clear Hshown.
      assert (H : forall cs q, lastAnalysis (ui (draws cs q)) = lastAnalysis (ui q)).
      { clear. induction cs as [|x cs IH]; intros q; [reflexivity|].
        cbn [draws fold_left]. fold (draws cs (draw x q)). now rewrite IH. }
      rewrite H. reflexivity.
  - destruct (dashboard_stop_page a)
      as [q [Hpage [Hov [Hla [Hoff [_ [Hi [Hs [Hw [Hsent _]]]]]]]]]].
    fold halted in Hpage. rewrite Hov, Hcv in Hpage. rewrite Hpage.
    split.
    { unfold overlay_calls. cbn. rewrite Hov, Hcv. cbn.
      unfold on_canvas. rewrite since_clear_app. reflexivity. }
    repeat split; try assumption; try reflexivity.
Qed.

Lemma dashboard_erases_the_overlay_witness :
  let a := Dashboard.of_page (draw Fill initial_page) in
  let response := JObj [("keypoints", JArr [])] in
  on_canvas (overlay_calls (Dashboard.page a)) = [Fill] /\
  on_canvas (overlay_calls
    (snd (Dashboard.ws_onmessage no_coercion (Plain.closure_of_render initial_page)
            (Normal response) (Dashboard.page a)))) = [] /\
  on_canvas (overlay_calls (Dashboard.page (Dashboard.stopStreaming a))) = [].
Proof.
  cbv zeta. split; [reflexivity|].
  destruct (dashboard_erases_the_overlay no_coercion (Plain.closure_of_render initial_page)
              (JObj [("keypoints", JArr [])]) JUndef []
              (Dashboard.of_page (draw Fill initial_page))
              {| width := 300; height := 150; calls := [Fill] |}
              eq_refl eq_refl eq_refl eq_refl)
    as [[_ [Hempty _]] [Hhalted _]].
  split; [exact (Hempty eq_refl)|exact Hhalted].
Defined.

(** ** What Stop leaves on the page *)

(** C1 on the code. [stopStreaming] returns normally and releases the
    session: the frame-capture interval and the reconnect timer held in
    the refs are cleared and both refs are [null]; every track of the
    stream is stopped and [streamRef] is [null]; the socket of [wsRef]
    was sent [{type: "end"}] iff it was open, it is closing, and [wsRef]
    is [null]; the speech queue is empty; the video element has no
    source; [isStreaming] is false and the status is [disconnected]. On
    every page the events reach, no reconnect timer at all is pending
    afterwards, and in no life of the page, whatever the order of its
    clicks, awaits and socket events, is a reconnect timer ever pending.
    But the overlay canvas, the capture canvas and [lastAnalysis] are
    never reset. After a session in which a complete analysis message
    was rendered, the page is alive, the overlay shows the skeleton (one
    bone, two discs), and after Stop it still shows it and the analysis
    panel is still on the page; the dashboard's [stopStreaming], run on
    the same page, wipes the canvas and drops the analysis. *)
Theorem stopStreaming_releases_session
    (coerce : jsval -> option Q) (p : Page) (es : list Plain.Event)
    (origin sessionId : string) (life : list Flow.Event) :
  let out := Plain.stopStreaming p in
  let p' := snd out in
  (fst out = Normal tt /\
   frameIntervalRef (refs p') = None /\
   (forall h, frameIntervalRef (refs p) = Some h -> timers (browser p') !! h = None) /\
   reconnectTimeoutRef (refs p') = None /\
   (forall h, reconnectTimeoutRef (refs p) = Some h -> timers (browser p') !! h = None) /\
   streamRef (refs p') = None /\
   (forall s h, streamRef (refs p) = Some s -> In h s ->
      tracks (browser p') !! h = Some false) /\
   wsRef (refs p') = None /\
   (forall h s, wsRef (refs p) = Some h -> sockets (browser p) !! h = Some s ->
      exists s', sockets (browser p') !! h = Some s' /\
        sent s' = (sent s ++ match readyState s with OPEN => [EndMsg] | _ => [] end)%list /\
        readyState s' = match readyState s with
                        | CONNECTING | OPEN => CLOSING
                        | st => st
                        end) /\
   speech (browser p') = option_map (fun _ => []) (speech (browser p)) /\
   video (browser p') = option_map (fun _ => None) (video (browser p)) /\
   isStreaming (ui p') = false /\
   connectionStatus (ui p') = disconnected) /\
  (let reached := Plain.run coerce initial_page es in
   forall h t c, timers (browser (snd (Plain.stopStreaming reached))) !! h = Some t ->
                 action t <> Reconnect c) /\
  (let lived := Flow.page (Flow.run coerce origin sessionId Flow.initial life) in
   forall h t c, timers (browser lived) !! h = Some t -> action t <> Reconnect c) /\
  (overlay (browser p') = overlay (browser p) /\
   capture (browser p') = capture (browser p) /\
   lastAnalysis (ui p') = lastAnalysis (ui p)) /\
  (let drawn := Plain.run no_coercion initial_page
       (started_session ++
        [Plain.SocketMessage 1 (Normal analysis_complete) "12:00:01"]) in
   let halted := snd (Plain.stopStreaming drawn) in
   let wiped := Dashboard.page (Dashboard.stopStreaming (Dashboard.of_page drawn)) in
   (exists view, Jsx.page (ui drawn) = Normal view) /\
   List.length (Skeleton.stroked_segments (on_canvas (overlay_calls drawn))) = 1%nat /\
   List.length (Skeleton.filled_discs (on_canvas (overlay_calls drawn))) = 2%nat /\
   on_canvas (overlay_calls halted) = on_canvas (overlay_calls drawn) /\
   lastAnalysis (ui halted) = prop analysis_complete "data" /\
   (exists view, Jsx.page (ui halted) = Normal view /\
                 Jsx.panel view =
                   [Jsx.Fixed 1 4; Jsx.Fixed 2 0.5; Jsx.Fixed 2 1.5; Jsx.Fixed 1 90;
                    Jsx.Text "N/A";
                    Jsx.Joined [JStr "standing"; JStr "arm_raise"]]) /\
   on_canvas (overlay_calls wiped) = [] /\
   lastAnalysis (ui wiped) = JNull).
Proof.
  intros out p'. subst out p'.
  pose proof (stopStreaming_releases p) as H. cbv zeta in H.
  destruct H as [H1 [H2 [H3 [H4 [H5 [H6 [H7 [H8 [H9 [H10 [H11 [H12 [H13 [H14 [H15 H16]]]]]]]]]]]]]]].
  split; [repeat (split; [assumption|]); assumption|].
  split.
  { intros reached h t c Ht.
    assert (Hst : stale (snd (Plain.stopStreaming reached))).
    { apply stale_stopStreaming. apply stale_run, stale_initial. }
    destruct Hst as [_ [Hact _]]. rewrite (Hact h t Ht). discriminate. }
  split.
  { intros lived h t c Ht.
    assert (Hst : stale lived)
      by (apply stale_flow_run; [apply stale_initial|apply fresh_calls_initial]).
    destruct Hst as [_ [Hact _]]. rewrite (Hact h t Ht). discriminate. }
  split; [repeat split; assumption|].
  cbv zeta. split; [eexists; vm_compute; reflexivity|].
  split; [vm_compute; reflexivity|].
  split; [vm_compute; reflexivity|].
  split.
  { generalize (Plain.run no_coercion initial_page
      (started_session ++ [Plain.SocketMessage 1 (Normal analysis_complete) "12:00:01"])).
    intros q. unfold overlay_calls.
    now rewrite (proj1 (proj2 (proj2 (proj2 (proj2 (proj2 (proj2 (proj2 (proj2 (proj2 (proj2
          (proj2 (proj2 (proj2 (stopStreaming_releases q))))))))))))))). }
  split; [vm_compute; reflexivity|].
  split; [eexists; split; vm_compute; reflexivity|].
  split; vm_compute; reflexivity.
Qed.
